(** * quicksell: the serializers of [quicksell_app/serializers.py]

    A shallow embedding of the custom fields ([Base64UUIDField], [PointField],
    [CategoryField]) and of the [create] / [update] methods of the model
    serializers ([Location], [Profile], [User], [Listing], [Chat]), with the
    properties of the specification proved about them.

    Python exceptions are values of [exn]; a call either returns ([Ok]) or
    raises ([Raise]).  Code that touches the database is a function from the
    database to an outcome and a new database. *)

From Stdlib Require Import ZArith List String Ascii Bool Lia Arith.
From Stdlib Require Import DecimalString DecimalZ SpecFloat.
Import ListNotations.

Local Open Scope Z_scope.

(** ** Part I: definitions *)

(** *** Python outcomes *)

(** The exceptions the serializers raise, catch or let through. *)
Inductive exn : Type :=
| ValueError
| TypeError
| KeyError
| AttributeError
| BinasciiError
| NotFound
| Http404
| ValidationError (detail : string)
| DoesNotExist
| MultipleObjectsReturned
| RelatedObjectDoesNotExist
| IntegrityError.

Inductive result (A : Type) : Type :=
| Ok (a : A)
| Raise (e : exn).

Arguments Ok {A} a.
Arguments Raise {A} e.

Definition is_ValueError (e : exn) : bool :=
  match e with ValueError => true | _ => false end.

Definition is_ValueError_or_TypeError (e : exn) : bool :=
  match e with ValueError | TypeError => true | _ => false end.

Definition is_LookupError_or_BinasciiError (e : exn) : bool :=
  match e with KeyError | BinasciiError => true | _ => false end.

Definition is_DoesNotExist (e : exn) : bool :=
  match e with DoesNotExist => true | _ => false end.

(** [try: body  except <caught> as err: raise e' from err]. *)
Definition try_except_raise {A} (body : result A) (caught : exn -> bool)
  (e' : exn) : result A :=
  match body with
  | Ok a => Ok a
  | Raise e => if caught e then Raise e' else Raise e
  end.

(** *** Bytes and text

    A byte is an integer in [0, 256); a [bytes] object is a list of them.
    Text on the wire is a [string], its characters the octets of its UTF-8
    form. *)

Definition bytes := list Z.

Definition is_byte (b : Z) : Prop := 0 <= b < 256.

Definition ord (c : ascii) : Z := Z.of_N (N_of_ascii c).

Fixpoint dropwhile {A} (p : A -> bool) (l : list A) : list A :=
  match l with
  | [] => []
  | a :: l' => if p a then dropwhile p l' else l
  end.

Definition mem_ascii (c : ascii) (set : list ascii) : bool :=
  existsb (Ascii.eqb c) set.

(** [s.rstrip(chars)]. *)
Definition rstrip (chars : list ascii) (s : list ascii) : list ascii :=
  rev (dropwhile (fun c => mem_ascii c chars) (rev s)).

(** [s.ljust(width, fill)]. *)
Definition ljust (s : list ascii) (width : nat) (fill : ascii) : list ascii :=
  s ++ repeat fill (width - List.length s).

(** [s.translate(bytes.maketrans(from_, to))] for a two-character table. *)
Definition translate_char (f1 t1 f2 t2 c : ascii) : ascii :=
  if Ascii.eqb c f1 then t1 else if Ascii.eqb c f2 then t2 else c.

Definition translate2 (f1 t1 f2 t2 : ascii) (s : list ascii) : list ascii :=
  map (translate_char f1 t1 f2 t2) s.

(** *** base64 (CPython's [binascii] and [base64]) *)

Definition b64_alphabet : list ascii :=
  list_ascii_of_string
    "ABCDEFGHIJKLMNOPQRSTUVWXYZabcdefghijklmnopqrstuvwxyz0123456789+/".

Definition BASE64_PAD : ascii := "="%char.

Definition table_b2a_base64 (n : Z) : ascii :=
  nth (Z.to_nat n) b64_alphabet BASE64_PAD.

Fixpoint index_of (c : ascii) (l : list ascii) (i : Z) : option Z :=
  match l with
  | [] => None
  | d :: l' => if Ascii.eqb c d then Some i else index_of c l' (i + 1)
  end.

(** The decoding table: [None] stands for the table's "not a base64 digit". *)
Definition table_a2b_base64 (c : ascii) : option Z := index_of c b64_alphabet 0.

(** [binascii.b2a_base64(data, newline=False)]: three octets give four
    digits, a rest of one or two octets is padded with [=]. *)
Fixpoint b2a_base64 (data : bytes) : list ascii :=
  match data with
  | [] => []
  | [a] =>
      [ table_b2a_base64 (Z.shiftr a 2);
        table_b2a_base64 (Z.shiftl (Z.land a 3) 4);
        BASE64_PAD; BASE64_PAD ]
  | [a; b] =>
      [ table_b2a_base64 (Z.shiftr a 2);
        table_b2a_base64 (Z.lor (Z.shiftl (Z.land a 3) 4) (Z.shiftr b 4));
        table_b2a_base64 (Z.shiftl (Z.land b 15) 2);
        BASE64_PAD ]
  | a :: b :: c :: rest =>
      table_b2a_base64 (Z.shiftr a 2)
      :: table_b2a_base64 (Z.lor (Z.shiftl (Z.land a 3) 4) (Z.shiftr b 4))
      :: table_b2a_base64 (Z.lor (Z.shiftl (Z.land b 15) 2) (Z.shiftr c 6))
      :: table_b2a_base64 (Z.land c 63)
      :: b2a_base64 rest
  end.

(** The loop of [binascii.a2b_base64] (not strict): characters outside the
    alphabet are skipped, a pad ends the input once the current quad holds at
    least two digits and the pads complete it; input that ends inside a quad
    is an error. *)
Fixpoint a2b_loop (cs : list ascii) (quad_pos leftchar pads : Z) (out : bytes)
  : result bytes :=
  match cs with
  | [] => if quad_pos =? 0 then Ok out else Raise BinasciiError
  | this_ch :: cs' =>
      if Ascii.eqb this_ch BASE64_PAD then
        if quad_pos >=? 2 then
          if quad_pos + (pads + 1) >=? 4 then Ok out
          else a2b_loop cs' quad_pos leftchar (pads + 1) out
        else a2b_loop cs' quad_pos leftchar pads out
      else
        match table_a2b_base64 this_ch with
        | None => a2b_loop cs' quad_pos leftchar pads out
        | Some v =>
            if quad_pos =? 0 then a2b_loop cs' 1 v 0 out
            else if quad_pos =? 1 then
              a2b_loop cs' 2 (Z.land v 15) 0
                (out ++ [Z.lor (Z.shiftl leftchar 2) (Z.shiftr v 4)])
            else if quad_pos =? 2 then
              a2b_loop cs' 3 (Z.land v 3) 0
                (out ++ [Z.lor (Z.shiftl leftchar 4) (Z.shiftr v 2)])
            else
              a2b_loop cs' 0 0 0 (out ++ [Z.lor (Z.shiftl leftchar 6) v])
        end
  end.

Definition a2b_base64 (s : list ascii) : result bytes := a2b_loop s 0 0 0 [].

(** [base64.urlsafe_b64encode] and [base64.urlsafe_b64decode]. *)
Definition urlsafe_b64encode (s : bytes) : list ascii :=
  translate2 "+" "-" "/" "_" (b2a_base64 s).

Definition urlsafe_b64decode (s : list ascii) : result bytes :=
  a2b_base64 (translate2 "-" "+" "_" "/" s).

(** [django.utils.http.urlsafe_base64_encode]: the trailing pads are
    stripped. *)
Definition urlsafe_base64_encode (s : bytes) : list ascii :=
  rstrip ["010"%char; "="%char] (urlsafe_b64encode s).

(** [django.utils.http.urlsafe_base64_decode]: the text is padded with
    [len(s) % 4] pads, decoded, and a decoding error becomes [ValueError]. *)
Definition urlsafe_base64_decode (s : list ascii) : result bytes :=
  try_except_raise
    (urlsafe_b64decode (ljust s (List.length s + Nat.modulo (List.length s) 4) BASE64_PAD))
    is_LookupError_or_BinasciiError ValueError.

(** The digit of a sextet as it is written in a token, a character as the
    decoder's table sees it, and the characters [urlsafe_base64_encode]
    strips. *)
Definition enc_char (n : Z) : ascii :=
  translate_char "+" "-" "/" "_" (table_b2a_base64 n).

Definition dec_char (c : ascii) : ascii := translate_char "-" "+" "_" "/" c.

Definition strip_set : list ascii := ["010"%char; "="%char].

(** The four sextets of a group of three octets. *)
Definition sextet0 (a : Z) : Z := Z.shiftr a 2.
Definition sextet1 (a b : Z) : Z := Z.lor (Z.shiftl (Z.land a 3) 4) (Z.shiftr b 4).
Definition sextet2 (b c : Z) : Z := Z.lor (Z.shiftl (Z.land b 15) 2) (Z.shiftr c 6).
Definition sextet3 (c : Z) : Z := Z.land c 63.

Definition in64 (n : Z) : bool := (0 <=? n) && (n <? 64).

(** An octet, as a test. *)
Definition byte_ok (n : Z) : bool := (0 <=? n) && (n <? 256).

(** The state of the decoding loop: how many bits the digit kept in
    [leftchar] may still hold at each position of the quad. *)
Definition quad_state (q lc : Z) : Prop :=
  q = 0 \/ (q = 1 /\ 0 <= lc < 64) \/ (q = 2 /\ 0 <= lc < 16)
  \/ (q = 3 /\ 0 <= lc < 4).

(** *** UUID

    A [uuid.UUID] is its 128-bit integer; [UUID.bytes] is the integer in 16
    big-endian octets and [UUID(bytes=b)] reads them back, refusing any other
    length. *)

Definition UUID := Z.

Definition UUID_valid (u : UUID) : Prop := 0 <= u < 2 ^ 128.

Fixpoint int_to_bytes (n : nat) (v : Z) : bytes :=
  match n with
  | O => []
  | S n' => Z.land (Z.shiftr v (8 * Z.of_nat n')) 255 :: int_to_bytes n' v
  end.

Definition int_from_bytes (b : bytes) : Z :=
  fold_left (fun acc x => Z.lor (Z.shiftl acc 8) x) b 0.

Definition UUID_bytes (u : UUID) : bytes := int_to_bytes 16 u.

Definition UUID_of_bytes (b : bytes) : result UUID :=
  if (List.length b =? 16)%nat then Ok (int_from_bytes b) else Raise ValueError.

(** *** Base64UUIDField *)

(** What [to_internal_value] may be handed: a [UUID] object or text. *)
Inductive uuid_data : Type :=
| DataUUID (u : UUID)
| DataText (s : string).

Definition Base64UUIDField_to_representation (value : UUID) : string :=
  string_of_list_ascii (urlsafe_base64_encode (UUID_bytes value)).

Definition Base64UUIDField_to_internal_value (data : uuid_data) : result UUID :=
  match data with
  | DataUUID u => Ok u
  | DataText s =>
      try_except_raise
        (match urlsafe_base64_decode (list_ascii_of_string s) with
         | Ok b => UUID_of_bytes b
         | Raise e => Raise e
         end)
        is_ValueError NotFound
  end.

(** Text is malformed as an identifier token when its base64 decoding fails
    or does not give the 16 octets of a UUID. *)
Definition malformed_token (s : string) : bool :=
  match urlsafe_base64_decode (list_ascii_of_string s) with
  | Ok b => negb (List.length b =? 16)%nat
  | Raise _ => true
  end.

(** Characters that never need percent-encoding in a URL (RFC 3986,
    unreserved): letters, digits, [-], [.], [_] and [~]. *)
Definition url_unreserved (c : ascii) : bool :=
  let n := ord c in
  ((65 <=? n) && (n <=? 90)) || ((97 <=? n) && (n <=? 122))
  || ((48 <=? n) && (n <=? 57))
  || (n =? 45) || (n =? 46) || (n =? 95) || (n =? 126).

(** *** Python strings *)

(** [s.split(sep)] for a one-character separator: never empty. *)
Fixpoint split (sep : ascii) (s : string) : list string :=
  match s with
  | EmptyString => [EmptyString]
  | String c s' =>
      if Ascii.eqb c sep then EmptyString :: split sep s'
      else match split sep s' with
           | h :: t => String c h :: t
           | [] => [String c EmptyString]
           end
  end.

(** The white space that [float] drops around a number ([Py_ISSPACE]): tab,
    line feed, vertical tab, form feed, carriage return and the space. *)
Definition isspace (c : ascii) : bool :=
  let n := ord c in
  ((9 <=? n) && (n <=? 13)) || (n =? 32).

Fixpoint lstrip (s : string) : string :=
  match s with
  | EmptyString => EmptyString
  | String c s' => if isspace c then lstrip s' else s
  end.

(** The text without that white space at either end. *)
Definition strip (s : string) : string :=
  string_of_list_ascii
    (rev (dropwhile isspace (rev (list_ascii_of_string (lstrip s))))).

(** *** Floats

    The numbers of a coordinate are Python floats.  The serializers only
    compare them, read them with [float] and print them in an f-string, and
    are written over any type with these operations; [binary64] below is
    the type of Python's floats, with the text that CPython reads and
    prints. *)

(** Coordinates as the database compares them in a lookup. *)
Class FloatEq (F : Type) := float_eq_dec : forall a b : F, {a = b} + {a <> b}.

(** [a == b] on floats. *)
Class FloatCompare (F : Type) := float_eqb : F -> F -> bool.

Class FloatText (F : Type) := {
  (** [float] on text whose surrounding white space is dropped; [None] is
      [ValueError] *)
  float_of_text : string -> option F;
  (** the text of a float in an f-string *)
  format_float : F -> string
}.

(** [float(s)]: surrounding white space is dropped first. *)
Definition py_float {F} `{FloatText F} (s : string) : result F :=
  match float_of_text (strip s) with
  | Some v => Ok v
  | None => Raise ValueError
  end.

(** [a, b = (f(t) for t in tokens)]: the generator is run up to the third
    item, which must not exist. *)
Definition unpack2 {A B} (f : A -> result B) (tokens : list A) : result (B * B) :=
  match tokens with
  | [] => Raise ValueError
  | t0 :: rest =>
      match f t0 with
      | Raise e => Raise e
      | Ok a =>
          match rest with
          | [] => Raise ValueError
          | t1 :: rest' =>
              match f t1 with
              | Raise e => Raise e
              | Ok b =>
                  match rest' with
                  | [] => Ok (a, b)
                  | t2 :: _ =>
                      match f t2 with
                      | Raise e => Raise e
                      | Ok _ => Raise ValueError
                      end
                  end
              end
          end
      end
  end.

(** *** Python floats: IEEE 754 binary64

    A Python float is a [spec_float] of precision 53 and exponent bound
    1024: a signed zero, a signed infinity, NaN, or [(-1)^s * m * 2^e] with
    [m] and [e] in canonical form.  [float(s)] and [repr] follow CPython
    ([PyFloat_FromString], [_Py_dg_strtod], [float_repr_style] short). *)

Definition binary64 : Type := spec_float.

Definition float_prec : Z := 53.
Definition float_emax : Z := 1024.

(** [m * 2 ** e] rounded to the nearest float, ties to even. *)
Definition float_of_dyadic (m e : Z) : binary64 :=
  binary_normalize float_prec float_emax m e false.

Definition chr (n : Z) : ascii := ascii_of_N (Z.to_N n).

(** Number of decimal digits of a positive integer. *)
Definition decimal_length (n : Z) : Z :=
  Z.of_nat (Decimal.nb_digits (N.to_uint (Z.to_N n))).

(** The float nearest to [d * 10 ** e10], ties to even, for [d >= 0], with
    the sign [s]: what [strtod] returns for the digits [d] and the decimal
    exponent [e10].  Beyond [10 ** 310] the result is an infinity and below
    [10 ** -330] a zero, whatever the digits. *)
Definition decimal_to_float (s : bool) (d e10 : Z) : binary64 :=
  match d with
  | Zpos p =>
      if 310 <? decimal_length d + e10 then S754_infinity s
      else if decimal_length d + e10 <? -330 then S754_zero s
      else if 0 <=? e10 then
        binary_normalize float_prec float_emax (cond_Zopp s (d * 10 ^ e10)) 0 s
      else
        SFdiv float_prec float_emax
          (S754_finite s p 0) (S754_finite false (Z.to_pos (10 ^ (- e10))) 0)
  | _ => S754_zero s
  end.

(** **** [float(s)] *)

Definition is_digit (c : ascii) : bool := (48 <=? ord c) && (ord c <=? 57).

Definition digit_value (c : ascii) : Z := ord c - 48.

(** [str.isspace] on one character, by code point. *)
Definition Py_UNICODE_ISSPACE (cp : Z) : bool :=
  ((9 <=? cp) && (cp <=? 13)) || ((28 <=? cp) && (cp <=? 32))
  || (cp =? 0x85) || (cp =? 0xA0) || (cp =? 0x1680)
  || ((0x2000 <=? cp) && (cp <=? 0x200A))
  || (cp =? 0x2028) || (cp =? 0x2029) || (cp =? 0x202F) || (cp =? 0x205F)
  || (cp =? 0x3000).

(** The code point of the digit zero of each decimal script above ASCII
    (Unicode 14, class Nd); the nine that follow it are its digits 1 to 9. *)
Definition decimal_zeros : list Z :=
  [1632; 1776; 1984; 2406; 2534; 2662; 2790; 2918; 3046; 3174; 3302; 3430;
   3558; 3664; 3792; 3872; 4160; 4240; 6112; 6160; 6470; 6608; 6784; 6800;
   6992; 7088; 7232; 7248; 42528; 43216; 43264; 43472; 43504; 43600; 44016;
   65296; 66720; 68912; 69734; 69872; 69942; 70096; 70384; 70736; 70864;
   71248; 71360; 71472; 71904; 72016; 72784; 73040; 73120; 92768; 92864;
   93008; 120782; 120792; 120802; 120812; 120822; 123200; 123632; 125264;
   130032].

Definition Py_UNICODE_TODECIMAL (cp : Z) : option Z :=
  if (48 <=? cp) && (cp <=? 57) then Some (cp - 48)
  else
    match find (fun z => (z <=? cp) && (cp <=? z + 9)) decimal_zeros with
    | Some z => Some (cp - z)
    | None => None
    end.

(** The code points of a text; a string holds the UTF-8 octets of a Python
    [str]. *)
Fixpoint utf8_decode (s : list ascii) : list Z :=
  match s with
  | [] => []
  | a :: s1 =>
      let n := ord a in
      if n <? 0xC0 then n :: utf8_decode s1
      else
        match s1 with
        | [] => [n]
        | b :: s2 =>
            if n <? 0xE0 then
              ((n - 0xC0) * 64 + (ord b - 0x80)) :: utf8_decode s2
            else
              match s2 with
              | [] => [n]
              | c :: s3 =>
                  if n <? 0xF0 then
                    ((n - 0xE0) * 4096 + (ord b - 0x80) * 64 + (ord c - 0x80))
                      :: utf8_decode s3
                  else
                    match s3 with
                    | [] => [n]
                    | d :: s4 =>
                        ((n - 0xF0) * 262144 + (ord b - 0x80) * 4096
                         + (ord c - 0x80) * 64 + (ord d - 0x80))
                          :: utf8_decode s4
                    end
              end
        end
  end.

(** In text that is not ASCII a character below 127 is kept, a space becomes
    [" "], a decimal digit its ASCII digit, and at any other character the
    text ends with ["?"]. *)
Fixpoint transform_chars (cps : list Z) : list ascii :=
  match cps with
  | [] => []
  | ch :: rest =>
      if ch <? 127 then chr ch :: transform_chars rest
      else if Py_UNICODE_ISSPACE ch then " "%char :: transform_chars rest
      else
        match Py_UNICODE_TODECIMAL ch with
        | Some d => chr (48 + d) :: transform_chars rest
        | None => ["?"%char]
        end
  end.

(** [_PyUnicode_TransformDecimalAndSpaceToASCII]: ASCII text is returned as
    it is. *)
Definition TransformDecimalAndSpaceToASCII (s : list ascii) : list ascii :=
  if forallb (fun c => ord c <? 128) s then s
  else transform_chars (utf8_decode s).

(** [_Py_string_to_number_with_underscores]: an underscore stands only
    between two digits, and no NUL is embedded; the text without its
    underscores, or [None]. *)
Fixpoint remove_underscores (prev : ascii) (s : list ascii) : option (list ascii) :=
  match s with
  | [] => if Ascii.eqb prev "_" then None else Some []
  | c :: s' =>
      if Ascii.eqb c "000" then None
      else if Ascii.eqb c "_" then
        if is_digit prev then remove_underscores c s' else None
      else if Ascii.eqb prev "_" && negb (is_digit c) then None
      else option_map (cons c) (remove_underscores c s')
  end.

Definition lower (c : ascii) : ascii :=
  if (65 <=? ord c) && (ord c <=? 90) then chr (ord c + 32) else c.

(** An optional sign. *)
Definition parse_sign (s : list ascii) : bool * list ascii :=
  match s with
  | "-"%char :: s' => (true, s')
  | "+"%char :: s' => (false, s')
  | _ => (false, s)
  end.

(** The longest run of digits at the front: their value after [acc], their
    number after [n], and the rest. *)
Fixpoint parse_digits (acc n : Z) (s : list ascii) : Z * Z * list ascii :=
  match s with
  | c :: s' =>
      if is_digit c then parse_digits (acc * 10 + digit_value c) (n + 1) s'
      else (acc, n, s)
  | [] => (acc, n, s)
  end.

(** [_Py_parse_inf_or_nan] on text that must be used up. *)
Definition parse_inf_or_nan (s : list ascii) : option binary64 :=
  let (negate, s1) := parse_sign s in
  let word := string_of_list_ascii (map lower s1) in
  if String.eqb word "inf" || String.eqb word "infinity"
  then Some (S754_infinity negate)
  else if String.eqb word "nan" then Some S754_nan
  else None.

(** [_Py_dg_strtod] on text that must be used up: a sign, digits with at
    most one point and at least one digit, and an exponent when digits
    follow [e]. *)
Definition strtod (s : list ascii) : option binary64 :=
  let (sign, s1) := parse_sign s in
  let '(ip, n_int, s2) := parse_digits 0 0 s1 in
  let '(d, n_frac, s3) :=
    match s2 with
    | "."%char :: s2' => parse_digits ip 0 s2'
    | _ => (ip, 0, s2)
    end in
  if n_int + n_frac =? 0 then None
  else
    match s3 with
    | [] => Some (decimal_to_float sign d (- n_frac))
    | e :: s4 =>
        if Ascii.eqb (lower e) "e" then
          let (esign, s5) := parse_sign s4 in
          let '(ev, n_exp, s6) := parse_digits 0 0 s5 in
          match s6 with
          | [] =>
              if n_exp =? 0 then None
              else Some (decimal_to_float sign d (cond_Zopp esign ev - n_frac))
          | _ :: _ => None
          end
        else None
    end.

(** [float(s)] for a string [s] ([PyFloat_FromString]); [None] is
    [ValueError]. *)
Definition float_from_string (s : string) : option binary64 :=
  match remove_underscores "000"
          (TransformDecimalAndSpaceToASCII (list_ascii_of_string s)) with
  | None => None
  | Some t =>
      let t' := rev (dropwhile isspace (rev (dropwhile isspace t))) in
      match strtod t' with
      | Some v => Some v
      | None => parse_inf_or_nan t'
      end
  end.

(** **** [repr] *)

(** [num / den * 10 ** p] as a fraction. *)
Definition scale10 (num den p : Z) : Z * Z :=
  if 0 <=? p then (num * 10 ^ p, den) else (num, den * 10 ^ (- p)).

(** The decimal point of a positive fraction: the [k] with
    [10 ** (k - 1) <= num / den < 10 ** k]. *)
Definition decimal_point (num den : Z) : Z :=
  let k0 := decimal_length num - decimal_length den in
  let (a, b) := scale10 num den (- k0) in
  if b <=? a then k0 + 1 else k0.

(** The shortest digits that read back as the float [m * 2 ** e = num / den]
    and, among those, the nearest to it: the two neighbours with [n] digits
    are tried for [n] = 1, 2, ... up to 17.  The result is the digits as a
    number and the exponent of ten they are scaled by. *)
Fixpoint shortest_digits (fuel : nat) (n : Z) (m : positive) (e k num den : Z)
  : Z * Z :=
  let (a, b) := scale10 num den (n - k) in
  let (q, r) := Z.div_eucl a b in
  let reads d :=
    match decimal_to_float false d (k - n) with
    | S754_finite _ m' e' => Pos.eqb m' m && (e' =? e)
    | _ => false
    end in
  match fuel with
  | O => (q, k - n)
  | S fuel' =>
      if r =? 0 then (q, k - n)
      else
        let lo := reads q in
        let hi := reads (q + 1) in
        if lo && hi then
          match 2 * r ?= b with
          | Lt => (q, k - n)
          | Gt => (q + 1, k - n)
          | Eq => if Z.even q then (q, k - n) else (q + 1, k - n)
          end
        else if lo then (q, k - n)
        else if hi then (q + 1, k - n)
        else shortest_digits fuel' (n + 1) m e k num den
  end.

(** Trailing zeros go to the exponent. *)
Fixpoint strip_zeros (fuel : nat) (d e10 : Z) : Z * Z :=
  match fuel with
  | O => (d, e10)
  | S fuel' =>
      if (d mod 10 =? 0) && negb (d =? 0) then strip_zeros fuel' (d / 10) (e10 + 1)
      else (d, e10)
  end.

Definition digits_string (d : Z) : string :=
  NilEmpty.string_of_uint (N.to_uint (Z.to_N d)).

Fixpoint zeros (n : nat) : string :=
  match n with O => EmptyString | S n' => String "0" (zeros n') end.

(** [repr] of a positive finite float from its digits and its decimal
    point: exponent notation when the point is at [-4] or left of it, or
    right of [16]; otherwise the digits with the point in place, and [.0]
    after a whole number. *)
Definition format_digits (digits : string) (decpt : Z) : string :=
  let nd := Z.of_nat (String.length digits) in
  if (decpt <=? -4) || (16 <? decpt) then
    let mant :=
      match digits with
      | String c (String _ _ as rest) => String c (String "." rest)
      | _ => digits
      end in
    let ex := decpt - 1 in
    let sign := if ex <? 0 then "-"%string else "+"%string in
    let pad := if Z.abs ex <? 10 then "0"%string else ""%string in
    (mant ++ "e" ++ sign ++ pad ++ digits_string (Z.abs ex))%string
  else if decpt <=? 0 then
    ("0." ++ zeros (Z.to_nat (- decpt)) ++ digits)%string
  else if nd <=? decpt then
    (digits ++ zeros (Z.to_nat (decpt - nd)) ++ ".0")%string
  else
    (substring 0 (Z.to_nat decpt) digits ++ "."
       ++ substring (Z.to_nat decpt) (Z.to_nat (nd - decpt)) digits)%string.

(** [repr(v)], which is also [str(v)] and the text of [v] in an f-string. *)
Definition float_repr (v : binary64) : string :=
  match v with
  | S754_nan => "nan"%string
  | S754_infinity s => if s then "-inf"%string else "inf"%string
  | S754_zero s => if s then "-0.0"%string else "0.0"%string
  | S754_finite s m e =>
      let (num, den) :=
        if 0 <=? e then (Zpos m * 2 ^ e, 1) else (Zpos m, 2 ^ (- e)) in
      let k := decimal_point num den in
      let (d, e10) := shortest_digits 17 1 m e k num den in
      let (d', e10') := strip_zeros 17 d e10 in
      let digits := digits_string d' in
      let decpt := e10' + Z.of_nat (String.length digits) in
      let sign := if s then "-"%string else ""%string in
      (sign ++ format_digits digits decpt)%string
  end.

#[global] Instance binary64_FloatText : FloatText binary64 := {
  float_of_text := float_from_string;
  format_float := float_repr
}.

(** [==] on floats: NaN equals nothing, the two zeros are equal. *)
#[global] Instance binary64_FloatCompare : FloatCompare binary64 :=
  SFeqb.

(** *** The database

    [models.py] is not among the sources: the tables are modelled from the
    spec.  A table is the list of its rows, each with its primary key; the
    columns are those the serializers read or write.  What the models fix
    besides (column defaults, whether a Location may have no coordinates,
    password hashing, the UUIDs drawn for new rows) is a parameter,
    [Schema]. *)

(** Modelled from the spec: what [models.py] fixes and the spec leaves open. *)
Class Schema := {
  coordinates_null : bool;
  address_default : string;
  device_is_active_default : bool;
  device_fails_count_default : Z;
  profile_text_default : string;
  chat_subject_default : string;
  make_password : string -> string;
  uuid4 : nat -> UUID
}.

Section Models.
Context {F : Type} {F_eq : FloatEq F}.

(** [django.contrib.gis.geos.Point(x, y)]. *)
Record Point : Type := mkPoint { x : F; y : F }.

Definition Point_eq_dec (p q : Point) : {p = q} + {p <> q}.
Proof. decide equality; apply float_eq_dec. Defined.

Definition coords_eq_dec (p q : option Point) : {p = q} + {p <> q}.
Proof. decide equality; apply Point_eq_dec. Defined.

(** Modelled from the spec: the Location model, a coordinate (none when the
    column is NULL) and an address. *)
Record LocationRow : Type := mkLocation {
  location_pk : nat;
  coordinates : option Point;
  address : string
}.

(** Modelled from the spec: the Profile model, one per Account, with its
    identifier, its texts and an optional Location. *)
Record ProfileRow : Type := mkProfile {
  profile_pk : nat;
  profile_uuid : UUID;
  profile_user : nat;
  full_name : string;
  about : string;
  avatar : string;
  profile_location : option nat
}.

(** Modelled from the spec: the Device model, keyed by its device-binding
    token, with its active flag and failure counter. *)
Record DeviceRow : Type := mkDevice {
  device_pk : nat;
  fcm_id : string;
  is_active : bool;
  fails_count : Z
}.

(** Modelled from the spec: the Account model, bound to one Device. *)
Record UserRow : Type := mkUser {
  user_pk : nat;
  email : string;
  password : string;
  user_device : nat
}.

(** Modelled from the spec: a node of the category tree, with its parent. *)
Record CategoryRow : Type := mkCategory {
  category_pk : nat;
  category_name : string;
  category_parent : option nat
}.

(** Modelled from the spec: the Listing model, with the fields its serializer
    writes, its Location and its seller. *)
Record ListingRow : Type := mkListing {
  listing_pk : nat;
  listing_uuid : UUID;
  title : string;
  description : string;
  price : Z;
  listing_category : nat;
  quantity : Z;
  condition_new : bool;
  listing_location : nat;
  seller : nat
}.

(** Modelled from the spec: the Chat model, between a creator and an
    interlocutor about one Listing. *)
Record ChatRow : Type := mkChat {
  chat_pk : nat;
  creator : nat;
  interlocutor : nat;
  chat_listing : nat;
  subject : string
}.

Record DB : Type := mkDB {
  locations : list LocationRow;
  profiles : list ProfileRow;
  devices : list DeviceRow;
  users : list UserRow;
  categories : list CategoryRow;
  listings : list ListingRow;
  chats : list ChatRow
}.

Definition empty_DB : DB := mkDB [] [] [] [] [] [] [].

Definition set_locations (db : DB) (l : list LocationRow) : DB :=
  mkDB l (profiles db) (devices db) (users db) (categories db) (listings db) (chats db).
Definition set_profiles (db : DB) (l : list ProfileRow) : DB :=
  mkDB (locations db) l (devices db) (users db) (categories db) (listings db) (chats db).
Definition set_devices (db : DB) (l : list DeviceRow) : DB :=
  mkDB (locations db) (profiles db) l (users db) (categories db) (listings db) (chats db).
Definition set_users (db : DB) (l : list UserRow) : DB :=
  mkDB (locations db) (profiles db) (devices db) l (categories db) (listings db) (chats db).
Definition set_listings (db : DB) (l : list ListingRow) : DB :=
  mkDB (locations db) (profiles db) (devices db) (users db) (categories db) l (chats db).
Definition set_chats (db : DB) (l : list ChatRow) : DB :=
  mkDB (locations db) (profiles db) (devices db) (users db) (categories db) (listings db) l.

(** *** Code that runs against the database *)

Definition M (A : Type) : Type := DB -> result A * DB.

Definition ret {A} (a : A) : M A := fun db => (Ok a, db).

Definition raise {A} (e : exn) : M A := fun db => (Raise e, db).

Definition bind {A B} (m : M A) (k : A -> M B) : M B :=
  fun db =>
    match m db with
    | (Ok a, db') => k a db'
    | (Raise e, db') => (Raise e, db')
    end.

Definition lift {A} (r : result A) : M A := fun db => (r, db).

(** [with transaction.atomic(): body]: an exception undoes the writes. *)
Definition atomic {A} (body : M A) : M A :=
  fun db =>
    match body db with
    | (Ok a, db') => (Ok a, db')
    | (Raise e, _) => (Raise e, db)
    end.

End Models.

Arguments Point F : clear implicits.
Arguments LocationRow F : clear implicits.
Arguments DB F : clear implicits.
Arguments M F A : clear implicits.

Notation "x <- m ;; k" := (bind m (fun x => k))
  (at level 61, m at next level, right associativity).
Notation "m ;;; k" := (bind m (fun _ => k))
  (at level 61, right associativity).

Section ORM.
Context {R : Type} (pk : R -> nat).

(** [Model.objects.get(...)]: the one row matching, or an exception. *)
Definition objects_get (matches : R -> bool) (rows : list R) : result R :=
  match filter matches rows with
  | [] => Raise DoesNotExist
  | [r] => Ok r
  | _ :: _ :: _ => Raise MultipleObjectsReturned
  end.

(** The key an INSERT gives a new row. *)
Definition next_pk (rows : list R) : nat :=
  S (fold_right Nat.max 0%nat (map pk rows)).

(** [instance.save()]: UPDATE the row with this key, INSERT when there is
    none. *)
Definition save_row (r : R) (rows : list R) : list R :=
  if existsb (fun r' => (pk r' =? pk r)%nat) rows
  then map (fun r' => if (pk r' =? pk r)%nat then r else r') rows
  else rows ++ [r].

(** Following a foreign key. *)
Definition by_pk (k : nat) (rows : list R) : option R :=
  find (fun r => (pk r =? k)%nat) rows.

End ORM.

(** Whether a character occurs in a string. *)
Fixpoint contains (c : ascii) (s : string) : bool :=
  match s with
  | EmptyString => false
  | String d s' => Ascii.eqb d c || contains c s'
  end.

(** *** The serializers *)

Section Serializers.
Context {F : Type} {F_eq : FloatEq F} {F_text : FloatText F} {schema : Schema}.

(** **** PointField *)

Definition PointField_message : string :=
  "Required format: 'latitude, longitude'.".

Definition PointField_to_representation (point : Point F) : string :=
  (format_float (x point) ++ ", " ++ format_float (y point))%string.

Definition PointField_to_internal_value (coordinates : string) : result (Point F) :=
  try_except_raise
    (match unpack2 py_float (split "," coordinates) with
     | Ok (x, y) => Ok (mkPoint x y)
     | Raise e => Raise e
     end)
    is_ValueError_or_TypeError (ValidationError PointField_message).

(** A key of the validated data is assigned when present. *)
Definition or_current {A} (new : option A) (current : A) : A :=
  match new with Some a => a | None => current end.

(** **** Location *)

(** The validated data of a Location: each key is present or not. *)
Record LocationData : Type := mkLocationData {
  data_coordinates : option (Point F);
  data_address : option string
}.

(** An empty mapping is false, any other is true. *)
Definition LocationData_truthy (d : LocationData) : bool :=
  match data_coordinates d, data_address d with
  | None, None => false
  | _, _ => true
  end.

(** [validated_data.pop('coordinates', ...)]: what is left. *)
Definition pop_coordinates (d : LocationData) : LocationData :=
  mkLocationData None (data_address d).

Definition Location_save (l : LocationRow F) : M F unit :=
  fun db => (Ok tt, set_locations db (save_row location_pk l (locations db))).

(** The lookup [coordinates=coords]. *)
Definition coordinates_match (coords : option (Point F)) (l : LocationRow F) : bool :=
  if coords_eq_dec (coordinates l) coords then true else false.

(** [models.Location.objects.get_or_create(coordinates=coords)]. *)
Definition Location_get_or_create (coords : option (Point F))
  : M F (LocationRow F * bool) :=
  fun db =>
    match objects_get (coordinates_match coords) (locations db) with
    | Ok l => (Ok (l, false), db)
    | Raise e =>
        if is_DoesNotExist e then
          match coords with
          | None =>
              if coordinates_null then
                let l := mkLocation (next_pk location_pk (locations db)) None
                           address_default in
                (Ok (l, true), set_locations db (locations db ++ [l]))
              else (Raise IntegrityError, db)
          | Some _ =>
              let l := mkLocation (next_pk location_pk (locations db)) coords
                         address_default in
              (Ok (l, true), set_locations db (locations db ++ [l]))
          end
        else (Raise e, db)
    end.

(** [ModelSerializer.update] on a Location: every key present is assigned,
    then the instance is saved. *)
Definition Location_super_update (location : LocationRow F)
  (validated_data : LocationData) : M F (LocationRow F) :=
  let location :=
    mkLocation (location_pk location)
      (match data_coordinates validated_data with
       | Some c => Some c
       | None => coordinates location
       end)
      (or_current (data_address validated_data) (address location)) in
  Location_save location ;;;
  ret location.

Definition Location_create (validated_data : LocationData) : M F (LocationRow F) :=
  match data_coordinates validated_data with
  | None => raise KeyError
  | Some coords =>
      let validated_data := pop_coordinates validated_data in
      r <- Location_get_or_create (Some coords) ;;
      let location := fst r in
      Location_super_update location validated_data
  end.

Definition Location_update (location : LocationRow F)
  (validated_data : LocationData) : M F (LocationRow F) :=
  let coords := data_coordinates validated_data in
  let validated_data := pop_coordinates validated_data in
  location <-
    (if coords_eq_dec (coordinates location) coords then ret location
     else r <- Location_get_or_create coords ;; ret (fst r)) ;;
  Location_super_update location validated_data.

(** A run of Location operations, as the serializers of Profile and Listing
    issue them: a [create], or an [update] of the Location stored under a
    key. *)
Inductive LocationOp : Type :=
| OpCreate (validated_data : LocationData)
| OpUpdate (k : nat) (validated_data : LocationData).

Definition run_op (op : LocationOp) : M F (LocationRow F) :=
  match op with
  | OpCreate d => Location_create d
  | OpUpdate k d =>
      fun db =>
        match by_pk location_pk k (locations db) with
        | Some l => Location_update l d db
        | None => (Raise DoesNotExist, db)
        end
  end.

Fixpoint run_ops (ops : list LocationOp) (db : DB F) : DB F :=
  match ops with
  | [] => db
  | op :: ops' => run_ops ops' (snd (run_op op db))
  end.

(** The row an INSERT adds for new coordinates. *)
Definition Location_new (db : DB F) (coords : option (Point F)) : LocationRow F :=
  mkLocation (next_pk location_pk (locations db)) coords address_default.

(** The common part of [create] and [update]: find or create the row with
    the coordinates, then assign the remaining keys. *)
Definition find_and_assign (coords : option (Point F)) (d : LocationData)
  : M F (LocationRow F) :=
  r <- Location_get_or_create coords ;;
  Location_super_update (fst r) (pop_coordinates d).

(** The key and the coordinates of a row, and the invariant of the table:
    no key and no coordinates occur twice. *)
Definition location_key (l : LocationRow F) : nat * option (Point F) :=
  (location_pk l, coordinates l).

Definition Location_inv (locs : list (LocationRow F)) : Prop :=
  NoDup (map location_pk locs) /\ NoDup (map coordinates locs).

(** **** Profile *)

Record ProfileData : Type := mkProfileData {
  data_full_name : option string;
  data_about : option string;
  data_avatar : option string;
  data_profile_location : option LocationData
}.

Definition Profile_save (p : ProfileRow) : M F unit :=
  fun db => (Ok tt, set_profiles db (save_row profile_pk p (profiles db))).

(** [profile.location]: the related Location, [None] without one. *)
Definition Profile_location (profile : ProfileRow) : M F (option (LocationRow F)) :=
  fun db =>
    match profile_location profile with
    | None => (Ok None, db)
    | Some k =>
        match by_pk location_pk k (locations db) with
        | Some l => (Ok (Some l), db)
        | None => (Raise DoesNotExist, db)
        end
    end.

Definition set_profile_location (p : ProfileRow) (l : option nat) : ProfileRow :=
  mkProfile (profile_pk p) (profile_uuid p) (profile_user p) (full_name p)
    (about p) (avatar p) l.

Definition set_full_name (p : ProfileRow) (n : string) : ProfileRow :=
  mkProfile (profile_pk p) (profile_uuid p) (profile_user p) n
    (about p) (avatar p) (profile_location p).

(** [ModelSerializer.update] on a Profile, the location key popped. *)
Definition Profile_super_update (profile : ProfileRow)
  (validated_data : ProfileData) : M F ProfileRow :=
  let profile :=
    mkProfile (profile_pk profile) (profile_uuid profile) (profile_user profile)
      (or_current (data_full_name validated_data) (full_name profile))
      (or_current (data_about validated_data) (about profile))
      (or_current (data_avatar validated_data) (avatar profile))
      (profile_location profile) in
  Profile_save profile ;;;
  ret profile.

Definition Profile_update (profile : ProfileRow) (validated_data : ProfileData)
  : M F ProfileRow :=
  profile <-
    match data_profile_location validated_data with
    | Some location_data =>
        if LocationData_truthy location_data then
          current <- Profile_location profile ;;
          match current with
          | None => raise AttributeError
          | Some current =>
              l <- Location_update current location_data ;;
              ret (set_profile_location profile (Some (location_pk l)))
          end
        else ret profile
    | None => ret profile
    end ;;
  Profile_super_update profile validated_data.

(** **** User *)

Record UserData : Type := mkUserData {
  data_user_full_name : string;
  data_email : string;
  data_password : string;
  data_fcm_id : string
}.

Definition Device_save (d : DeviceRow) : M F unit :=
  fun db => (Ok tt, set_devices db (save_row device_pk d (devices db))).

(** [models.Device.objects.get_or_create(fcm_id=fcm_id)]. *)
Definition Device_get_or_create (token : string) : M F (DeviceRow * bool) :=
  fun db =>
    match objects_get (fun d => String.eqb (fcm_id d) token) (devices db) with
    | Ok d => (Ok (d, false), db)
    | Raise e =>
        if is_DoesNotExist e then
          let d := mkDevice (next_pk device_pk (devices db)) token
                     device_is_active_default device_fails_count_default in
          (Ok (d, true), set_devices db (devices db ++ [d]))
        else (Raise e, db)
    end.

(** [device.owner]: the Account whose device this is. *)
Definition Device_owner (d : DeviceRow) : M F UserRow :=
  fun db =>
    match find (fun u => (user_device u =? device_pk d)%nat) (users db) with
    | Some u => (Ok u, db)
    | None => (Raise RelatedObjectDoesNotExist, db)
    end.

(** [user.profile]: the Profile of an Account. *)
Definition User_profile (u : UserRow) : M F ProfileRow :=
  fun db =>
    match find (fun p => (profile_user p =? user_pk u)%nat) (profiles db) with
    | Some p => (Ok p, db)
    | None => (Raise RelatedObjectDoesNotExist, db)
    end.

(** Modelled from the spec: [models.User.objects.create_user] is not among
    the sources.  It inserts the Account with the fields given, bound to the
    device, and its Profile is created alongside it. *)
Definition create_user (device : DeviceRow) (mail pass : string) : M F UserRow :=
  fun db =>
    let u := mkUser (next_pk user_pk (users db)) mail (make_password pass)
               (device_pk device) in
    let k := next_pk profile_pk (profiles db) in
    let p := mkProfile k (uuid4 k) (user_pk u) profile_text_default
               profile_text_default profile_text_default None in
    (Ok u, set_profiles (set_users db (users db ++ [u])) (profiles db ++ [p])).

Definition User_create (validated_data : UserData) : M F UserRow :=
  let token := data_fcm_id validated_data in
  let name := data_user_full_name validated_data in
  atomic
    (r <- Device_get_or_create token ;;
     let device := fst r in
     let created := snd r in
     if negb created then
       let device := mkDevice (device_pk device) (fcm_id device) true 0 in
       Device_save device ;;;
       Device_owner device
     else
       user <- create_user device (data_email validated_data)
                 (data_password validated_data) ;;
       profile <- User_profile user ;;
       Profile_save (set_full_name profile name) ;;;
       ret user).

(** **** CategoryField *)

(** Modelled from the spec: a category is a leaf when no category has it as
    parent. *)
Definition is_leaf_node (c : CategoryRow) (rows : list CategoryRow) : bool :=
  negb (existsb (fun c' => match category_parent c' with
                           | Some k => (k =? category_pk c)%nat
                           | None => false
                           end) rows).

Definition CategoryField_to_representation (category : CategoryRow) : string :=
  category_name category.

Definition CategoryField_to_internal_value (name : string) : M F CategoryRow :=
  fun db =>
    match try_except_raise
            (objects_get (fun c => String.eqb (category_name c) name)
               (categories db))
            is_DoesNotExist (ValidationError "Category doesn't exist.") with
    | Raise e => (Raise e, db)
    | Ok category =>
        if negb (is_leaf_node category (categories db))
        then (Raise (ValidationError "Category should be at lowest level."), db)
        else (Ok category, db)
    end.

(** **** Listing *)

Record ListingData : Type := mkListingData {
  data_title : option string;
  data_description : option string;
  data_price : option Z;
  data_category : option nat;
  data_quantity : option Z;
  data_condition_new : option bool;
  data_listing_location : option LocationData
}.

Definition Listing_save (l : ListingRow) : M F unit :=
  fun db => (Ok tt, set_listings db (save_row listing_pk l (listings db))).

(** [listing.location]: the related Location. *)
Definition Listing_location (listing : ListingRow) : M F (LocationRow F) :=
  fun db =>
    match by_pk location_pk (listing_location listing) (locations db) with
    | Some l => (Ok l, db)
    | None => (Raise DoesNotExist, db)
    end.

Definition set_listing_location (l : ListingRow) (k : nat) : ListingRow :=
  mkListing (listing_pk l) (listing_uuid l) (title l) (description l) (price l)
    (listing_category l) (quantity l) (condition_new l) k (seller l).

(** [ModelSerializer.update] on a Listing, the location key popped. *)
Definition Listing_super_update (listing : ListingRow)
  (validated_data : ListingData) : M F ListingRow :=
  let listing :=
    mkListing (listing_pk listing) (listing_uuid listing)
      (or_current (data_title validated_data) (title listing))
      (or_current (data_description validated_data) (description listing))
      (or_current (data_price validated_data) (price listing))
      (or_current (data_category validated_data) (listing_category listing))
      (or_current (data_quantity validated_data) (quantity listing))
      (or_current (data_condition_new validated_data) (condition_new listing))
      (listing_location listing) (seller listing) in
  Listing_save listing ;;;
  ret listing.

Definition Listing_update (listing : ListingRow) (validated_data : ListingData)
  : M F ListingRow :=
  listing <-
    match data_listing_location validated_data with
    | Some location_data =>
        if LocationData_truthy location_data then
          current <- Listing_location listing ;;
          l <- Location_update current location_data ;;
          ret (set_listing_location listing (location_pk l))
        else ret listing
    | None => ret listing
    end ;;
  Listing_super_update listing validated_data.

(** **** Chat *)

Record ChatData : Type := mkChatData {
  to_uuid : UUID;
  data_listing_uuid : UUID
}.

(** [get_object_or_404(Model, ...)]. *)
Definition get_object_or_404 {R} (matches : R -> bool) (rows : list R) : result R :=
  try_except_raise (objects_get matches rows) is_DoesNotExist Http404.

Definition Chat_save (c : ChatRow) : M F unit :=
  fun db => (Ok tt, set_chats db (save_row chat_pk c (chats db))).

Definition Chat_matches (creator_pk to_user listing : nat) (c : ChatRow) : bool :=
  (creator c =? creator_pk)%nat && (interlocutor c =? to_user)%nat
  && (chat_listing c =? listing)%nat.

(** [models.Chat.objects.get_or_create(creator=..., interlocutor=...,
    listing=...)]. *)
Definition Chat_get_or_create (creator_pk to_user listing : nat)
  : M F (ChatRow * bool) :=
  fun db =>
    match objects_get (Chat_matches creator_pk to_user listing) (chats db) with
    | Ok c => (Ok (c, false), db)
    | Raise e =>
        if is_DoesNotExist e then
          let c := mkChat (next_pk chat_pk (chats db)) creator_pk to_user
                     listing chat_subject_default in
          (Ok (c, true), set_chats db (chats db ++ [c]))
        else (Raise e, db)
    end.

(** [request_user] is [self.context['request'].user], by its key. *)
Definition Chat_create (request_user : nat) (val_data : ChatData) : M F ChatRow :=
  let creator_pk := request_user in
  profile <- (fun db => (get_object_or_404
                (fun p => profile_uuid p =? to_uuid val_data) (profiles db), db)) ;;
  let to_user := profile_user profile in
  listing <- (fun db => (get_object_or_404
                (fun l => listing_uuid l =? data_listing_uuid val_data)
                (listings db), db)) ;;
  r <- Chat_get_or_create creator_pk to_user (listing_pk listing) ;;
  let chat := fst r in
  let created := snd r in
  if created then
    let chat := mkChat (chat_pk chat) (creator chat) (interlocutor chat)
                  (chat_listing chat) (title listing) in
    Chat_save chat ;;;
    ret chat
  else ret chat.

End Serializers.

Arguments LocationData F : clear implicits.
Arguments LocationOp F : clear implicits.
Arguments ProfileData F : clear implicits.
Arguments ListingData F : clear implicits.

(** A coordinate string is malformed when it does not split into exactly
    two tokens or when [float] refuses one of its tokens. *)
Definition malformed_coordinates {F} `{FloatText F} (s : string) : bool :=
  let tokens := split "," s in
  negb (List.length tokens =? 2)%nat
  || existsb (fun t => match py_float t with Ok _ => false | Raise _ => true end)
       tokens.

(** [p == q] on Points: the coordinates are equal floats. *)
Definition Point_eqb {F} `{FloatCompare F} (p q : Point F) : bool :=
  float_eqb (x p) (x q) && float_eqb (y p) (y q).

(** [parse(render(point)) == point]. *)
Definition PointField_roundtrips {F} `{FloatText F} `{FloatCompare F}
  (point : Point F) : bool :=
  match PointField_to_internal_value (PointField_to_representation point) with
  | Ok p => Point_eqb p point
  | Raise _ => false
  end.

(** A float reads back: its text has no comma, and [float] reads the text as
    a float equal to it. *)
Definition reads_back {F} `{FloatText F} `{FloatCompare F} (v : F) : bool :=
  negb (contains "," (format_float v))
  && match py_float (format_float v) with
     | Ok v' => float_eqb v' v
     | Raise _ => false
     end.

(** *** The serializers, continued: Listing.create, Message and the read
    fields of Chat *)

(** Modelled from the spec: what a new Listing has in the columns that the
    validated data does not give: the defaults of [models.Listing] and the
    seller the caller saves it with. *)
Class ListingDefaults := {
  listing_title_default : string;
  listing_description_default : string;
  listing_price_default : Z;
  listing_category_default : nat;
  listing_quantity_default : Z;
  listing_condition_new_default : bool;
  listing_seller_default : nat
}.

(** Modelled from the spec: the Message model: a text in one Chat, by an
    author, at a time, read or not. *)
Record MessageRow : Type := mkMessage {
  message_pk : nat;
  message_chat : nat;
  author : nat;
  text : string;
  timestamp : Z;
  read : bool
}.

(** What the Message serializer renders: its four fields. *)
Record MessageData : Type := mkMessageData {
  data_is_yours : bool;
  data_text : string;
  data_timestamp : Z;
  data_read : bool
}.

(** [try: body  except <caught>: return default]. *)
Definition try_except_return {A} (body : result A) (caught : exn -> bool)
  (default : A) : result A :=
  match body with
  | Ok a => Ok a
  | Raise e => if caught e then Ok default else Raise e
  end.

(** [queryset.latest('timestamp')]: a row with the greatest timestamp (the
    first such in table order), [DoesNotExist] on an empty set. *)
Fixpoint latest (rows : list MessageRow) : result MessageRow :=
  match rows with
  | [] => Raise DoesNotExist
  | m :: rest =>
      match latest rest with
      | Ok m' => if timestamp m <? timestamp m' then Ok m' else Ok m
      | Raise _ => Ok m
      end
  end.

(** [Message.get_is_yours]: the viewer is the author. *)
Definition Message_get_is_yours (request_user : nat) (message_object : MessageRow)
  : bool :=
  (request_user =? author message_object)%nat.

(** [Message(message, context).data]. *)
Definition Message_to_representation (request_user : nat) (m : MessageRow)
  : MessageData :=
  mkMessageData (Message_get_is_yours request_user m) (text m) (timestamp m)
    (read m).

(** [chat_object.messages]: the messages of a Chat. *)
Definition Chat_messages (chat_object : ChatRow) (messages : list MessageRow)
  : list MessageRow :=
  filter (fun m => (message_chat m =? chat_pk chat_object)%nat) messages.

(** [Chat.get_latest_message]: the rendering of the latest message, [None]
    when the Chat has none. *)
Definition Chat_get_latest_message (request_user : nat) (chat_object : ChatRow)
  (messages : list MessageRow) : result (option MessageData) :=
  try_except_return
    (match latest (Chat_messages chat_object messages) with
     | Ok latest_message =>
         Ok (Some (Message_to_representation request_user latest_message))
     | Raise e => Raise e
     end)
    is_DoesNotExist None.

Section MoreSerializers.
Context {F : Type} {F_eq : FloatEq F} {schema : Schema}
  {listing_defaults : ListingDefaults}.

(** Modelled from the spec: [models.Listing.objects.create(location=...,
    **validated_data)]: a row with a new key and identifier, the fields
    given, and the model's defaults for the others. *)
Definition Listing_objects_create (location : LocationRow F)
  (validated_data : ListingData F) : M F ListingRow :=
  fun db =>
    let k := next_pk listing_pk (listings db) in
    let l :=
      mkListing k (uuid4 k)
        (or_current (data_title validated_data) listing_title_default)
        (or_current (data_description validated_data) listing_description_default)
        (or_current (data_price validated_data) listing_price_default)
        (or_current (data_category validated_data) listing_category_default)
        (or_current (data_quantity validated_data) listing_quantity_default)
        (or_current (data_condition_new validated_data)
           listing_condition_new_default)
        (location_pk location) listing_seller_default in
    (Ok l, set_listings db (listings db ++ [l])).

Definition Listing_create (validated_data : ListingData F) : M F ListingRow :=
  atomic
    (match data_listing_location validated_data with
     | None => raise KeyError
     | Some location_data =>
         location <- Location_create location_data ;;
         Listing_objects_create location validated_data
     end).

(** [chat_object.creator] and [chat_object.interlocutor]: the Account under
    the key stored in the Chat. *)
Definition related_user (k : nat) : M F UserRow :=
  fun db =>
    match by_pk user_pk k (users db) with
    | Some u => (Ok u, db)
    | None => (Raise DoesNotExist, db)
    end.

(** [Chat.get_interlocutor]: the Profile that is rendered, the creator's for
    a viewer who is not the creator, the interlocutor's for the creator. *)
Definition Chat_get_interlocutor (request_user : nat) (chat_object : ChatRow)
  : M F ProfileRow :=
  if negb (request_user =? creator chat_object)%nat then
    u <- related_user (creator chat_object) ;;
    User_profile u
  else
    u <- related_user (interlocutor chat_object) ;;
    User_profile u.

(** What the tables of Devices, Accounts and Profiles satisfy between calls:
    keys and tokens of Devices occur once, every Account has its Device and
    every Profile its Account. *)
Definition User_inv (db : DB F) : Prop :=
  NoDup (map device_pk (devices db))
  /\ NoDup (map fcm_id (devices db))
  /\ (forall u, In u (users db) ->
                exists d, In d (devices db) /\ device_pk d = user_device u)
  /\ (forall p, In p (profiles db) ->
                exists u, In u (users db) /\ user_pk u = profile_user p).

(** What the table of Chats satisfies between calls: keys occur once and no
    triple (creator, interlocutor, listing) has two Chats. *)
Definition Chat_inv (rows : list ChatRow) : Prop :=
  NoDup (map chat_pk rows)
  /\ forall a b l, (List.length (filter (Chat_matches a b l) rows) <= 1)%nat.

End MoreSerializers.

(** *** Sample data

    The serializers that store Locations only compare coordinates; their
    samples take whole numbers for them.  Two schemas differ in whether a
    Location may lack coordinates. *)

#[global] Instance Z_FloatEq : FloatEq Z := Z.eq_dec.

Definition schema_not_null : Schema := {|
  coordinates_null := false;
  address_default := "";
  device_is_active_default := true;
  device_fails_count_default := 0;
  profile_text_default := "";
  chat_subject_default := "";
  make_password := fun raw => ("hashed:" ++ raw)%string;
  uuid4 := fun n => Z.of_nat n
|}.

Definition schema_null : Schema := {|
  coordinates_null := true;
  address_default := "";
  device_is_active_default := true;
  device_fails_count_default := 0;
  profile_text_default := "";
  chat_subject_default := "";
  make_password := fun raw => ("hashed:" ++ raw)%string;
  uuid4 := fun n => Z.of_nat n
|}.

Definition sample_listing_defaults : ListingDefaults := {|
  listing_title_default := "";
  listing_description_default := "";
  listing_price_default := 0;
  listing_category_default := 1;
  listing_quantity_default := 1;
  listing_condition_new_default := false;
  listing_seller_default := 1
|}.

(** *** Finite ranges, for checks by enumeration *)

Definition zrange (n : nat) : list Z := map Z.of_nat (seq 0 n).

Definition forall_below (n : nat) (p : Z -> bool) : bool := forallb p (zrange n).

(** ** Part II: properties *)

Example encode_sample :
  Base64UUIDField_to_representation 0x00112233445566778899aabbccddeeff
  = "ABEiM0RVZneImaq7zN3u_w"%string.
Proof. reflexivity. Qed.

Example decode_sample :
  Base64UUIDField_to_internal_value (DataText "ABEiM0RVZneImaq7zN3u_w")
  = Ok 0x00112233445566778899aabbccddeeff.
Proof. reflexivity. Qed.

Example decode_garbled :
  Base64UUIDField_to_internal_value (DataText "abc") = Raise NotFound.
Proof. reflexivity. Qed.

(** *** Enumeration over a finite range *)

Lemma zrange_In (n : nat) (z : Z) : 0 <= z < Z.of_nat n -> In z (zrange n).
Proof.
  intros Hz. unfold zrange. apply in_map_iff.
  exists (Z.to_nat z). split; [lia|]. apply in_seq. lia.
Qed.

Lemma forall_below_spec (n : nat) (p : Z -> bool) :
  forall_below n p = true -> forall z, 0 <= z < Z.of_nat n -> p z = true.
Proof.
  unfold forall_below. intros H z Hz.
  rewrite forallb_forall in H. apply H, zrange_In, Hz.
Qed.

Lemma forall_below2_spec (n m : nat) (p : Z -> Z -> bool) :
  forall_below n (fun a => forall_below m (p a)) = true ->
  forall a b, 0 <= a < Z.of_nat n -> 0 <= b < Z.of_nat m -> p a b = true.
Proof.
  intros H a b Ha Hb.
  apply (forall_below_spec m (p a)); [|exact Hb].
  apply (forall_below_spec n (fun a => forall_below m (p a))); assumption.
Qed.

(** *** The base64 digits *)

Lemma digit_facts (n : Z) :
  0 <= n < 64 ->
  Ascii.eqb (dec_char (enc_char n)) BASE64_PAD = false
  /\ table_a2b_base64 (dec_char (enc_char n)) = Some n
  /\ mem_ascii (enc_char n) strip_set = false
  /\ url_unreserved (enc_char n) = true.
Proof.
  intros Hn.
  pose (p := fun n =>
    negb (Ascii.eqb (dec_char (enc_char n)) BASE64_PAD)
    && match table_a2b_base64 (dec_char (enc_char n)) with
       | Some m => m =? n | None => false end
    && negb (mem_ascii (enc_char n) strip_set)
    && url_unreserved (enc_char n)).
  assert (Hp : p n = true).
  { apply (forall_below_spec 64 p); [vm_compute; reflexivity | lia]. }
  unfold p in Hp.
  repeat (apply andb_prop in Hp; destruct Hp as [Hp ?]).
  apply negb_true_iff in Hp.
  destruct (table_a2b_base64 (dec_char (enc_char n))) as [m|]; [|discriminate].
  repeat split; auto.
  - f_equal. apply Z.eqb_eq. assumption.
  - apply negb_true_iff. assumption.
Qed.

(** One step of the decoding loop on a digit. *)
Lemma a2b_loop_digit (n : Z) (cs : list ascii) (q lc p : Z) (out : bytes) :
  0 <= n < 64 ->
  a2b_loop (dec_char (enc_char n) :: cs) q lc p out =
    if q =? 0 then a2b_loop cs 1 n 0 out
    else if q =? 1 then
      a2b_loop cs 2 (Z.land n 15) 0 (out ++ [Z.lor (Z.shiftl lc 2) (Z.shiftr n 4)])
    else if q =? 2 then
      a2b_loop cs 3 (Z.land n 3) 0 (out ++ [Z.lor (Z.shiftl lc 4) (Z.shiftr n 2)])
    else a2b_loop cs 0 0 0 (out ++ [Z.lor (Z.shiftl lc 6) n]).
Proof.
  intros Hn. destruct (digit_facts n Hn) as (Hpad & Htab & _).
  cbn [a2b_loop]. rewrite Hpad, Htab. reflexivity.
Qed.

(** *** The bit arithmetic of a group of three octets *)

Lemma in64_spec (n : Z) : in64 n = true -> 0 <= n < 64.
Proof. unfold in64. intros H. apply andb_prop in H. lia. Qed.

Lemma group_bits (a b : Z) :
  is_byte a -> is_byte b ->
  0 <= sextet0 a < 64 /\ 0 <= sextet1 a b < 64 /\ 0 <= sextet2 a b < 64
  /\ 0 <= sextet3 a < 64
  /\ Z.lor (Z.shiftl (sextet0 a) 2) (Z.shiftr (sextet1 a b) 4) = a
  /\ Z.land (sextet1 a b) 15 = Z.shiftr b 4
  /\ Z.shiftr (sextet2 a b) 2 = Z.land a 15
  /\ Z.lor (Z.shiftl (Z.shiftr a 4) 4) (Z.land a 15) = a
  /\ Z.lor (Z.shiftl (Z.land (sextet2 a b) 3) 6) (sextet3 b) = b.
Proof.
  intros Ha Hb.
  pose (p := fun a b =>
    in64 (sextet0 a) && in64 (sextet1 a b) && in64 (sextet2 a b)
    && in64 (sextet3 a)
    && (Z.lor (Z.shiftl (sextet0 a) 2) (Z.shiftr (sextet1 a b) 4) =? a)
    && (Z.land (sextet1 a b) 15 =? Z.shiftr b 4)
    && (Z.shiftr (sextet2 a b) 2 =? Z.land a 15)
    && (Z.lor (Z.shiftl (Z.shiftr a 4) 4) (Z.land a 15) =? a)
    && (Z.lor (Z.shiftl (Z.land (sextet2 a b) 3) 6) (sextet3 b) =? b)).
  assert (Hp : p a b = true).
  { apply (forall_below2_spec 256 256 p); [vm_compute; reflexivity | | ];
      unfold is_byte in *; lia. }
  unfold p in Hp.
  repeat (apply andb_prop in Hp; destruct Hp as [Hp ?]).
  repeat match goal with
         | H : in64 _ = true |- _ => apply in64_spec in H
         | H : (_ =? _) = true |- _ => apply Z.eqb_eq in H
         end.
  repeat split; try lia; assumption.
Qed.

Lemma sextet1_tail (a : Z) : Z.shiftl (Z.land a 3) 4 = sextet1 a 0.
Proof. unfold sextet1. rewrite Z.shiftr_0_l, Z.lor_0_r. reflexivity. Qed.

Lemma sextet2_tail (b : Z) : Z.shiftl (Z.land b 15) 2 = sextet2 b 0.
Proof. unfold sextet2. rewrite Z.shiftr_0_l, Z.lor_0_r. reflexivity. Qed.

Lemma is_byte_0 : is_byte 0.
Proof. unfold is_byte. lia. Qed.

(** *** Stripping and padding *)

Lemma dropwhile_app_keep {A} (p : A -> bool) (l : list A) (x : A) :
  p x = false -> dropwhile p (l ++ [x]) = dropwhile p l ++ [x].
Proof.
  intros Hx. induction l as [|a l IH]; simpl.
  - rewrite Hx. reflexivity.
  - destruct (p a); [exact IH | reflexivity].
Qed.

Lemma dropwhile_app_nonempty {A} (p : A -> bool) (l l' : list A) :
  dropwhile p l <> [] -> dropwhile p (l ++ l') = dropwhile p l ++ l'.
Proof.
  induction l as [|a l IH]; simpl; intros H.
  - congruence.
  - destruct (p a); [apply IH, H | reflexivity].
Qed.

Lemma rstrip_cons_keep (chars : list ascii) (x : ascii) (l : list ascii) :
  mem_ascii x chars = false -> rstrip chars (x :: l) = x :: rstrip chars l.
Proof.
  intros Hx. unfold rstrip. simpl rev.
  destruct (dropwhile (fun c => mem_ascii c chars) (rev l)) as [|d r] eqn:E.
  - assert (Hall : forall l0 : list ascii,
               dropwhile (fun c => mem_ascii c chars) l0 = [] ->
               dropwhile (fun c => mem_ascii c chars) (l0 ++ [x]) = [x]).
    { induction l0 as [|a l0 IH]; simpl; intros H.
      - rewrite Hx. reflexivity.
      - destruct (mem_ascii a chars); [apply IH, H | discriminate]. }
    rewrite (Hall _ E). reflexivity.
  - rewrite dropwhile_app_nonempty by (rewrite E; discriminate).
    rewrite E, rev_app_distr. reflexivity.
Qed.

Lemma ljust_pad (s : list ascii) (k : nat) (fill : ascii) :
  ljust s (List.length s + k) fill = s ++ repeat fill k.
Proof. unfold ljust. f_equal. f_equal. lia. Qed.

(** Induction over a list three elements at a time. *)
Lemma list_ind3 {A} (P : list A -> Prop) :
  P [] -> (forall a, P [a]) -> (forall a b, P [a; b]) ->
  (forall a b c l, P l -> P (a :: b :: c :: l)) ->
  forall l, P l.
Proof.
  intros H0 H1 H2 H3 l.
  assert (H : P l /\ (forall a, P (a :: l)) /\ (forall a b, P (a :: b :: l))).
  { induction l as [|x l (IH0 & IH1 & IH2)].
    - auto.
    - repeat split; auto. }
  apply H.
Qed.

(** *** The encoder, group by group *)

Lemma encode_nil : urlsafe_base64_encode [] = [].
Proof. reflexivity. Qed.

Lemma encode_one (a : Z) :
  is_byte a ->
  urlsafe_base64_encode [a] = [enc_char (sextet0 a); enc_char (sextet1 a 0)].
Proof.
  intros Ha.
  destruct (group_bits a 0 Ha is_byte_0) as (H0 & H1 & _).
  unfold urlsafe_base64_encode, urlsafe_b64encode. cbn [b2a_base64 translate2 map].
  rewrite sextet1_tail. fold (enc_char (sextet0 a)) (enc_char (sextet1 a 0)).
  fold strip_set.
  rewrite !rstrip_cons_keep by (apply digit_facts; assumption).
  reflexivity.
Qed.

Lemma encode_two (a b : Z) :
  is_byte a -> is_byte b ->
  urlsafe_base64_encode [a; b] =
    [enc_char (sextet0 a); enc_char (sextet1 a b); enc_char (sextet2 b 0)].
Proof.
  intros Ha Hb.
  destruct (group_bits a b Ha Hb) as (H0 & H1 & _).
  destruct (group_bits b 0 Hb is_byte_0) as (_ & _ & H2 & _).
  unfold urlsafe_base64_encode, urlsafe_b64encode. cbn [b2a_base64 translate2 map].
  rewrite sextet2_tail.
  fold (sextet1 a b).
  fold (enc_char (sextet0 a)) (enc_char (sextet1 a b)) (enc_char (sextet2 b 0)).
  fold strip_set.
  rewrite !rstrip_cons_keep by (apply digit_facts; assumption).
  reflexivity.
Qed.

Lemma encode_three (a b c : Z) (rest : bytes) :
  is_byte a -> is_byte b -> is_byte c ->
  urlsafe_base64_encode (a :: b :: c :: rest) =
    enc_char (sextet0 a) :: enc_char (sextet1 a b) :: enc_char (sextet2 b c)
    :: enc_char (sextet3 c) :: urlsafe_base64_encode rest.
Proof.
  intros Ha Hb Hc.
  destruct (group_bits a b Ha Hb) as (H0 & H1 & _).
  destruct (group_bits b c Hb Hc) as (_ & _ & H2 & _).
  destruct (group_bits c c Hc Hc) as (_ & _ & _ & H3 & _).
  unfold urlsafe_base64_encode, urlsafe_b64encode.
  cbn [b2a_base64 translate2 map].
  fold (sextet1 a b) (sextet2 b c) (sextet3 c).
  fold (enc_char (sextet0 a)) (enc_char (sextet1 a b)) (enc_char (sextet2 b c))
       (enc_char (sextet3 c)).
  fold strip_set.
  rewrite !rstrip_cons_keep by (apply digit_facts; assumption).
  reflexivity.
Qed.

(** *** The decoder on encoded text *)

Lemma a2b_loop_pad (cs : list ascii) (q lc p : Z) (out : bytes) :
  a2b_loop (BASE64_PAD :: cs) q lc p out =
    if q >=? 2 then
      if q + (p + 1) >=? 4 then Ok out else a2b_loop cs q lc (p + 1) out
    else a2b_loop cs q lc p out.
Proof. reflexivity. Qed.

Lemma length_encode_three (a b c : Z) (rest : bytes) :
  is_byte a -> is_byte b -> is_byte c ->
  (List.length (urlsafe_base64_encode (a :: b :: c :: rest)) mod 4
   = List.length (urlsafe_base64_encode rest) mod 4)%nat.
Proof.
  intros Ha Hb Hc. rewrite encode_three by assumption.
  cbn [List.length].
  change (S (S (S (S (List.length (urlsafe_base64_encode rest))))))
    with (4 + List.length (urlsafe_base64_encode rest))%nat.
  rewrite Nat.add_comm.
  replace 4%nat with (1 * 4)%nat by reflexivity.
  apply Nat.Div0.mod_add.
Qed.

Ltac a2b_digit_step :=
  rewrite a2b_loop_digit by assumption; cbn [Z.eqb Pos.eqb].

Lemma a2b_loop_encoded (data : bytes) :
  Forall is_byte data ->
  forall lc p out,
    a2b_loop
      (map dec_char (urlsafe_base64_encode data)
       ++ repeat BASE64_PAD (List.length (urlsafe_base64_encode data) mod 4))
      0 lc p out
    = Ok (out ++ data).
Proof.
  induction data as [| a | a b | a b c rest IH] using list_ind3;
    intros Hall lc p out.
  - cbn. rewrite app_nil_r. reflexivity.
  - inversion_clear Hall as [|? ? Ha _].
    destruct (group_bits a 0 Ha is_byte_0) as (H0 & H1 & _ & _ & E0 & _).
    rewrite encode_one by assumption.
    cbn [map List.length Nat.modulo Nat.divmod fst snd Nat.sub repeat app].
    do 2 a2b_digit_step.
    rewrite E0, !a2b_loop_pad. reflexivity.
  - inversion_clear Hall as [|? ? Ha Hall']. inversion_clear Hall' as [|? ? Hb _].
    destruct (group_bits a b Ha Hb) as (H0 & H1 & _ & _ & E0 & E1 & _).
    destruct (group_bits b 0 Hb is_byte_0) as (_ & _ & H2 & _ & _ & _ & E2 & E3 & _).
    rewrite encode_two by assumption.
    cbn [map List.length Nat.modulo Nat.divmod fst snd Nat.sub repeat app].
    do 3 a2b_digit_step.
    rewrite E0, E1, E2, E3, !a2b_loop_pad. cbn. rewrite <- app_assoc. reflexivity.
  - inversion_clear Hall as [|? ? Ha Hall'].
    inversion_clear Hall' as [|? ? Hb Hall''].
    inversion_clear Hall'' as [|? ? Hc Hrest].
    destruct (group_bits a b Ha Hb) as (H0 & H1 & _ & _ & E0 & E1 & _).
    destruct (group_bits b c Hb Hc) as (_ & _ & H2 & _ & _ & _ & E2 & E3 & E4).
    destruct (group_bits c c Hc Hc) as (_ & _ & _ & H3 & _).
    rewrite length_encode_three by assumption.
    rewrite encode_three by assumption.
    cbn [map app].
    do 4 a2b_digit_step.
    rewrite E0, E1, E2, E3, E4.
    rewrite IH by assumption.
    rewrite <- !app_assoc. reflexivity.
Qed.

Lemma dec_char_pads (k : nat) :
  translate2 "-" "+" "_" "/" (repeat BASE64_PAD k) = repeat BASE64_PAD k.
Proof.
  induction k as [|k IH]; [reflexivity|].
  unfold translate2 in *. cbn [repeat map]. rewrite IH. reflexivity.
Qed.

(** Decoding an encoded byte string gives the byte string back. *)
Lemma urlsafe_base64_roundtrip (data : bytes) :
  Forall is_byte data ->
  urlsafe_base64_decode (urlsafe_base64_encode data) = Ok data.
Proof.
  intros Hall. unfold urlsafe_base64_decode, urlsafe_b64decode, a2b_base64.
  rewrite ljust_pad. unfold translate2 at 1. rewrite map_app.
  fold (translate2 "-" "+" "_" "/" (repeat BASE64_PAD
          (List.length (urlsafe_base64_encode data) mod 4))).
  rewrite dec_char_pads. fold dec_char.
  change (map (translate_char "-" "+" "_" "/")) with (map dec_char).
  rewrite a2b_loop_encoded by assumption. reflexivity.
Qed.

(** Every character of an encoded byte string is unreserved in URLs. *)
Lemma urlsafe_base64_encode_unreserved (data : bytes) :
  Forall is_byte data ->
  Forall (fun c => url_unreserved c = true) (urlsafe_base64_encode data).
Proof.
  induction data as [| a | a b | a b c rest IH] using list_ind3; intros Hall.
  - constructor.
  - inversion_clear Hall as [|? ? Ha _].
    destruct (group_bits a 0 Ha is_byte_0) as (H0 & H1 & _).
    rewrite encode_one by assumption.
    repeat constructor; apply digit_facts; assumption.
  - inversion_clear Hall as [|? ? Ha Hall']. inversion_clear Hall' as [|? ? Hb _].
    destruct (group_bits a b Ha Hb) as (H0 & H1 & _).
    destruct (group_bits b 0 Hb is_byte_0) as (_ & _ & H2 & _).
    rewrite encode_two by assumption.
    repeat constructor; apply digit_facts; assumption.
  - inversion_clear Hall as [|? ? Ha Hall'].
    inversion_clear Hall' as [|? ? Hb Hall''].
    inversion_clear Hall'' as [|? ? Hc Hrest].
    destruct (group_bits a b Ha Hb) as (H0 & H1 & _).
    destruct (group_bits b c Hb Hc) as (_ & _ & H2 & _).
    destruct (group_bits c c Hc Hc) as (_ & _ & _ & H3 & _).
    rewrite encode_three by assumption.
    repeat (constructor; [apply digit_facts; assumption|]).
    apply IH, Hrest.
Qed.

(** *** Integers and their big-endian octets *)

Lemma int_to_bytes_length (n : nat) (v : Z) : List.length (int_to_bytes n v) = n.
Proof. induction n as [|n IH]; cbn [int_to_bytes List.length]; congruence. Qed.

Lemma land_255 (a : Z) : Z.land a 255 = a mod 256.
Proof. change 255 with (Z.ones 8). rewrite Z.land_ones by lia. reflexivity. Qed.

Lemma int_to_bytes_is_byte (n : nat) (v : Z) : Forall is_byte (int_to_bytes n v).
Proof.
  induction n as [|n IH]; cbn [int_to_bytes]; constructor; [|exact IH].
  unfold is_byte. rewrite land_255. apply Z.mod_pos_bound. lia.
Qed.

Lemma lor_shiftl_byte (acc x : Z) :
  is_byte x -> Z.lor (Z.shiftl acc 8) x = acc * 256 + x.
Proof.
  intros [Hx0 Hx1].
  assert (Hland : Z.land (Z.shiftl acc 8) x = 0).
  { apply Z.bits_inj'. intros n Hn.
    rewrite Z.land_spec, Z.bits_0.
    destruct (Z.ltb_spec n 8) as [Hlt|Hge].
    - rewrite Z.shiftl_spec_low by assumption. reflexivity.
    - destruct (Z.eq_dec x 0) as [->|Hne].
      + rewrite Z.bits_0. apply andb_false_r.
      + rewrite (Z.bits_above_log2 x n); [apply andb_false_r | lia |].
        assert (Z.log2 x < 8) by (apply Z.log2_lt_pow2; lia). lia. }
  pose proof (Z.add_lor_land (Z.shiftl acc 8) x) as H.
  rewrite Hland, Z.add_0_r in H. rewrite H.
  rewrite Z.shiftl_mul_pow2 by lia. reflexivity.
Qed.

Lemma int_from_to_bytes_acc (n : nat) (v acc : Z) :
  0 <= v ->
  fold_left (fun acc x => Z.lor (Z.shiftl acc 8) x) (int_to_bytes n v) acc
  = acc * 2 ^ (8 * Z.of_nat n) + v mod 2 ^ (8 * Z.of_nat n).
Proof.
  intros Hv. revert acc. induction n as [|n IH]; intros acc.
  - cbn [int_to_bytes fold_left]. change (2 ^ (8 * Z.of_nat 0)) with 1.
    rewrite Z.mod_1_r. lia.
  - cbn [int_to_bytes fold_left].
    rewrite lor_shiftl_byte
      by (unfold is_byte; rewrite land_255; apply Z.mod_pos_bound; lia).
    rewrite IH, land_255, Z.shiftr_div_pow2 by lia.
    replace (8 * Z.of_nat (S n)) with (8 * Z.of_nat n + 8) by lia.
    rewrite Z.pow_add_r by lia. change (2 ^ 8) with 256.
    set (m := 2 ^ (8 * Z.of_nat n)).
    assert (Hm : 0 < m) by (apply Z.pow_pos_nonneg; lia).
    rewrite (Z.rem_mul_r v m 256) by lia.
    lia.
Qed.

Lemma UUID_of_bytes_bytes (u : UUID) :
  UUID_valid u -> UUID_of_bytes (UUID_bytes u) = Ok u.
Proof.
  intros [Hu0 Hu1]. unfold UUID_of_bytes, UUID_bytes, int_from_bytes.
  rewrite int_to_bytes_length. cbn [Nat.eqb].
  rewrite int_from_to_bytes_acc by assumption.
  change (8 * Z.of_nat 16) with 128.
  rewrite Z.mod_small by lia. f_equal.
Qed.

(** *** Base64UUIDField *)

(** C5. Identifier codec round trip: for every 128-bit identifier [v],
    decoding the encoded wire token gives [v] back, and every character of the
    token is an unreserved URL character (no percent-encoding needed). *)
Theorem Base64UUIDField_roundtrip (v : UUID) :
  UUID_valid v ->
  Base64UUIDField_to_internal_value
    (DataText (Base64UUIDField_to_representation v)) = Ok v
  /\ Forall (fun c => url_unreserved c = true)
       (list_ascii_of_string (Base64UUIDField_to_representation v)).
Proof.
  intros Hv.
  unfold Base64UUIDField_to_internal_value, Base64UUIDField_to_representation.
  rewrite list_ascii_of_string_of_list_ascii.
  split.
  - rewrite urlsafe_base64_roundtrip by apply int_to_bytes_is_byte.
    rewrite UUID_of_bytes_bytes by assumption. reflexivity.
  - apply urlsafe_base64_encode_unreserved, int_to_bytes_is_byte.
Qed.

Lemma a2b_loop_raises (cs : list ascii) :
  forall q lc p out e, a2b_loop cs q lc p out = Raise e -> e = BinasciiError.
Proof.
  induction cs as [|c cs IH]; intros q lc p out e; cbn [a2b_loop].
  - destruct (q =? 0); congruence.
  - destruct (Ascii.eqb c BASE64_PAD).
    + destruct (q >=? 2); [destruct (q + (p + 1) >=? 4)|];
        try discriminate; apply IH.
    + destruct (table_a2b_base64 c) as [v|]; [|apply IH].
      destruct (q =? 0); [apply IH|].
      destruct (q =? 1); [apply IH|].
      destruct (q =? 2); apply IH.
Qed.

Lemma urlsafe_base64_decode_raises (s : list ascii) (e : exn) :
  urlsafe_base64_decode s = Raise e -> e = ValueError.
Proof.
  unfold urlsafe_base64_decode, urlsafe_b64decode, a2b_base64, try_except_raise.
  destruct (a2b_loop _ 0 0 0 []) as [b|e'] eqn:E; [discriminate|].
  apply a2b_loop_raises in E. subst e'. cbn. congruence.
Qed.

(** C7. Identifier decode: an already decoded [UUID] is returned unchanged;
    malformed text (text whose decoding fails or does not give 16 octets)
    raises [NotFound]; and no text at all makes it raise a validation
    error, the only outcomes on text being a [UUID] or [NotFound]. *)
Theorem Base64UUIDField_to_internal_value_errors :
  (forall u : UUID, Base64UUIDField_to_internal_value (DataUUID u) = Ok u)
  /\ (forall s : string,
        malformed_token s = true ->
        Base64UUIDField_to_internal_value (DataText s) = Raise NotFound)
  /\ (forall s : string,
        (exists u, Base64UUIDField_to_internal_value (DataText s) = Ok u
                   /\ malformed_token s = false)
        \/ Base64UUIDField_to_internal_value (DataText s) = Raise NotFound)
  /\ (forall (s : string) (detail : string),
        Base64UUIDField_to_internal_value (DataText s)
        <> Raise (ValidationError detail)).
Proof.
  assert (Hcases : forall s : string,
    (exists u, Base64UUIDField_to_internal_value (DataText s) = Ok u
               /\ malformed_token s = false)
    \/ (Base64UUIDField_to_internal_value (DataText s) = Raise NotFound
        /\ malformed_token s = true)).
  { intros s. unfold Base64UUIDField_to_internal_value, malformed_token.
    destruct (urlsafe_base64_decode (list_ascii_of_string s)) as [b|e] eqn:E.
    - unfold UUID_of_bytes. destruct (List.length b =? 16)%nat.
      + left. eexists. split; reflexivity.
      + right. split; reflexivity.
    - apply urlsafe_base64_decode_raises in E. subst e.
      right. split; reflexivity. }
  split; [reflexivity|].
  split; [|split].
  - intros s Hs. destruct (Hcases s) as [(u & _ & H)|[H _]]; congruence.
  - intros s. destruct (Hcases s) as [H|[H _]]; auto.
  - intros s detail. destruct (Hcases s) as [(u & H & _)|[H _]]; congruence.
Qed.

Example to_internal_value_garbled :
  map (fun s => Base64UUIDField_to_internal_value (DataText s))
    [""; "abc"; "not a uuid!"; "ABEiM0RVZneImaq7zN3u_"; "ABEiM0RVZneImaq7zN3u_wAA"]%string
  = [Raise NotFound; Raise NotFound; Raise NotFound; Raise NotFound; Raise NotFound].
Proof. reflexivity. Qed.

(** *** PointField *)

Lemma split_no_sep (sep : ascii) (s : string) :
  contains sep s = false -> split sep s = [s].
Proof.
  induction s as [|c s IH]; cbn [contains split]; intros H; [reflexivity|].
  apply orb_false_iff in H. destruct H as [Hc Hs].
  rewrite Hc, (IH Hs). reflexivity.
Qed.

Lemma split_append_sep (sep : ascii) (s1 s2 : string) :
  contains sep s1 = false ->
  split sep (s1 ++ String sep s2) = s1 :: split sep s2.
Proof.
  induction s1 as [|c s1 IH]; cbn [contains split String.append]; intros H.
  - rewrite Ascii.eqb_refl. reflexivity.
  - apply orb_false_iff in H. destruct H as [Hc Hs].
    rewrite Hc, (IH Hs). reflexivity.
Qed.

Lemma strip_leading_space (s : string) : strip (String " " s) = strip s.
Proof. reflexivity. Qed.

Section PointFieldProperties.
Context {F : Type} {F_text : FloatText F}.

Lemma py_float_raises (s : string) (e : exn) :
  py_float (F := F) s = Raise e -> e = ValueError.
Proof. unfold py_float. destruct (float_of_text (strip s)); congruence. Qed.



Lemma PointField_wellformed (s : string) :
  malformed_coordinates (F := F) s = false ->
  exists p, PointField_to_internal_value (F := F) s = Ok p.
Proof.
  unfold malformed_coordinates, PointField_to_internal_value, unpack2.
  destruct (split "," s) as [|t0 [|t1 [|t2 rest]]];
    cbn [List.length Nat.eqb negb orb existsb]; try discriminate.
  destruct (py_float t0); [|discriminate].
  destruct (py_float t1); [|discriminate].
  intros _. eexists. reflexivity.
Qed.

End PointFieldProperties.

Lemma split_length_pos (sep : ascii) (s : string) :
  (1 <= List.length (split sep s))%nat.
Proof.
  induction s as [|c s IH]; cbn [split List.length]; [lia|].
  destruct (Ascii.eqb c sep); cbn [List.length]; [lia|].
  destruct (split sep s); cbn [List.length] in *; lia.
Qed.

Lemma split_app_sep (sep : ascii) (s1 s2 : string) :
  split sep (s1 ++ String sep s2) = split sep s1 ++ split sep s2.
Proof.
  induction s1 as [|c s1 IH]; cbn [split String.append app].
  - rewrite Ascii.eqb_refl. reflexivity.
  - rewrite IH. destruct (Ascii.eqb c sep); [reflexivity|].
    pose proof (split_length_pos sep s1) as Hpos.
    destruct (split sep s1); [cbn in Hpos; lia | reflexivity].
Qed.

(** A string with a separator splits into two tokens at least. *)
Lemma split_contains (sep : ascii) (s : string) :
  contains sep s = true -> (2 <= List.length (split sep s))%nat.
Proof.
  induction s as [|c s IH]; cbn [contains split]; [discriminate|].
  destruct (Ascii.eqb c sep); cbn [orb].
  - intros _. pose proof (split_length_pos sep s). cbn [List.length]. lia.
  - intros H. specialize (IH H).
    destruct (split sep s); cbn [List.length] in *; lia.
Qed.

(** Unpacking into two names succeeds on two items only. *)
Lemma unpack2_Ok_length {A B} (f : A -> result B) (tokens : list A) (r : B * B) :
  unpack2 f tokens = Ok r -> List.length tokens = 2%nat.
Proof.
  unfold unpack2. destruct tokens as [|t0 [|t1 [|t2 rest]]]; try discriminate.
  - destruct (f t0); discriminate.
  - reflexivity.
  - destruct (f t0); [|discriminate]. destruct (f t1); [|discriminate].
    destruct (f t2); discriminate.
Qed.

Section PointFieldRoundTrip.
Context {F : Type} {F_text : FloatText F} {F_cmp : FloatCompare F}.

Lemma py_float_leading_space (s : string) :
  py_float (F := F) (String " " s) = py_float s.
Proof. unfold py_float. rewrite strip_leading_space. reflexivity. Qed.

(** Text with a comma in a coordinate splits into more than two tokens, and
    is refused. *)
Lemma PointField_extra_tokens (s1 s2 : string) :
  contains "," s1 = true \/ contains "," s2 = true ->
  forall p, PointField_to_internal_value (F := F) (s1 ++ String "," s2) <> Ok p.
Proof.
  intros Hc p. unfold PointField_to_internal_value. rewrite split_app_sep.
  destruct (unpack2 py_float (split "," s1 ++ split "," s2)) as [[a b]|e] eqn:E.
  - exfalso. apply unpack2_Ok_length in E. rewrite length_app in E.
    pose proof (split_length_pos "," s1). pose proof (split_length_pos "," s2).
    destruct Hc as [Hc|Hc]; apply split_contains in Hc; lia.
  - cbn [try_except_raise]. destruct (is_ValueError_or_TypeError e); discriminate.
Qed.

(** The round trip of a point holds exactly when its two coordinates read
    back. *)
Lemma PointField_roundtrips_spec (point : Point F) :
  PointField_roundtrips point = reads_back (x point) && reads_back (y point).
Proof.
  destruct point as [px py]. unfold PointField_roundtrips, reads_back.
  unfold PointField_to_representation. cbn [x y String.append].
  destruct (contains "," (format_float px)) eqn:Hxc;
    [|destruct (contains "," (format_float py)) eqn:Hyc].
  - cbn [negb andb].
    destruct (PointField_to_internal_value
                (format_float px ++ String "," (String " " (format_float py))))
      as [p|e] eqn:E; [|reflexivity].
    exfalso. revert E. apply PointField_extra_tokens. left. exact Hxc.
  - cbn [negb andb]. rewrite andb_false_r.
    destruct (PointField_to_internal_value
                (format_float px ++ String "," (String " " (format_float py))))
      as [p|e] eqn:E; [|reflexivity].
    exfalso. revert E. apply PointField_extra_tokens. right.
    cbn [contains]. rewrite Hyc. reflexivity.
  - cbn [negb andb]. unfold PointField_to_internal_value.
    rewrite split_append_sep by exact Hxc.
    rewrite split_no_sep by (cbn [contains]; rewrite Hyc; reflexivity).
    unfold unpack2. rewrite py_float_leading_space.
    destruct (py_float (format_float px)) as [x'|ex].
    + destruct (py_float (format_float py)) as [y'|ey].
      * reflexivity.
      * cbn [try_except_raise]. rewrite andb_false_r.
        destruct (is_ValueError_or_TypeError ey); reflexivity.
    + cbn [try_except_raise andb].
      destruct (is_ValueError_or_TypeError ex); reflexivity.
Qed.


End PointFieldRoundTrip.

(** *** Tables *)

Lemma NoDup_map_In_eq {R B} (f : R -> B) (rows : list R) (a b : R) :
  NoDup (map f rows) -> In a rows -> In b rows -> f a = f b -> a = b.
Proof.
  induction rows as [|r rows IH]; cbn [map In]; intros Hnd Ha Hb Hf; [tauto|].
  inversion_clear Hnd as [|? ? Hnotin Hnd'].
  destruct Ha as [->|Ha], Hb as [->|Hb]; auto.
  - exfalso. apply Hnotin. rewrite Hf. apply in_map, Hb.
  - exfalso. apply Hnotin. rewrite <- Hf. apply in_map, Ha.
Qed.

Lemma by_pk_NoDup {R} (pk : R -> nat) (rows : list R) (l : R) :
  NoDup (map pk rows) -> In l rows -> by_pk pk (pk l) rows = Some l.
Proof.
  unfold by_pk. induction rows as [|r rows IH]; cbn [map In find]; intros Hnd Hin.
  - tauto.
  - inversion_clear Hnd as [|? ? Hnotin Hnd'].
    destruct Hin as [->|Hin].
    + rewrite Nat.eqb_refl. reflexivity.
    + destruct (Nat.eqb_spec (pk r) (pk l)) as [E|_].
      * exfalso. apply Hnotin. rewrite E. apply in_map, Hin.
      * apply IH; assumption.
Qed.

Section ORMFacts.
Context {R : Type} (pk : R -> nat).

Lemma next_pk_gt (rows : list R) (r : R) :
  In r rows -> (pk r < next_pk pk rows)%nat.
Proof.
  unfold next_pk. induction rows as [|r0 rows IH]; cbn [In map fold_right].
  - intros [].
  - intros [->|H]; [lia|]. specialize (IH H). lia.
Qed.

Lemma existsb_pk_In (rows : list R) (r : R) :
  In r rows -> existsb (fun r' => (pk r' =? pk r)%nat) rows = true.
Proof.
  intros H. apply existsb_exists. exists r. split; [exact H|apply Nat.eqb_refl].
Qed.

Lemma existsb_pk_fresh (rows : list R) (r : R) :
  pk r = next_pk pk rows ->
  existsb (fun r' => (pk r' =? pk r)%nat) rows = false.
Proof.
  intros Hr. apply not_true_is_false. intros H.
  apply existsb_exists in H. destruct H as (r' & Hin & Heq).
  apply Nat.eqb_eq in Heq. apply next_pk_gt in Hin. lia.
Qed.

Lemma map_replace_fresh (rows : list R) (r : R) :
  pk r = next_pk pk rows ->
  map (fun r' => if (pk r' =? pk r)%nat then r else r') rows = rows.
Proof.
  intros Hr. rewrite <- (map_id rows) at 2. apply map_ext_in.
  intros r' Hin. apply next_pk_gt in Hin.
  destruct (Nat.eqb_spec (pk r') (pk r)); [lia|reflexivity].
Qed.

(** Saving the row that was just inserted rewrites that row alone. *)
Lemma save_row_appended (rows : list R) (r0 r : R) :
  pk r0 = next_pk pk rows -> pk r = pk r0 ->
  save_row pk r (rows ++ [r0]) = rows ++ [r].
Proof.
  intros H0 Hr. unfold save_row.
  rewrite existsb_app. cbn [existsb]. rewrite Hr, Nat.eqb_refl.
  cbn [orb]. rewrite orb_true_r.
  rewrite map_app. cbn [map]. rewrite Nat.eqb_refl.
  rewrite <- Hr. rewrite map_replace_fresh by congruence. reflexivity.
Qed.

(** Saving a row in place keeps every column on which the new row agrees
    with the old one. *)
Lemma save_row_map {B} (g : R -> B) (rows : list R) (l l' : R) :
  NoDup (map pk rows) -> In l rows -> pk l' = pk l -> g l' = g l ->
  map g (save_row pk l' rows) = map g rows.
Proof.
  intros Hnd Hin Hpk Hg. unfold save_row.
  rewrite Hpk, (existsb_pk_In rows l Hin).
  rewrite map_map. apply map_ext_in. intros r Hr.
  destruct (Nat.eqb_spec (pk r) (pk l)) as [E|_]; [|reflexivity].
  rewrite Hg. f_equal. symmetry.
  apply (NoDup_map_In_eq pk rows r l); assumption.
Qed.

Lemma save_row_length (rows : list R) (l l' : R) :
  In l rows -> pk l' = pk l ->
  List.length (save_row pk l' rows) = List.length rows.
Proof.
  intros Hin Hpk. unfold save_row.
  rewrite Hpk, (existsb_pk_In rows l Hin). apply length_map.
Qed.

(** After a save in place, the key leads to the saved row. *)
Lemma by_pk_save_row (rows : list R) (l l' : R) :
  In l rows -> pk l' = pk l ->
  by_pk pk (pk l) (save_row pk l' rows) = Some l'.
Proof.
  intros Hin Hpk. unfold save_row, by_pk.
  rewrite Hpk, (existsb_pk_In rows l Hin).
  induction rows as [|r rows IH]; cbn [In map find] in *; [tauto|].
  destruct (Nat.eqb_spec (pk r) (pk l)) as [E|NE].
  - rewrite Hpk, Nat.eqb_refl. reflexivity.
  - rewrite (proj2 (Nat.eqb_neq _ _) NE).
    apply IH. destruct Hin as [->|Hin]; [congruence|exact Hin].
Qed.

(** A save in place leaves the rows under other keys alone. *)
Lemma by_pk_save_row_other (rows : list R) (l' : R) (k : nat) :
  k <> pk l' -> by_pk pk k (save_row pk l' rows) = by_pk pk k rows.
Proof.
  intros Hk. unfold save_row, by_pk.
  destruct (existsb _ rows).
  - induction rows as [|r rows IH]; cbn [map find]; [reflexivity|].
    destruct (Nat.eqb_spec (pk r) (pk l')) as [E|NE].
    + rewrite (proj2 (Nat.eqb_neq _ _) (not_eq_sym Hk)).
      rewrite E, (proj2 (Nat.eqb_neq _ _) (not_eq_sym Hk)). exact IH.
    + destruct (pk r =? k)%nat; [reflexivity|exact IH].
  - induction rows as [|r rows IH]; cbn [app find].
    + rewrite (proj2 (Nat.eqb_neq _ _) (not_eq_sym Hk)). reflexivity.
    + destruct (pk r =? k)%nat; [reflexivity|exact IH].
Qed.

Lemma objects_get_Ok (matches : R -> bool) (rows : list R) (r : R) :
  objects_get matches rows = Ok r -> filter matches rows = [r].
Proof.
  unfold objects_get.
  destruct (filter matches rows) as [|r0 [|r1 rest]]; congruence.
Qed.

Lemma objects_get_In (matches : R -> bool) (rows : list R) (r : R) :
  objects_get matches rows = Ok r -> In r rows /\ matches r = true.
Proof.
  intros H. apply objects_get_Ok in H. apply filter_In. rewrite H. left. reflexivity.
Qed.

Lemma objects_get_unique (matches : R -> bool) (rows : list R) (r r' : R) :
  objects_get matches rows = Ok r -> In r' rows -> matches r' = true -> r' = r.
Proof.
  intros H Hin Hm. apply objects_get_Ok in H.
  assert (Hf : In r' (filter matches rows)) by (apply filter_In; auto).
  rewrite H in Hf. destruct Hf as [<-|[]]. reflexivity.
Qed.

Lemma objects_get_none (matches : R -> bool) (rows : list R) :
  (forall r, In r rows -> matches r = false) ->
  objects_get matches rows = Raise DoesNotExist.
Proof.
  intros H. unfold objects_get.
  destruct (filter matches rows) as [|r0 rest] eqn:E; [reflexivity|].
  assert (Hin : In r0 (filter matches rows)) by (rewrite E; left; reflexivity).
  apply filter_In in Hin. destruct Hin as [Hin Hm]. rewrite (H _ Hin) in Hm. discriminate.
Qed.

Lemma objects_get_raises (matches : R -> bool) (rows : list R) (e : exn) :
  objects_get matches rows = Raise e ->
  (e = DoesNotExist /\ filter matches rows = [])
  \/ e = MultipleObjectsReturned.
Proof.
  unfold objects_get.
  destruct (filter matches rows) as [|r0 [|r1 rest]]; intros H; inversion H; auto.
Qed.

End ORMFacts.

(** *** Location *)

Section LocationProperties.
Context {F : Type} {F_eq : FloatEq F} {schema : Schema}.

Lemma coordinates_match_true (coords : option (Point F)) (l : LocationRow F) :
  coordinates_match coords l = true <-> coordinates l = coords.
Proof. unfold coordinates_match. destruct (coords_eq_dec _ _); split; congruence. Qed.

Lemma map_location_key_pk (locs : list (LocationRow F)) :
  map fst (map location_key locs) = map location_pk locs.
Proof. rewrite map_map. reflexivity. Qed.

Lemma map_location_key_coordinates (locs : list (LocationRow F)) :
  map snd (map location_key locs) = map coordinates locs.
Proof. rewrite map_map. reflexivity. Qed.

Lemma Location_inv_keys (locs locs' : list (LocationRow F)) :
  map location_key locs' = map location_key locs ->
  Location_inv locs -> Location_inv locs'.
Proof.
  unfold Location_inv. intros E.
  rewrite <- !map_location_key_pk, <- !map_location_key_coordinates, E. tauto.
Qed.

(** With coordinates occurring once at most, a lookup by coordinates finds
    nothing or exactly one row. *)
Lemma filter_coordinates (locs : list (LocationRow F)) (coords : option (Point F)) :
  NoDup (map coordinates locs) ->
  (filter (coordinates_match coords) locs = []
   /\ ~ In coords (map coordinates locs))
  \/ (exists l, filter (coordinates_match coords) locs = [l]
                /\ In l locs /\ coordinates l = coords).
Proof.
  induction locs as [|r rest IH]; cbn [map filter In]; intros Hnd.
  - left. tauto.
  - inversion_clear Hnd as [|? ? Hnotin Hnd'].
    destruct (coordinates_match coords r) eqn:Hr.
    + apply coordinates_match_true in Hr. right.
      destruct (IH Hnd') as [[Hnil _]|(l & _ & Hin & Hl)].
      * exists r. rewrite Hnil. auto.
      * exfalso. apply Hnotin. rewrite Hr, <- Hl. apply in_map, Hin.
    + assert (Hne : coordinates r <> coords).
      { intros E. apply coordinates_match_true in E. congruence. }
      destruct (IH Hnd') as [[Hnil Hnot]|(l & Hl & Hin & Hc)].
      * left. split; [exact Hnil|]. intros [E|E]; [congruence|tauto].
      * right. exists l. auto.
Qed.

(** What [get_or_create] does on a table that satisfies the invariant. *)
Lemma Location_get_or_create_cases (coords : option (Point F)) (db : DB F) :
  NoDup (map coordinates (locations db)) ->
  (exists l, In l (locations db) /\ coordinates l = coords
             /\ Location_get_or_create coords db = (Ok (l, false), db))
  \/ (~ In coords (map coordinates (locations db))
      /\ ((coords = None /\ coordinates_null = false
           /\ Location_get_or_create coords db = (Raise IntegrityError, db))
          \/ ((coords <> None \/ coordinates_null = true)
              /\ Location_get_or_create coords db
                 = (Ok (Location_new db coords, true),
                    set_locations db (locations db ++ [Location_new db coords]))))).
Proof.
  intros Hnd. unfold Location_get_or_create, objects_get.
  destruct (filter_coordinates (locations db) coords Hnd)
    as [[Hnil Hnot]|(l & Hl & Hin & Hc)].
  - right. split; [exact Hnot|]. rewrite Hnil. cbn [is_DoesNotExist].
    destruct coords as [c|].
    + right. split; [left; discriminate | reflexivity].
    + destruct coordinates_null eqn:E.
      * right. split; [right; reflexivity | reflexivity].
      * left. auto.
  - left. exists l. rewrite Hl. auto.
Qed.

Lemma Location_inv_append (db : DB F) (coords : option (Point F)) :
  Location_inv (locations db) ->
  ~ In coords (map coordinates (locations db)) ->
  Location_inv (locations db ++ [Location_new db coords]).
Proof.
  intros [Hpk Hco] Hnot. unfold Location_inv. rewrite !map_app. cbn [map].
  split.
  - apply NoDup_app; [exact Hpk | repeat constructor; intros [] |].
    intros k Hk [E|[]]. cbn in E. subst k.
    apply in_map_iff in Hk. destruct Hk as (r & Hr & Hin).
    apply (next_pk_gt location_pk) in Hin. lia.
  - apply NoDup_app; [exact Hco | repeat constructor; intros [] |].
    intros c Hc [E|[]]. cbn in E. subst c. tauto.
Qed.

(** [ModelSerializer.update] with the coordinates popped: the row keeps its
    key and its coordinates, and takes the address given. *)
Lemma Location_super_update_popped (l : LocationRow F) (d : LocationData F)
  (db : DB F) :
  Location_inv (locations db) -> In l (locations db) ->
  let l' := mkLocation (location_pk l) (coordinates l)
              (or_current (data_address d) (address l)) in
  Location_super_update l (pop_coordinates d) db
  = (Ok l', set_locations db (save_row location_pk l' (locations db)))
  /\ map location_key (save_row location_pk l' (locations db))
     = map location_key (locations db).
Proof.
  intros [Hpk Hco] Hin l'. split; [reflexivity|].
  apply (save_row_map location_pk location_key (locations db) l l');
    auto.
Qed.

Lemma In_save_row (l l' : LocationRow F) (locs : list (LocationRow F)) :
  In l locs -> location_pk l' = location_pk l ->
  In l' (save_row location_pk l' locs).
Proof.
  intros Hin Hpk.
  pose proof (by_pk_save_row location_pk locs l l' Hin Hpk) as H.
  unfold by_pk in H. apply find_some in H. apply H.
Qed.

Lemma In_location_key (k : nat) (c : option (Point F)) (locs : list (LocationRow F)) :
  In (k, c) (map location_key locs) ->
  exists l, In l locs /\ location_pk l = k /\ coordinates l = c.
Proof.
  intros H. apply in_map_iff in H. destruct H as (l & E & Hin).
  exists l. unfold location_key in E. inversion E. auto.
Qed.

Lemma find_and_assign_spec (coords : option (Point F)) (d : LocationData F)
  (db : DB F) :
  Location_inv (locations db) ->
  (exists l db',
      find_and_assign coords d db = (Ok l, db')
      /\ coordinates l = coords
      /\ address l = or_current (data_address d) (address l)
      /\ In l (locations db')
      /\ Location_inv (locations db')
      /\ (exists ext, map location_key (locations db')
                      = map location_key (locations db) ++ ext)
      /\ (forall k, In (k, coords) (map location_key (locations db)) ->
                    location_pk l = k))
  \/ (coords = None /\ find_and_assign coords d db = (Raise IntegrityError, db)).
Proof.
  intros Hinv. pose proof Hinv as [Hpk Hco].
  unfold find_and_assign, bind.
  destruct (Location_get_or_create_cases coords db Hco)
    as [(l & Hin & Hc & ->)|[Hnot [(-> & _ & ->)|[_ ->]]]]; cbn [fst].
  - left.
    destruct (Location_super_update_popped l d db Hinv Hin) as [-> Hkeys].
    eexists. eexists. split; [reflexivity|]. cbn [coordinates address locations set_locations].
    split; [exact Hc|].
    split; [destruct (data_address d); reflexivity|].
    split; [apply (In_save_row l); auto|].
    split; [apply (Location_inv_keys _ _ Hkeys Hinv)|].
    split.
    + exists []. rewrite app_nil_r. exact Hkeys.
    + intros k Hk. apply In_location_key in Hk.
      destruct Hk as (r & Hr & <- & Hrc).
      cbn [location_pk]. f_equal.
      apply (NoDup_map_In_eq coordinates (locations db)); auto. congruence.
  - right. auto.
  - left.
    set (new := Location_new db coords).
    set (db1 := set_locations db (locations db ++ [new])).
    assert (Hinv1 : Location_inv (locations db1))
      by (apply Location_inv_append; assumption).
    assert (Hin1 : In new (locations db1))
      by (cbn; apply in_or_app; right; left; reflexivity).
    destruct (Location_super_update_popped new d db1 Hinv1 Hin1) as [-> Hkeys].
    eexists. eexists. split; [reflexivity|]. cbn [coordinates address locations set_locations].
    split; [reflexivity|].
    split; [destruct (data_address d); reflexivity|].
    split; [apply (In_save_row new); auto|].
    split; [apply (Location_inv_keys _ _ Hkeys Hinv1)|].
    split.
    + exists [location_key new]. rewrite Hkeys. cbn. apply map_app.
    + intros k Hk. exfalso. apply Hnot.
      rewrite <- map_location_key_coordinates.
      apply (in_map snd) in Hk. exact Hk.
Qed.

(** The three ways the common part of [create] and [update] can go. *)
Lemma find_and_assign_rows (coords : option (Point F)) (d : LocationData F)
  (db : DB F) :
  NoDup (map coordinates (locations db)) ->
  (exists r, In r (locations db) /\ coordinates r = coords
             /\ find_and_assign coords d db
                = (Ok (mkLocation (location_pk r) coords
                         (or_current (data_address d) (address r))),
                   set_locations db
                     (save_row location_pk
                        (mkLocation (location_pk r) coords
                           (or_current (data_address d) (address r)))
                        (locations db))))
  \/ (~ In coords (map coordinates (locations db))
      /\ (coords <> None \/ coordinates_null = true)
      /\ find_and_assign coords d db
         = (Ok (mkLocation (next_pk location_pk (locations db)) coords
                  (or_current (data_address d) address_default)),
            set_locations db
              (locations db
               ++ [mkLocation (next_pk location_pk (locations db)) coords
                     (or_current (data_address d) address_default)])))
  \/ (~ In coords (map coordinates (locations db))
      /\ coords = None /\ coordinates_null = false
      /\ find_and_assign coords d db = (Raise IntegrityError, db)).
Proof.
  intros Hco. unfold find_and_assign, bind.
  destruct (Location_get_or_create_cases coords db Hco)
    as [(l & Hin & Hc & ->)|[Hnot [(-> & Hnull & ->)|[Hsome ->]]]]; cbn [fst].
  - left. exists l. split; [exact Hin|]. split; [exact Hc|].
    unfold Location_super_update, bind, ret, Location_save, pop_coordinates.
    cbn [data_coordinates data_address]. rewrite Hc. reflexivity.
  - right. right. auto.
  - right. left. split; [exact Hnot|]. split; [exact Hsome|].
    unfold Location_super_update, bind, ret, Location_save, pop_coordinates,
      Location_new.
    cbn [data_coordinates data_address location_pk coordinates address
         locations set_locations].
    rewrite (save_row_appended location_pk) by reflexivity. reflexivity.
Qed.

Lemma Location_create_unfold (c : Point F) (a : option string) :
  Location_create (mkLocationData (Some c) a)
  = find_and_assign (Some c) (mkLocationData (Some c) a).
Proof. reflexivity. Qed.

Lemma Location_update_same (l : LocationRow F) (d : LocationData F) (db : DB F) :
  coordinates l = data_coordinates d ->
  Location_update l d db = Location_super_update l (pop_coordinates d) db.
Proof.
  intros E. unfold Location_update.
  destruct (coords_eq_dec (coordinates l) (data_coordinates d)); [|contradiction].
  reflexivity.
Qed.

Lemma Location_update_other (l : LocationRow F) (d : LocationData F) (db : DB F) :
  coordinates l <> data_coordinates d ->
  Location_update l d db = find_and_assign (data_coordinates d) d db.
Proof.
  intros NE. unfold Location_update, find_and_assign.
  destruct (coords_eq_dec (coordinates l) (data_coordinates d)); [contradiction|].
  unfold bind, ret.
  destruct (Location_get_or_create (data_coordinates d) db) as [[r|e] db'];
    reflexivity.
Qed.

(** Every operation keeps the invariant, and keeps the key and coordinates
    of every row there was. *)
Lemma run_op_inv (op : LocationOp F) (db : DB F) :
  Location_inv (locations db) ->
  Location_inv (locations (snd (run_op op db)))
  /\ exists ext, map location_key (locations (snd (run_op op db)))
                 = map location_key (locations db) ++ ext.
Proof.
  intros Hinv.
  assert (Hsame : Location_inv (locations db)
                  /\ exists ext, map location_key (locations db)
                                 = map location_key (locations db) ++ ext).
  { split; [exact Hinv|]. exists []. symmetry. apply app_nil_r. }
  assert (Hfind : forall coords d,
    Location_inv (locations (snd (find_and_assign coords d db)))
    /\ exists ext, map location_key (locations (snd (find_and_assign coords d db)))
                   = map location_key (locations db) ++ ext).
  { intros coords d.
    destruct (find_and_assign_spec coords d db Hinv)
      as [(l & db' & -> & _ & _ & _ & Hinv' & Hext & _)|[_ ->]]; cbn [snd]; auto. }
  destruct op as [d|k d]; cbn [run_op].
  - unfold Location_create. destruct (data_coordinates d) as [c|] eqn:E.
    + apply (Hfind (Some c) d).
    + exact Hsame.
  - destruct (by_pk location_pk k (locations db)) as [l|] eqn:El; [|exact Hsame].
    destruct (coords_eq_dec (coordinates l) (data_coordinates d)) as [E|NE].
    + apply find_some in El. destruct El as [Hin _].
      rewrite Location_update_same by assumption.
      destruct (Location_super_update_popped l d db Hinv Hin) as [-> Hkeys].
      cbn [snd locations set_locations]. split.
      * apply (Location_inv_keys _ _ Hkeys Hinv).
      * exists []. rewrite app_nil_r. exact Hkeys.
    + rewrite Location_update_other by assumption.
      apply (Hfind (data_coordinates d) d).
Qed.

Lemma run_ops_inv (ops : list (LocationOp F)) (db : DB F) :
  Location_inv (locations db) ->
  Location_inv (locations (run_ops ops db))
  /\ exists ext, map location_key (locations (run_ops ops db))
                 = map location_key (locations db) ++ ext.
Proof.
  revert db. induction ops as [|op ops IH]; intros db Hinv; cbn [run_ops].
  - split; [exact Hinv|]. exists []. symmetry. apply app_nil_r.
  - destruct (run_op_inv op db Hinv) as [Hinv1 [ext1 E1]].
    destruct (IH _ Hinv1) as [Hinv2 [ext2 E2]].
    split; [exact Hinv2|]. exists (ext1 ++ ext2).
    rewrite E2, E1, app_assoc. reflexivity.
Qed.

Lemma Location_inv_empty : Location_inv (locations (@empty_DB F)).
Proof. split; constructor. Qed.

(** With coordinates occurring once at most, a lookup by the coordinates of
    a stored row finds that row and no other. *)
Lemma filter_coordinates_stored (locs : list (LocationRow F)) (l : LocationRow F) :
  NoDup (map coordinates locs) -> In l locs ->
  filter (coordinates_match (coordinates l)) locs = [l].
Proof.
  intros Hnd Hin.
  destruct (filter_coordinates locs (coordinates l) Hnd)
    as [[_ Hnot]|(l0 & Hf & Hin0 & Hc0)].
  - exfalso. apply Hnot. apply in_map, Hin.
  - rewrite Hf. f_equal.
    apply (NoDup_map_In_eq coordinates locs); assumption.
Qed.

(** C4. Locations are deduplicated by coordinate.  In the database reached
    from the empty one by any run of Location [create] and [update]
    operations, no coordinate value is held by two Location records; and two
    [create] calls with the same coordinates, whatever their addresses and
    whatever operations run between them, both succeed and return one and
    the same stored record.  The first call returns the row it leaves in the
    table: an existing row saved with the address, or one appended row; it is
    the row stored under its key and the only row with the coordinates, and
    it has the submitted address.  At the second call the row under that key
    still has the coordinates; the call adds no row, returns that row with
    the submitted address (its own when none is submitted) and saves it in
    place, so the returned row is again the one stored under the key and the
    only one with the coordinates. *)
Theorem Location_deduplicated (ops : list (LocationOp F)) :
  let db := run_ops ops empty_DB in
  NoDup (map coordinates (locations db))
  /\ forall (c : Point F) (a1 a2 : option string) (between : list (LocationOp F)),
       exists l1 db1 l2 db2,
         Location_create (mkLocationData (Some c) a1) db = (Ok l1, db1)
         /\ Location_create (mkLocationData (Some c) a2) (run_ops between db1)
            = (Ok l2, db2)
         /\ location_pk l1 = location_pk l2
         /\ coordinates l1 = Some c /\ coordinates l2 = Some c
         /\ NoDup (map coordinates (locations db2))
         /\ (db1 = set_locations db (save_row location_pk l1 (locations db))
             \/ db1 = set_locations db (locations db ++ [l1]))
         /\ by_pk location_pk (location_pk l1) (locations db1) = Some l1
         /\ filter (coordinates_match (Some c)) (locations db1) = [l1]
         /\ (forall a, a1 = Some a -> address l1 = a)
         /\ (exists r,
               by_pk location_pk (location_pk l1) (locations (run_ops between db1))
               = Some r
               /\ coordinates r = Some c
               /\ l2 = mkLocation (location_pk l1) (Some c)
                         (or_current a2 (address r)))
         /\ db2 = set_locations (run_ops between db1)
                    (save_row location_pk l2 (locations (run_ops between db1)))
         /\ map location_pk (locations db2)
            = map location_pk (locations (run_ops between db1))
         /\ by_pk location_pk (location_pk l2) (locations db2) = Some l2
         /\ filter (coordinates_match (Some c)) (locations db2) = [l2].
Proof.
  intros db.
  destruct (run_ops_inv ops empty_DB Location_inv_empty) as [Hinv _].
  fold db in Hinv. split; [apply Hinv|].
  intros c a1 a2 between. rewrite !Location_create_unfold.
  destruct (find_and_assign_spec (Some c) (mkLocationData (Some c) a1) db Hinv)
    as [(l1 & db1 & E1 & Hc1 & Ha1 & Hin1 & Hinv1 & _ & _)|[Hnone _]];
    [|discriminate].
  set (dbm := run_ops between db1).
  destruct (run_ops_inv between db1 Hinv1) as [Hinvm [ext Hext]].
  fold dbm in Hinvm, Hext.
  destruct (find_and_assign_spec (Some c) (mkLocationData (Some c) a2) dbm Hinvm)
    as [(l2 & db2 & E2 & Hc2 & _ & Hin2 & Hinv2 & _ & Hkey)|[Hnone _]];
    [|discriminate].
  assert (Hkm : In (location_pk l1, Some c) (map location_key (locations dbm))).
  { rewrite Hext. apply in_or_app. left.
    replace (location_pk l1, Some c) with (location_key l1)
      by (unfold location_key; rewrite Hc1; reflexivity).
    apply in_map, Hin1. }
  destruct (In_location_key _ _ _ Hkm) as (r & Hr & Hrpk & Hrc).
  assert (Hpk : location_pk l1 = location_pk l2) by (symmetry; apply Hkey, Hkm).
  assert (Hrows1 :
    db1 = set_locations db (save_row location_pk l1 (locations db))
    \/ db1 = set_locations db (locations db ++ [l1])).
  { destruct (find_and_assign_rows (Some c) (mkLocationData (Some c) a1) db
                (proj2 Hinv))
      as [(r0 & _ & _ & E)|[(_ & _ & E)|(_ & Hn & _)]]; [| |discriminate];
      rewrite E1 in E; inversion E; subst; [left|right]; reflexivity. }
  assert (Hrows2 :
    l2 = mkLocation (location_pk l1) (Some c) (or_current a2 (address r))
    /\ db2 = set_locations dbm (save_row location_pk l2 (locations dbm))).
  { destruct (find_and_assign_rows (Some c) (mkLocationData (Some c) a2) dbm
                (proj2 Hinvm))
      as [(r0 & Hr0 & Hr0c & E)|[(Hnot & _)|(Hnot & _)]].
    - assert (r0 = r).
      { apply (NoDup_map_In_eq coordinates (locations dbm)); try assumption.
        + apply Hinvm.
        + congruence. }
      subst r0. rewrite E2 in E. inversion E; subst.
      cbn [data_address]. rewrite Hrpk. split; reflexivity.
    - exfalso. apply Hnot. rewrite <- Hrc. apply in_map, Hr.
    - exfalso. apply Hnot. rewrite <- Hrc. apply in_map, Hr. }
  destruct Hrows2 as [El2 Edb2].
  exists l1, db1, l2, db2.
  split; [exact E1|]. split; [exact E2|]. split; [exact Hpk|].
  split; [exact Hc1|]. split; [exact Hc2|]. split; [apply Hinv2|].
  split; [exact Hrows1|].
  split; [apply by_pk_NoDup; [apply Hinv1 | exact Hin1]|].
  split.
  { rewrite <- Hc1. apply filter_coordinates_stored; [apply Hinv1 | exact Hin1]. }
  split.
  { intros a ->. exact Ha1. }
  split.
  { exists r. split; [|split; [exact Hrc | exact El2]].
    rewrite <- Hrpk. apply by_pk_NoDup; [apply Hinvm | exact Hr]. }
  split; [exact Edb2|].
  split.
  { rewrite Edb2. cbn [locations set_locations].
    apply (save_row_map location_pk location_pk (locations dbm) r l2);
      [apply Hinvm | exact Hr | congruence | congruence]. }
  split; [apply by_pk_NoDup; [apply Hinv2 | exact Hin2]|].
  rewrite <- Hc2. apply filter_coordinates_stored; [apply Hinv2 | exact Hin2].
Qed.

End LocationProperties.

(** *** Shared Location records *)

Section SharedLocation.
Context {F : Type} {F_eq : FloatEq F} {schema : Schema}.

Lemma by_pk_save_row_cases (locs : list (LocationRow F)) (l l' : LocationRow F)
  (k : nat) :
  In l locs -> location_pk l' = location_pk l ->
  by_pk location_pk k (save_row location_pk l' locs)
  = if (k =? location_pk l)%nat then Some l' else by_pk location_pk k locs.
Proof.
  intros Hin Hpk. destruct (Nat.eqb_spec k (location_pk l)) as [->|NE].
  - apply by_pk_save_row; assumption.
  - apply by_pk_save_row_other. congruence.
Qed.

(** C9. [create] with coordinates that a Location record already has makes
    no new record: it assigns the submitted address to that record, which
    keeps its key, so every Profile and Listing that refers to the record
    reads the submitted address from then on. *)
Theorem Location_create_existing (db : DB F) (l : LocationRow F) (c : Point F)
  (a : option string) :
  objects_get (coordinates_match (Some c)) (locations db) = Ok l ->
  let l' := mkLocation (location_pk l) (Some c) (or_current a (address l)) in
  let db' := set_locations db (save_row location_pk l' (locations db)) in
  Location_create (mkLocationData (Some c) a) db = (Ok l', db')
  /\ List.length (locations db') = List.length (locations db)
  /\ (forall a0, a = Some a0 -> address l' = a0)
  /\ (forall k, by_pk location_pk k (locations db')
                = if (k =? location_pk l)%nat then Some l'
                  else by_pk location_pk k (locations db))
  /\ (forall p : ProfileRow,
        profile_location p = Some (location_pk l) ->
        Profile_location p db' = (Ok (Some l'), db'))
  /\ (forall li : ListingRow,
        listing_location li = location_pk l ->
        Listing_location li db' = (Ok l', db')).
Proof.
  intros Hget l' db'.
  destruct (objects_get_In _ _ _ Hget) as [Hin Hc].
  apply coordinates_match_true in Hc.
  assert (Hby : forall k, by_pk location_pk k (locations db')
                = if (k =? location_pk l)%nat then Some l'
                  else by_pk location_pk k (locations db)).
  { intros k. apply by_pk_save_row_cases; [exact Hin | reflexivity]. }
  split; [|split; [|split; [|split; [|split]]]].
  - unfold Location_create, bind. cbn [data_coordinates].
    unfold Location_get_or_create. rewrite Hget. cbn [fst].
    unfold Location_super_update, bind, ret, Location_save, pop_coordinates.
    cbn [data_coordinates data_address]. rewrite Hc. reflexivity.
  - apply (save_row_length location_pk (locations db) l l'); auto.
  - intros a0 ->. reflexivity.
  - exact Hby.
  - intros p Hp. unfold Profile_location. rewrite Hp, Hby, Nat.eqb_refl. reflexivity.
  - intros li Hli. unfold Listing_location. rewrite Hli, Hby, Nat.eqb_refl. reflexivity.
Qed.

(** Without coordinates in the payload, [update] of a record that has
    coordinates does not stay on that record: it looks for the record without
    coordinates, or tries to create it. *)
Lemma Location_update_without_coordinates (l : LocationRow F)
  (a : option string) (db : DB F) :
  coordinates l <> None ->
  Location_update l (mkLocationData None a) db
  = find_and_assign None (mkLocationData None a) db.
Proof. intros H. apply Location_update_other. exact H. Qed.

(** C10. A location payload that is present but empty is treated as an
    absent one, in [Profile.update] and in [Listing.update] alike: the result
    is that of the ordinary partial update of the other fields, the Location
    table is left as it was and the entity keeps its reference. *)
Theorem falsy_location_payload (location_data : LocationData F) :
  LocationData_truthy location_data = false ->
  (forall (profile : ProfileRow) n ab av (db : DB F),
     let with_payload := mkProfileData n ab av (Some location_data) in
     let without := mkProfileData n ab av None in
     Profile_update profile with_payload db = Profile_update profile without db
     /\ Profile_update profile with_payload db
        = Profile_super_update profile with_payload db
     /\ exists profile',
          Profile_update profile with_payload db
          = (Ok profile',
             set_profiles db (save_row profile_pk profile' (profiles db)))
          /\ profile_location profile' = profile_location profile
          /\ full_name profile' = or_current n (full_name profile)
          /\ about profile' = or_current ab (about profile)
          /\ avatar profile' = or_current av (avatar profile)
          /\ locations (snd (Profile_update profile with_payload db))
             = locations db)
  /\ (forall (listing : ListingRow) t de pr ca qu co (db : DB F),
        let with_payload := mkListingData t de pr ca qu co (Some location_data) in
        let without := mkListingData t de pr ca qu co None in
        Listing_update listing with_payload db = Listing_update listing without db
        /\ Listing_update listing with_payload db
           = Listing_super_update listing with_payload db
        /\ exists listing',
             Listing_update listing with_payload db
             = (Ok listing',
                set_listings db (save_row listing_pk listing' (listings db)))
             /\ listing_location listing' = listing_location listing
             /\ title listing' = or_current t (title listing)
             /\ price listing' = or_current pr (price listing)
             /\ locations (snd (Listing_update listing with_payload db))
                = locations db).
Proof.
  intros Hfalsy. split.
  - intros profile n ab av db with_payload without.
    unfold Profile_update. cbn [data_profile_location with_payload without].
    rewrite Hfalsy. split; [reflexivity|]. split; [reflexivity|].
    eexists. split; [reflexivity|]. cbn. auto.
  - intros listing t de pr ca qu co db with_payload without.
    unfold Listing_update. cbn [data_listing_location with_payload without].
    rewrite Hfalsy. split; [reflexivity|]. split; [reflexivity|].
    eexists. split; [reflexivity|]. cbn. auto 6.
Qed.

End SharedLocation.

(** *** CategoryField *)

Section CategoryProperties.
Context {F : Type} {schema : Schema}.

Lemma is_leaf_node_false (c : CategoryRow) (rows : list CategoryRow) :
  is_leaf_node c rows = false <->
  exists child, In child rows /\ category_parent child = Some (category_pk c).
Proof.
  unfold is_leaf_node. rewrite negb_false_iff, existsb_exists.
  split; intros (child & Hin & H); exists child; split; auto.
  - destruct (category_parent child) as [k|]; [|discriminate].
    apply Nat.eqb_eq in H. congruence.
  - rewrite H. apply Nat.eqb_refl.
Qed.

(** C8. Category parse: when no category has exactly the name given, it
    fails with the validation error "Category doesn't exist."; when the
    category with that name has a child, it fails with the validation error
    "Category should be at lowest level."; otherwise it returns that
    category, a leaf.  The database is left as it was. *)
Theorem CategoryField_to_internal_value_cases (name : string) (db : DB F) :
  let named := fun c => String.eqb (category_name c) name in
  ((forall c, In c (categories db) -> category_name c <> name) ->
   CategoryField_to_internal_value name db
   = (Raise (ValidationError "Category doesn't exist."), db))
  /\ (forall c,
        filter named (categories db) = [c] ->
        (exists child, In child (categories db)
                       /\ category_parent child = Some (category_pk c)) ->
        CategoryField_to_internal_value name db
        = (Raise (ValidationError "Category should be at lowest level."), db))
  /\ (forall c,
        filter named (categories db) = [c] ->
        (forall child, In child (categories db) ->
                       category_parent child <> Some (category_pk c)) ->
        CategoryField_to_internal_value name db = (Ok c, db)
        /\ category_name c = name).
Proof.
  intros named. unfold CategoryField_to_internal_value.
  split; [|split].
  - intros Hnone. rewrite objects_get_none; [reflexivity|].
    intros c Hin. apply String.eqb_neq, Hnone, Hin.
  - intros c Hc Hchild. unfold objects_get. fold named. rewrite Hc.
    cbn [try_except_raise].
    rewrite (proj2 (is_leaf_node_false c (categories db)) Hchild). reflexivity.
  - intros c Hc Hleaf. unfold objects_get. fold named. rewrite Hc.
    cbn [try_except_raise].
    destruct (is_leaf_node c (categories db)) eqn:E.
    + split; [reflexivity|].
      assert (Hin : In c (filter named (categories db)))
        by (rewrite Hc; left; reflexivity).
      apply filter_In in Hin. apply String.eqb_eq, Hin.
    + apply is_leaf_node_false in E. destruct E as (child & Hin & Hp).
      exfalso. apply (Hleaf child Hin Hp).
Qed.

End CategoryProperties.

(** *** Chat *)

Section ChatProperties.
Context {F : Type} {schema : Schema}.

Lemma Chat_matches_self (c : ChatRow) :
  Chat_matches (creator c) (interlocutor c) (chat_listing c) c = true.
Proof. unfold Chat_matches. rewrite !Nat.eqb_refl. reflexivity. Qed.

Lemma get_object_or_404_raises {R} (matches : R -> bool) (rows : list R) (e : exn) :
  get_object_or_404 matches rows = Raise e ->
  e = Http404 \/ e = MultipleObjectsReturned.
Proof.
  unfold get_object_or_404, try_except_raise.
  destruct (objects_get matches rows) as [r|e'] eqn:E; [discriminate|].
  apply objects_get_raises in E. destruct E as [[-> _]| ->]; cbn; intros H;
    inversion H; auto.
Qed.

(** When [create] returns a Chat, the same call on the database it left
    returns that Chat again and changes nothing. *)
Lemma Chat_create_twice (viewer : nat) (val_data : ChatData)
  (db db1 : DB F) (chat : ChatRow) :
  Chat_create viewer val_data db = (Ok chat, db1) ->
  Chat_create viewer val_data db1 = (Ok chat, db1)
  /\ exists profile listing,
       get_object_or_404 (fun p => profile_uuid p =? to_uuid val_data)
         (profiles db) = Ok profile
       /\ get_object_or_404 (fun l => listing_uuid l =? data_listing_uuid val_data)
            (listings db) = Ok listing
       /\ creator chat = viewer
       /\ interlocutor chat = profile_user profile
       /\ chat_listing chat = listing_pk listing
       /\ filter (Chat_matches viewer (profile_user profile) (listing_pk listing))
            (chats db1) = [chat]
       /\ ((filter (Chat_matches viewer (profile_user profile) (listing_pk listing))
              (chats db) = []
            /\ subject chat = title listing
            /\ chats db1 = chats db ++ [chat])
           \/ (filter (Chat_matches viewer (profile_user profile) (listing_pk listing))
                 (chats db) = [chat]
               /\ db1 = db)).
Proof.
  unfold Chat_create, bind.
  destruct (get_object_or_404 _ (profiles db)) as [profile|e] eqn:Ep;
    [|discriminate].
  destruct (get_object_or_404 _ (listings db)) as [listing|e] eqn:El;
    [|discriminate].
  unfold Chat_get_or_create.
  destruct (objects_get _ (chats db)) as [c|e] eqn:Ec.
  - (* the Chat exists *)
    cbn [fst snd ret]. intros H. inversion H. subst c db1. clear H.
    rewrite Ep, El, Ec. cbn [fst snd ret]. split; [reflexivity|].
    exists profile, listing.
    pose proof (objects_get_Ok _ _ _ Ec) as Hf.
    destruct (objects_get_In _ _ _ Ec) as [_ Hm].
    unfold Chat_matches in Hm.
    apply andb_prop in Hm. destruct Hm as [Hm H3].
    apply andb_prop in Hm. destruct Hm as [H1 H2].
    apply Nat.eqb_eq in H1, H2, H3. auto 10.
  - (* the Chat is created *)
    apply objects_get_raises in Ec. destruct Ec as [[-> Hnil]| ->]; [|discriminate].
    cbn [is_DoesNotExist fst snd chat_pk creator interlocutor chat_listing].
    unfold Chat_save, ret. cbn [chats set_chats].
    rewrite (save_row_appended chat_pk) by reflexivity.
    intros H. inversion H. subst chat db1. clear H.
    set (new := mkChat (next_pk chat_pk (chats db)) viewer (profile_user profile)
                  (listing_pk listing) (title listing)).
    cbn [profiles listings chats].
    assert (Hf : filter (Chat_matches viewer (profile_user profile)
                           (listing_pk listing)) (chats db ++ [new]) = [new]).
    { rewrite filter_app, Hnil. cbn [filter app].
      change (Chat_matches viewer (profile_user profile) (listing_pk listing) new)
        with (Chat_matches (creator new) (interlocutor new) (chat_listing new) new).
      rewrite Chat_matches_self. reflexivity. }
    cbn [profiles listings chats set_chats].
    rewrite Ep, El. unfold objects_get. rewrite Hf. cbn [fst snd].
    split; [reflexivity|].
    exists profile, listing. repeat split; auto.
Qed.

Lemma Chat_create_succeeds (viewer : nat) (val_data : ChatData) (db : DB F)
  (profile : ProfileRow) (listing : ListingRow) :
  get_object_or_404 (fun p => profile_uuid p =? to_uuid val_data)
    (profiles db) = Ok profile ->
  get_object_or_404 (fun l => listing_uuid l =? data_listing_uuid val_data)
    (listings db) = Ok listing ->
  (List.length (filter (Chat_matches viewer (profile_user profile)
                          (listing_pk listing)) (chats db)) <= 1)%nat ->
  exists chat db1, Chat_create viewer val_data db = (Ok chat, db1).
Proof.
  intros Hp Hl Hu. unfold Chat_create, bind. rewrite Hp, Hl.
  unfold Chat_get_or_create, objects_get.
  destruct (filter _ (chats db)) as [|c [|c' rest]].
  - cbn [is_DoesNotExist fst snd]. unfold Chat_save, ret. eauto.
  - cbn [fst snd]. unfold ret. eauto.
  - cbn [List.length] in Hu. lia.
Qed.

(** C3. Chat [create] finds or creates by (creator, interlocutor, listing).
    For a viewer, a target person and a listing that exist, with at most one
    Chat stored for their triple, [create] returns a Chat, and calling it
    again returns that same Chat and changes nothing: the Chat is then the
    only one for the triple.  The subject is written on creation only: the
    call that creates the Chat sets its subject to the listing's title, the
    call that finds it returns it as stored and leaves the database alone. *)
Theorem Chat_create_idempotent (viewer : nat) (val_data : ChatData) (db : DB F)
  (profile : ProfileRow) (listing : ListingRow) :
  get_object_or_404 (fun p => profile_uuid p =? to_uuid val_data)
    (profiles db) = Ok profile ->
  get_object_or_404 (fun l => listing_uuid l =? data_listing_uuid val_data)
    (listings db) = Ok listing ->
  (List.length (filter (Chat_matches viewer (profile_user profile)
                          (listing_pk listing)) (chats db)) <= 1)%nat ->
  exists chat db1,
    Chat_create viewer val_data db = (Ok chat, db1)
    /\ Chat_create viewer val_data db1 = (Ok chat, db1)
    /\ creator chat = viewer
    /\ interlocutor chat = profile_user profile
    /\ chat_listing chat = listing_pk listing
    /\ filter (Chat_matches viewer (profile_user profile) (listing_pk listing))
         (chats db1) = [chat]
    /\ ((filter (Chat_matches viewer (profile_user profile) (listing_pk listing))
           (chats db) = []
         /\ subject chat = title listing
         /\ chats db1 = chats db ++ [chat])
        \/ (filter (Chat_matches viewer (profile_user profile) (listing_pk listing))
              (chats db) = [chat]
            /\ db1 = db)).
Proof.
  intros Hp Hl Hu.
  destruct (Chat_create_succeeds viewer val_data db profile listing Hp Hl Hu)
    as (chat & db1 & Hfirst).
  destruct (Chat_create_twice viewer val_data db db1 chat Hfirst)
    as (Hsecond & profile' & listing' & Hp' & Hl' & Hrest).
  rewrite Hp in Hp'. rewrite Hl in Hl'.
  inversion Hp'. inversion Hl'. subst profile' listing'.
  exists chat, db1. tauto.
Qed.

End ChatProperties.

(** *** User *)

Lemma find_app_last {A} (f : A -> bool) (l : list A) (y : A) :
  (forall a, In a l -> f a = false) -> f y = true ->
  find f (l ++ [y]) = Some y.
Proof.
  intros Hl Hy. induction l as [|a l IH]; cbn [app find].
  - rewrite Hy. reflexivity.
  - rewrite (Hl a) by (left; reflexivity).
    apply IH. intros b Hb. apply Hl. right. exact Hb.
Qed.

Section UserProperties.
Context {F : Type} {schema : Schema}.

(** C2. Account creation is bound to the device token.  When a Device has
    the submitted [fcm_id] (and an owning Account), [create] sets that Device
    active with a failure count of zero, saves it and returns its owner:
    nothing of the submitted email, password or name is stored and the
    Account and Profile tables are unchanged.  When no Device has the token
    (every Profile belonging to an existing Account), [create] inserts a new
    Device with the token, a new Account bound to it with the submitted
    email, and that Account's Profile carries the submitted full name. *)
Theorem User_create_device_bound (validated_data : UserData) (db : DB F) :
  let token := data_fcm_id validated_data in
  (forall d u,
      objects_get (fun d => String.eqb (fcm_id d) token) (devices db) = Ok d ->
      Device_owner d db = (Ok u, db) ->
      let d' := mkDevice (device_pk d) token true 0 in
      let db' := set_devices db (save_row device_pk d' (devices db)) in
      User_create validated_data db = (Ok u, db')
      /\ In u (users db)
      /\ user_device u = device_pk d
      /\ users db' = users db
      /\ profiles db' = profiles db
      /\ by_pk device_pk (device_pk d) (devices db') = Some d'
      /\ List.length (devices db') = List.length (devices db))
  /\ ((forall d, In d (devices db) -> fcm_id d <> token) ->
      (forall p, In p (profiles db) ->
                 exists u, In u (users db) /\ user_pk u = profile_user p) ->
      exists u d p db',
        User_create validated_data db = (Ok u, db')
        /\ user_pk u = next_pk user_pk (users db)
        /\ email u = data_email validated_data
        /\ password u = make_password (data_password validated_data)
        /\ user_device u = device_pk d
        /\ fcm_id d = token
        /\ devices db' = devices db ++ [d]
        /\ users db' = users db ++ [u]
        /\ profiles db' = profiles db ++ [p]
        /\ profile_user p = user_pk u
        /\ full_name p = data_user_full_name validated_data
        /\ User_profile u db' = (Ok p, db')).
Proof.
  intros token. split.
  - intros d u Hget Hown d' db'.
    destruct (objects_get_In _ _ _ Hget) as [Hin Hm].
    apply String.eqb_eq in Hm.
    unfold Device_owner in Hown.
    destruct (find _ (users db)) as [u0|] eqn:Efind; [|discriminate].
    inversion Hown. subst u0. clear Hown.
    pose proof (find_some _ _ Efind) as [Hu Hdev]. apply Nat.eqb_eq in Hdev.
    split; [|repeat split; auto].
    + unfold User_create, atomic, bind, Device_get_or_create. fold token.
      rewrite Hget. cbn [fst snd negb]. unfold Device_save, Device_owner.
      cbn [users set_devices device_pk]. rewrite Efind, Hm. reflexivity.
    + apply (by_pk_save_row device_pk (devices db) d d'); auto.
    + apply (save_row_length device_pk (devices db) d d'); auto.
  - intros Hnone Hfk.
    unfold User_create, atomic, bind, Device_get_or_create. fold token.
    rewrite objects_get_none
      by (intros d Hd; apply String.eqb_neq, Hnone, Hd).
    cbn [is_DoesNotExist fst snd negb].
    unfold create_user, User_profile, Profile_save, ret.
    cbn [users profiles devices set_devices set_users set_profiles user_pk].
    set (d := mkDevice (next_pk device_pk (devices db)) token
                device_is_active_default device_fails_count_default).
    set (u := mkUser (next_pk user_pk (users db)) (data_email validated_data)
                (make_password (data_password validated_data)) (device_pk d)).
    set (p0 := mkProfile (next_pk profile_pk (profiles db))
                 (uuid4 (next_pk profile_pk (profiles db)))
                 (next_pk user_pk (users db)) profile_text_default
                 profile_text_default profile_text_default None).
    assert (Hold : forall q, In q (profiles db) ->
                     (profile_user q =? next_pk user_pk (users db))%nat = false).
    { intros q Hq. destruct (Hfk q Hq) as (u0 & Hu0 & E).
      apply (next_pk_gt user_pk) in Hu0. apply Nat.eqb_neq. lia. }
    rewrite (find_app_last _ (profiles db) p0 Hold) by apply Nat.eqb_refl.
    cbn [profiles set_profiles].
    rewrite (save_row_appended profile_pk) by reflexivity.
    exists u, d, (set_full_name p0 (data_user_full_name validated_data)).
    eexists. split; [reflexivity|].
    cbn [devices users profiles].
    repeat split.
    cbn [profiles set_profiles user_pk u].
    rewrite (find_app_last _ (profiles db)); [reflexivity | exact Hold |].
    apply Nat.eqb_refl.
Qed.

End UserProperties.

(** *** The coordinate codec on Python floats *)

Example float_samples :
  map float_repr
    [float_of_dyadic 59 0; float_of_dyadic (-61) (-1); float_of_dyadic 1 (-1074);
     decimal_to_float false 1 16; decimal_to_float false 1 (-5);
     decimal_to_float false 1 (-1); S754_zero true; S754_infinity true; S754_nan]
  = ["59.0"; "-30.5"; "5e-324"; "1e+16"; "1e-05"; "0.1"; "-0.0"; "-inf"; "nan"]%string
  /\ map float_from_string
       ["59.0"; " 59 "; "-30.5"; "1_0.5e+0"; "+.5"; "5."; "INF"; "-nan"]%string
     = [Some (float_of_dyadic 59 0); Some (float_of_dyadic 59 0);
        Some (float_of_dyadic (-61) (-1)); Some (float_of_dyadic 21 (-1));
        Some (float_of_dyadic 1 (-1)); Some (float_of_dyadic 5 0);
        Some (S754_infinity false); Some S754_nan]
  /\ map float_from_string
       [""; "."; "x"; "1e"; "1__0"; "_1"; "1_"; "0x10"; "1 2"; "- 1";
        String "028" "1"; String "1" (String "031" "")]%string
     = [None; None; None; None; None; None; None; None; None; None; None; None].
Proof. split; [|split]; vm_compute; reflexivity. Qed.

Example PointField_samples :
  PointField_to_representation
    (mkPoint (decimal_to_float false 599386 (-4)) (decimal_to_float true 3005 (-2)))
  = "59.9386, -30.05"%string
  /\ PointField_to_internal_value (F := binary64) "59.9386, -30.05"
     = Ok (mkPoint (decimal_to_float false 599386 (-4))
             (decimal_to_float true 3005 (-2)))
  /\ PointField_to_internal_value (F := binary64) " 59 ,30.5 "
     = Ok (mkPoint (float_of_dyadic 59 0) (float_of_dyadic 61 (-1)))
  /\ PointField_to_internal_value (F := binary64) "nan, inf"
     = Ok (mkPoint S754_nan (S754_infinity false))
  /\ PointField_to_internal_value (F := binary64) "59; 30"
     = Raise (ValidationError "Required format: 'latitude, longitude'.")
  /\ PointField_to_internal_value (F := binary64) "59,x"
     = Raise (ValidationError "Required format: 'latitude, longitude'.")
  /\ PointField_to_internal_value (F := binary64) (String "028" "1,2")
     = Raise (ValidationError "Required format: 'latitude, longitude'.").
Proof. repeat (split; [vm_compute; reflexivity|]). vm_compute; reflexivity. Qed.

(** Floats of every kind read back, NaN apart. *)
Example reads_back_samples :
  forallb (reads_back (F := binary64))
    [float_of_dyadic 59 0; float_of_dyadic (-61) (-1);
     decimal_to_float false 599386 (-4); decimal_to_float true 3005 (-2);
     decimal_to_float false 1 (-1); decimal_to_float false 1 22;
     decimal_to_float true 17976931348623157 292;
     float_of_dyadic 1 (-1074); float_of_dyadic 1 (-1022);
     float_of_dyadic 9007199254740993 0;
     S754_zero false; S754_zero true; S754_infinity false; S754_infinity true]
  = true
  /\ reads_back (F := binary64) S754_nan = false.
Proof. split; vm_compute; reflexivity. Qed.

(** *** The properties on concrete data *)

Lemma Base64UUIDField_roundtrip_witness :
  UUID_valid 0x00112233445566778899aabbccddeeff
  /\ Base64UUIDField_to_internal_value
       (DataText (Base64UUIDField_to_representation
                    0x00112233445566778899aabbccddeeff))
     = Ok 0x00112233445566778899aabbccddeeff.
Proof.
  split; [unfold UUID_valid; lia|].
  apply (Base64UUIDField_roundtrip 0x00112233445566778899aabbccddeeff).
  unfold UUID_valid. lia.
Defined.

Lemma Base64UUIDField_to_internal_value_errors_witness :
  malformed_token "not a uuid!" = true
  /\ Base64UUIDField_to_internal_value (DataText "not a uuid!") = Raise NotFound.
Proof.
  split; [reflexivity|].
  apply (proj1 (proj2 Base64UUIDField_to_internal_value_errors)).
  reflexivity.
Defined.



(** No point with a NaN coordinate survives the round trip. *)
Lemma PointField_nan_never_roundtrips (v : binary64) :
  PointField_roundtrips (mkPoint S754_nan v) = false
  /\ PointField_roundtrips (mkPoint v S754_nan) = false.
Proof.
  rewrite !PointField_roundtrips_spec. cbn [x y].
  assert (Hnan : reads_back (F := binary64) S754_nan = false)
    by (vm_compute; reflexivity).
  rewrite Hnan, andb_false_r. split; reflexivity.
Qed.

(** C1. [update] with a payload that has no coordinates, on a record that has
    some: the record is not updated in place.  Where a Location must have
    coordinates the call raises [IntegrityError]; where it need not, the
    address goes to a new record without coordinates and the record the
    update was applied to keeps its old address. *)
Theorem Location_update_without_coordinates_replaces :
  let l := mkLocation 1 (Some (mkPoint 59 30)) "Nevsky 1" in
  let db := set_locations empty_DB [l] in
  let d := mkLocationData None (Some "Nevsky 10"%string) in
  Location_update (schema := schema_not_null) l d db = (Raise IntegrityError, db)
  /\ Location_update (schema := schema_null) l d db
     = (Ok (mkLocation 2 None "Nevsky 10"),
        set_locations db [l; mkLocation 2 None "Nevsky 10"]).
Proof. split; reflexivity. Qed.

Lemma Location_create_existing_witness :
  objects_get (coordinates_match (Some (mkPoint 59 30)))
    [mkLocation 1 (Some (mkPoint 59 30)) "Nevsky 1";
     mkLocation 2 (Some (mkPoint 55 37)) "Arbat 2"]
  = Ok (mkLocation 1 (Some (mkPoint 59 30)) "Nevsky 1")
  /\ Location_create (schema := schema_not_null)
       (mkLocationData (Some (mkPoint 59 30)) (Some "Nevsky 10"%string))
       (set_locations empty_DB
          [mkLocation 1 (Some (mkPoint 59 30)) "Nevsky 1";
           mkLocation 2 (Some (mkPoint 55 37)) "Arbat 2"])
     = (Ok (mkLocation 1 (Some (mkPoint 59 30)) "Nevsky 10"),
        set_locations empty_DB
          [mkLocation 1 (Some (mkPoint 59 30)) "Nevsky 10";
           mkLocation 2 (Some (mkPoint 55 37)) "Arbat 2"]).
Proof.
  split; [reflexivity|].
  exact (proj1 (Location_create_existing (schema := schema_not_null)
                  (set_locations empty_DB
                     [mkLocation 1 (Some (mkPoint 59 30)) "Nevsky 1";
                      mkLocation 2 (Some (mkPoint 55 37)) "Arbat 2"])
                  (mkLocation 1 (Some (mkPoint 59 30)) "Nevsky 1")
                  (mkPoint 59 30) (Some "Nevsky 10"%string) eq_refl)).
Defined.

Lemma falsy_location_payload_witness :
  LocationData_truthy (mkLocationData (F := Z) None None) = false
  /\ Profile_update (schema := schema_not_null)
       (mkProfile 1 7 1 "Ann" "" "" (Some 1%nat))
       (mkProfileData None (Some "hello"%string) None
          (Some (mkLocationData None None)))
       (set_profiles
          (set_locations empty_DB [mkLocation 1 (Some (mkPoint 59 30)) "Nevsky 1"])
          [mkProfile 1 7 1 "Ann" "" "" (Some 1%nat)])
     = Profile_update (schema := schema_not_null)
         (mkProfile 1 7 1 "Ann" "" "" (Some 1%nat))
         (mkProfileData None (Some "hello"%string) None None)
         (set_profiles
            (set_locations empty_DB [mkLocation 1 (Some (mkPoint 59 30)) "Nevsky 1"])
            [mkProfile 1 7 1 "Ann" "" "" (Some 1%nat)]).
Proof.
  split; [reflexivity|].
  exact (proj1 (proj1 (falsy_location_payload (schema := schema_not_null)
                         (mkLocationData None None) eq_refl)
                  (mkProfile 1 7 1 "Ann" "" "" (Some 1%nat))
                  None (Some "hello"%string) None
                  (set_profiles
                     (set_locations empty_DB
                        [mkLocation 1 (Some (mkPoint 59 30)) "Nevsky 1"])
                     [mkProfile 1 7 1 "Ann" "" "" (Some 1%nat)]))).
Defined.

Lemma CategoryField_to_internal_value_cases_witness :
  CategoryField_to_internal_value (F := Z) "Bikes"
    (mkDB [] [] [] []
       [mkCategory 1 "Transport" None; mkCategory 2 "Bikes" (Some 1%nat)] [] [])
  = (Ok (mkCategory 2 "Bikes" (Some 1%nat)),
     mkDB [] [] [] []
       [mkCategory 1 "Transport" None; mkCategory 2 "Bikes" (Some 1%nat)] [] [])
  /\ CategoryField_to_internal_value (F := Z) "Transport"
       (mkDB [] [] [] []
          [mkCategory 1 "Transport" None; mkCategory 2 "Bikes" (Some 1%nat)] [] [])
     = (Raise (ValidationError "Category should be at lowest level."),
        mkDB [] [] [] []
          [mkCategory 1 "Transport" None; mkCategory 2 "Bikes" (Some 1%nat)] [] []).
Proof.
  split.
  - apply (proj2 (proj2 (CategoryField_to_internal_value_cases (F := Z) "Bikes"
             (mkDB [] [] [] []
                [mkCategory 1 "Transport" None; mkCategory 2 "Bikes" (Some 1%nat)]
                [] [])))
             (mkCategory 2 "Bikes" (Some 1%nat)) eq_refl).
    intros child [<-|[<-|[]]]; discriminate.
  - apply (proj1 (proj2 (CategoryField_to_internal_value_cases (F := Z) "Transport"
             (mkDB [] [] [] []
                [mkCategory 1 "Transport" None; mkCategory 2 "Bikes" (Some 1%nat)]
                [] [])))
             (mkCategory 1 "Transport" None) eq_refl).
    exists (mkCategory 2 "Bikes" (Some 1%nat)). split; [right; left|]; reflexivity.
Defined.

Lemma Chat_create_idempotent_witness :
  exists chat db1,
    Chat_create (F := Z) (schema := schema_not_null) 1 (mkChatData 7 9)
      (mkDB [] [mkProfile 1 7 2 "Bob" "" "" None] [] [] []
         [mkListing 1 9 "Bike" "" 100 1 1 true 1 2] [])
    = (Ok chat, db1)
    /\ Chat_create (F := Z) (schema := schema_not_null) 1 (mkChatData 7 9) db1
       = (Ok chat, db1)
    /\ subject chat = "Bike"%string.
Proof.
  destruct (Chat_create_idempotent (F := Z) (schema := schema_not_null)
              1 (mkChatData 7 9)
              (mkDB [] [mkProfile 1 7 2 "Bob" "" "" None] [] [] []
                 [mkListing 1 9 "Bike" "" 100 1 1 true 1 2] [])
              (mkProfile 1 7 2 "Bob" "" "" None)
              (mkListing 1 9 "Bike" "" 100 1 1 true 1 2)
              eq_refl eq_refl (le_S 0 0 (le_n 0)))
    as (chat & db1 & H1 & H2 & _ & _ & _ & _ & [(_ & Hs & _)|(Hf & _)]).
  - exists chat, db1. auto.
  - discriminate Hf.
Defined.

Lemma User_create_device_bound_witness :
  User_create (F := Z) (schema := schema_not_null)
    (mkUserData "Eve" "eve@example.org" "secret" "token-1")
    (mkDB [] [mkProfile 1 7 1 "Ann" "" "" None]
       [mkDevice 1 "token-1" false 3] [mkUser 1 "ann@example.org" "h" 1]
       [] [] [])
  = (Ok (mkUser 1 "ann@example.org" "h" 1),
     mkDB [] [mkProfile 1 7 1 "Ann" "" "" None]
       [mkDevice 1 "token-1" true 0] [mkUser 1 "ann@example.org" "h" 1]
       [] [] []).
Proof.
  exact (proj1 (proj1 (User_create_device_bound (F := Z) (schema := schema_not_null)
                         (mkUserData "Eve" "eve@example.org" "secret" "token-1")
                         (mkDB [] [mkProfile 1 7 1 "Ann" "" "" None]
                            [mkDevice 1 "token-1" false 3]
                            [mkUser 1 "ann@example.org" "h" 1] [] [] []))
                  (mkDevice 1 "token-1" false 3)
                  (mkUser 1 "ann@example.org" "h" 1) eq_refl eq_refl)).
Defined.

Example User_create_new_device :
  User_create (F := Z) (schema := schema_not_null)
    (mkUserData "Eve" "eve@example.org" "secret" "token-2")
    (mkDB [] [mkProfile 1 7 1 "Ann" "" "" None]
       [mkDevice 1 "token-1" false 3] [mkUser 1 "ann@example.org" "h" 1]
       [] [] [])
  = (Ok (mkUser 2 "eve@example.org" "hashed:secret" 2),
     mkDB [] [mkProfile 1 7 1 "Ann" "" "" None; mkProfile 2 2 2 "Eve" "" "" None]
       [mkDevice 1 "token-1" false 3; mkDevice 2 "token-2" true 0]
       [mkUser 1 "ann@example.org" "h" 1;
        mkUser 2 "eve@example.org" "hashed:secret" 2]
       [] [] []).
Proof. reflexivity. Qed.

(** ** Part III: further properties of the serializers *)

(** *** Base64UUIDField: tokens *)

Lemma length_string_of_list_ascii (l : list ascii) :
  String.length (string_of_list_ascii l) = List.length l.
Proof. induction l as [|c l IH]; cbn; congruence. Qed.

Lemma length_urlsafe_base64_encode (data : bytes) :
  Forall is_byte data ->
  List.length (urlsafe_base64_encode data)
  = ((4 * List.length data + 2) / 3)%nat.
Proof.
  induction data as [| a | a b | a b c rest IH] using list_ind3; intros Hall.
  - reflexivity.
  - inversion_clear Hall as [|? ? Ha _]. rewrite encode_one by assumption.
    reflexivity.
  - inversion_clear Hall as [|? ? Ha Hall']. inversion_clear Hall' as [|? ? Hb _].
    rewrite encode_two by assumption. reflexivity.
  - inversion_clear Hall as [|? ? Ha Hall'].
    inversion_clear Hall' as [|? ? Hb Hall''].
    inversion_clear Hall'' as [|? ? Hc Hrest].
    rewrite encode_three by assumption. cbn [List.length].
    rewrite (IH Hrest).
    replace (4 * S (S (S (List.length rest))) + 2)%nat
      with ((4 * List.length rest + 2) + 4 * 3)%nat by lia.
    rewrite Nat.div_add by discriminate. lia.
Qed.

Lemma Ok_inj {A} (a b : A) : Ok a = Ok b -> a = b.
Proof. intros H. inversion H. reflexivity. Qed.

(** X1. Identifier tokens: the token of every 128-bit identifier has exactly
    22 characters, and two identifiers with the same token are equal. *)
Theorem Base64UUIDField_token_length_injective (u v : UUID) :
  UUID_valid u -> UUID_valid v ->
  String.length (Base64UUIDField_to_representation u) = 22%nat
  /\ (Base64UUIDField_to_representation u = Base64UUIDField_to_representation v
      -> u = v).
Proof.
  intros Hu Hv. unfold Base64UUIDField_to_representation. split.
  - rewrite length_string_of_list_ascii, length_urlsafe_base64_encode
      by apply int_to_bytes_is_byte.
    unfold UUID_bytes. rewrite int_to_bytes_length. reflexivity.
  - intros E.
    apply (f_equal list_ascii_of_string) in E.
    rewrite !list_ascii_of_string_of_list_ascii in E.
    apply (f_equal urlsafe_base64_decode) in E.
    rewrite !urlsafe_base64_roundtrip in E by apply int_to_bytes_is_byte.
    apply Ok_inj in E.
    apply (f_equal UUID_of_bytes) in E.
    rewrite !UUID_of_bytes_bytes in E by assumption.
    apply Ok_inj, E.
Qed.

(** *** Base64UUIDField: what decoding accepts *)

Lemma index_of_range (c : ascii) (l : list ascii) (i v : Z) :
  index_of c l i = Some v -> i <= v < i + Z.of_nat (List.length l).
Proof.
  revert i. induction l as [|d l IH]; intros i; cbn [index_of List.length].
  - discriminate.
  - destruct (Ascii.eqb c d).
    + intros H. inversion H. lia.
    + intros H. apply IH in H. lia.
Qed.

Lemma table_a2b_base64_range (c : ascii) (v : Z) :
  table_a2b_base64 c = Some v -> 0 <= v < 64.
Proof. intros H. apply index_of_range in H. cbn in H. lia. Qed.

Lemma byte_ok_spec (n : Z) : byte_ok n = true -> is_byte n.
Proof. unfold byte_ok, is_byte. intros H. apply andb_prop in H. lia. Qed.

Lemma decoded_bits (lc v : Z) :
  0 <= lc < 64 -> 0 <= v < 64 ->
  is_byte (Z.lor (Z.shiftl lc 2) (Z.shiftr v 4))
  /\ 0 <= Z.land v 15 < 16
  /\ 0 <= Z.land v 3 < 4
  /\ (lc < 16 -> is_byte (Z.lor (Z.shiftl lc 4) (Z.shiftr v 2)))
  /\ (lc < 4 -> is_byte (Z.lor (Z.shiftl lc 6) v)).
Proof.
  intros Hlc Hv.
  pose (p := fun lc v =>
    byte_ok (Z.lor (Z.shiftl lc 2) (Z.shiftr v 4))
    && byte_ok (Z.land v 15) && (Z.land v 15 <? 16)
    && byte_ok (Z.land v 3) && (Z.land v 3 <? 4)
    && (negb (lc <? 16) || byte_ok (Z.lor (Z.shiftl lc 4) (Z.shiftr v 2)))
    && (negb (lc <? 4) || byte_ok (Z.lor (Z.shiftl lc 6) v))).
  assert (Hp : p lc v = true).
  { apply (forall_below2_spec 64 64 p); [vm_compute; reflexivity | | ]; lia. }
  unfold p, byte_ok in Hp.
  rewrite ?andb_true_iff, ?orb_true_iff, ?negb_true_iff, ?Z.leb_le, ?Z.ltb_lt,
    ?Z.ltb_ge in Hp.
  unfold is_byte. intuition lia.
Qed.

Lemma Forall_app_one {A} (P : A -> Prop) (l : list A) (a : A) :
  Forall P l -> P a -> Forall P (l ++ [a]).
Proof. intros Hl Ha. apply Forall_app. split; [exact Hl | constructor; [exact Ha | constructor]]. Qed.

(** The decoding loop only ever writes octets. *)
Lemma a2b_loop_bytes (cs : list ascii) :
  forall q lc p out res,
    quad_state q lc -> Forall is_byte out ->
    a2b_loop cs q lc p out = Ok res -> Forall is_byte res.
Proof.
  induction cs as [|c cs IH]; intros q lc p out res Hq Hout; cbn [a2b_loop].
  - destruct (q =? 0); [|discriminate]. intros H. inversion H. subst. exact Hout.
  - destruct (Ascii.eqb c BASE64_PAD).
    + destruct (q >=? 2).
      * destruct (q + (p + 1) >=? 4).
        -- intros H. inversion H. subst. exact Hout.
        -- apply IH; assumption.
      * apply IH; assumption.
    + destruct (table_a2b_base64 c) as [v|] eqn:Ev; [|apply IH; assumption].
      apply table_a2b_base64_range in Ev.
      destruct Hq as [-> | [[-> Hlc] | [[-> Hlc] | [-> Hlc]]]]; cbn [Z.eqb Pos.eqb].
      * apply IH; [|exact Hout]. right. left. auto.
      * destruct (decoded_bits lc v Hlc Ev) as (H1 & H2 & _).
        apply IH; [|apply Forall_app_one; assumption].
        right. right. left. auto.
      * assert (Hlc' : 0 <= lc < 64) by lia.
        destruct (decoded_bits lc v Hlc' Ev) as (_ & _ & H3 & H4 & _).
        apply IH; [|apply Forall_app_one; [assumption | apply H4; lia]].
        right. right. right. auto.
      * assert (Hlc' : 0 <= lc < 64) by lia.
        destruct (decoded_bits lc v Hlc' Ev) as (_ & _ & _ & _ & H5).
        apply IH; [|apply Forall_app_one; [assumption | apply H5; lia]].
        left. reflexivity.
Qed.

Lemma urlsafe_base64_decode_bytes (s : list ascii) (b : bytes) :
  urlsafe_base64_decode s = Ok b -> Forall is_byte b.
Proof.
  unfold urlsafe_base64_decode, urlsafe_b64decode, a2b_base64, try_except_raise.
  destruct (a2b_loop _ 0 0 0 []) as [b'|e] eqn:E.
  - intros H. inversion H. subst b'.
    apply (a2b_loop_bytes _ _ _ _ _ _ (or_introl eq_refl) (Forall_nil _) E).
  - destruct (is_LookupError_or_BinasciiError e); discriminate.
Qed.

Lemma int_from_bytes_acc_bound (b : bytes) :
  Forall is_byte b ->
  forall acc, 0 <= acc ->
    0 <= fold_left (fun acc x => Z.lor (Z.shiftl acc 8) x) b acc
      < (acc + 1) * 256 ^ Z.of_nat (List.length b).
Proof.
  induction 1 as [|x b Hx Hb IH]; intros acc Hacc; cbn [fold_left List.length].
  - change (256 ^ Z.of_nat 0) with 1. lia.
  - rewrite lor_shiftl_byte by exact Hx.
    destruct Hx as [Hx0 Hx1].
    specialize (IH (acc * 256 + x) ltac:(lia)).
    rewrite Nat2Z.inj_succ, Z.pow_succ_r by lia.
    assert (Hpow : 0 < 256 ^ Z.of_nat (List.length b))
      by (apply Z.pow_pos_nonneg; lia).
    split; [lia|].
    apply Z.lt_le_trans with (1 := proj2 IH). nia.
Qed.

Lemma UUID_of_bytes_valid (b : bytes) (u : UUID) :
  Forall is_byte b -> UUID_of_bytes b = Ok u -> UUID_valid u.
Proof.
  intros Hb. unfold UUID_of_bytes, int_from_bytes.
  destruct (Nat.eqb_spec (List.length b) 16) as [Hlen|]; [|discriminate].
  intros H. apply Ok_inj in H. subst u.
  pose proof (int_from_bytes_acc_bound b Hb 0 ltac:(lia)) as Hbound.
  rewrite Hlen in Hbound. unfold UUID_valid.
  change (256 ^ Z.of_nat 16) with (2 ^ 128) in Hbound. lia.
Qed.

(** X2. Whatever text the identifier field accepts, the value it returns is
    a 128-bit identifier, and the token rendered for that value decodes to
    the same value: decoding is stable under re-encoding, also for tokens
    that were not written by the encoder. *)
Theorem Base64UUIDField_accepts_identifiers (s : string) (u : UUID) :
  Base64UUIDField_to_internal_value (DataText s) = Ok u ->
  UUID_valid u
  /\ Base64UUIDField_to_internal_value
       (DataText (Base64UUIDField_to_representation u)) = Ok u.
Proof.
  intros H.
  assert (Hvalid : UUID_valid u).
  { unfold Base64UUIDField_to_internal_value, try_except_raise in H.
    destruct (urlsafe_base64_decode (list_ascii_of_string s)) as [b|e] eqn:E.
    - apply urlsafe_base64_decode_bytes in E.
      destruct (UUID_of_bytes b) as [u'|e] eqn:Eu.
      + apply Ok_inj in H. subst u'. apply (UUID_of_bytes_valid b u E Eu).
      + destruct (is_ValueError e); discriminate.
    - destruct (is_ValueError e); discriminate. }
  split; [exact Hvalid|].
  unfold Base64UUIDField_to_internal_value, Base64UUIDField_to_representation.
  rewrite list_ascii_of_string_of_list_ascii.
  rewrite urlsafe_base64_roundtrip by apply int_to_bytes_is_byte.
  rewrite UUID_of_bytes_bytes by assumption. reflexivity.
Qed.

Lemma Base64UUIDField_accepts_identifiers_witness :
  Base64UUIDField_to_internal_value (DataText "!ABEiM0RVZneI maq7zN3u_w==")
  = Ok 0x00112233445566778899aabbccddeeff
  /\ UUID_valid 0x00112233445566778899aabbccddeeff.
Proof.
  split; [reflexivity|].
  apply (proj1 (Base64UUIDField_accepts_identifiers
                  "!ABEiM0RVZneI maq7zN3u_w=="
                  0x00112233445566778899aabbccddeeff eq_refl)).
Defined.

Lemma Base64UUIDField_token_length_injective_witness :
  UUID_valid 1 /\ UUID_valid (2 ^ 128 - 1)
  /\ String.length (Base64UUIDField_to_representation 1) = 22%nat.
Proof.
  assert (H1 : UUID_valid 1) by (unfold UUID_valid; lia).
  assert (H2 : UUID_valid (2 ^ 128 - 1)) by (unfold UUID_valid; lia).
  split; [exact H1|]. split; [exact H2|].
  apply (proj1 (Base64UUIDField_token_length_injective 1 (2 ^ 128 - 1) H1 H2)).
Defined.

(** *** PointField: what parsing accepts *)

Section PointFieldAccepts.
Context {F : Type} {F_text : FloatText F}.

(** X3. Coordinate parse accepts exactly the strings that split at commas
    into two tokens [float] reads, and returns the point of the two floats
    in that order; on every other string it raises the validation error, and
    it raises nothing else. *)
Theorem PointField_accepts_exactly (s : string) :
  (forall px py : F,
      PointField_to_internal_value s = Ok (mkPoint px py)
      <-> exists t0 t1, split "," s = [t0; t1]
                        /\ py_float t0 = Ok px /\ py_float t1 = Ok py)
  /\ ((exists p, PointField_to_internal_value (F := F) s = Ok p)
      \/ PointField_to_internal_value (F := F) s
         = Raise (ValidationError "Required format: 'latitude, longitude'.")).
Proof.
  unfold PointField_to_internal_value, unpack2.
  destruct (split "," s) as [|t0 [|t1 [|t2 rest]]].
  - split; [|right; reflexivity].
    intros px py. split; [discriminate | intros (? & ? & H & _); discriminate].
  - destruct (py_float (F := F) t0) as [a|e] eqn:E0.
    + split; [|right; reflexivity].
      intros px py. split; [discriminate | intros (? & ? & H & _); discriminate].
    + pose proof (py_float_raises _ _ E0) as He. subst e. split; [|right; reflexivity].
      intros px py. split; [discriminate | intros (? & ? & H & _); discriminate].
  - destruct (py_float (F := F) t0) as [a|e] eqn:E0.
    + destruct (py_float (F := F) t1) as [b|e] eqn:E1.
      * split; [|left; eexists; reflexivity].
        intros px py. cbn [try_except_raise]. split.
        -- intros H. inversion H. subst. exists t0, t1. auto.
        -- intros (u0 & u1 & H & H0 & H1). inversion H. subst u0 u1.
           congruence.
      * pose proof (py_float_raises _ _ E1) as He. subst e. split; [|right; reflexivity].
        intros px py. split; [discriminate|].
        intros (u0 & u1 & H & H0 & H1). inversion H. subst u0 u1. congruence.
    + pose proof (py_float_raises _ _ E0) as He. subst e. split; [|right; reflexivity].
      intros px py. split; [discriminate|].
      intros (u0 & u1 & H & H0 & H1). inversion H. subst u0 u1. congruence.
  - assert (Hno : forall px py : F,
               ~ exists u0 u1, t0 :: t1 :: t2 :: rest = [u0; u1]
                               /\ py_float u0 = Ok px /\ py_float u1 = Ok py).
    { intros px py (u0 & u1 & H & _). discriminate. }
    destruct (py_float (F := F) t0) as [a|e] eqn:E0;
      [destruct (py_float (F := F) t1) as [b|e] eqn:E1;
       [destruct (py_float (F := F) t2) as [c|e] eqn:E2|]|];
      repeat match goal with
             | H : py_float _ = Raise _ |- _ => apply py_float_raises in H; subst
             end;
      (split; [|right; reflexivity]);
      intros px py; (split; [discriminate | intros H; destruct (Hno px py H)]).
Qed.

End PointFieldAccepts.

(** *** CategoryField: round trip *)

Lemma filter_none {R} (p : R -> bool) (rows : list R) :
  (forall r, In r rows -> p r = false) -> filter p rows = [].
Proof.
  induction rows as [|r rows IH]; cbn [filter]; intros H; [reflexivity|].
  rewrite (H r) by (left; reflexivity). apply IH.
  intros r' Hr'. apply H. right. exact Hr'.
Qed.

Lemma filter_NoDup_key {R K} (f : R -> K) (eqb : K -> K -> bool) (rows : list R)
  (c : R) :
  (forall a b, eqb a b = true <-> a = b) ->
  NoDup (map f rows) -> In c rows ->
  filter (fun r => eqb (f r) (f c)) rows = [c].
Proof.
  intros Heqb. induction rows as [|r rows IH]; cbn [map In filter]; intros Hnd Hin.
  - tauto.
  - inversion_clear Hnd as [|? ? Hnotin Hnd'].
    assert (Hrest : forall r', In r' rows -> f r' = f c -> In (f c) (map f rows)).
    { intros r' Hr' E. rewrite <- E. apply in_map, Hr'. }
    destruct Hin as [->|Hin].
    + rewrite (proj2 (Heqb (f c) (f c)) eq_refl). f_equal.
      apply filter_none. intros r' Hr'.
      apply not_true_is_false. intros E. apply Heqb in E.
      apply Hnotin. apply (Hrest r' Hr' E).
    + destruct (eqb (f r) (f c)) eqn:E.
      * apply Heqb in E. exfalso. apply Hnotin. rewrite E. apply in_map, Hin.
      * apply IH; assumption.
Qed.

Section CategoryRoundTrip.
Context {F : Type} {schema : Schema}.

(** X4. Category round trip: in a table where no two categories share a
    name, parsing the rendered name of a stored category gives that category
    back when it is a leaf, and is refused with "Category should be at lowest
    level." when it has a child. *)
Theorem CategoryField_roundtrip (c : CategoryRow) (db : DB F) :
  NoDup (map category_name (categories db)) ->
  In c (categories db) ->
  CategoryField_to_internal_value (CategoryField_to_representation c) db
  = (if is_leaf_node c (categories db) then Ok c
     else Raise (ValidationError "Category should be at lowest level."), db).
Proof.
  intros Hnd Hin.
  unfold CategoryField_to_internal_value, CategoryField_to_representation,
    objects_get.
  rewrite (filter_NoDup_key category_name String.eqb (categories db) c
             String.eqb_eq Hnd Hin).
  cbn [try_except_raise].
  destruct (is_leaf_node c (categories db)); reflexivity.
Qed.

End CategoryRoundTrip.

Lemma CategoryField_roundtrip_witness :
  NoDup (map category_name
           [mkCategory 1 "Transport" None; mkCategory 2 "Bikes" (Some 1%nat)])
  /\ CategoryField_to_internal_value (F := Z)
       (CategoryField_to_representation (mkCategory 2 "Bikes" (Some 1%nat)))
       (mkDB [] [] [] []
          [mkCategory 1 "Transport" None; mkCategory 2 "Bikes" (Some 1%nat)] [] [])
     = (Ok (mkCategory 2 "Bikes" (Some 1%nat)),
        mkDB [] [] [] []
          [mkCategory 1 "Transport" None; mkCategory 2 "Bikes" (Some 1%nat)] [] []).
Proof.
  assert (Hnd : NoDup (map category_name
           [mkCategory 1 "Transport" None; mkCategory 2 "Bikes" (Some 1%nat)])).
  { cbn. repeat constructor; cbn; intuition discriminate. }
  split; [exact Hnd|].
  exact (CategoryField_roundtrip (F := Z) (mkCategory 2 "Bikes" (Some 1%nat))
           (mkDB [] [] [] []
              [mkCategory 1 "Transport" None; mkCategory 2 "Bikes" (Some 1%nat)]
              [] [])
           Hnd (or_intror (or_introl eq_refl))).
Defined.

(** *** Tables, continued *)

Lemma by_pk_app_old {R} (pk : R -> nat) (rows : list R) (new : R) (k : nat) :
  k <> pk new -> by_pk pk k (rows ++ [new]) = by_pk pk k rows.
Proof.
  intros Hk. unfold by_pk.
  induction rows as [|r rows IH]; cbn [app find].
  - rewrite (proj2 (Nat.eqb_neq _ _) (not_eq_sym Hk)). reflexivity.
  - destruct (pk r =? k)%nat; [reflexivity|exact IH].
Qed.

Lemma by_pk_app_new {R} (pk : R -> nat) (rows : list R) (new : R) :
  pk new = next_pk pk rows -> by_pk pk (pk new) (rows ++ [new]) = Some new.
Proof.
  intros Hnew. unfold by_pk. apply find_app_last.
  - intros r Hr. apply (next_pk_gt pk) in Hr. apply Nat.eqb_neq. lia.
  - apply Nat.eqb_refl.
Qed.

Lemma by_pk_Some_pk {R} (pk : R -> nat) (rows : list R) (k : nat) (l : R) :
  by_pk pk k rows = Some l -> In l rows /\ pk l = k.
Proof.
  unfold by_pk. intros H. apply find_some in H. destruct H as [Hin E].
  apply Nat.eqb_eq in E. auto.
Qed.

(** *** Location: the cases of [create] and [update] *)

Section LocationCases.
Context {F : Type} {F_eq : FloatEq F} {schema : Schema}.

(** X5. [create] with coordinates that no Location has appends exactly one
    row, under a key no row had, with the coordinates and the submitted
    address (the default address when none is submitted); the rows there were
    are left as they were. *)
Theorem Location_create_fresh (c : Point F) (a : option string) (db : DB F) :
  ~ In (Some c) (map coordinates (locations db)) ->
  let l' := mkLocation (next_pk location_pk (locations db)) (Some c)
              (or_current a address_default) in
  Location_create (mkLocationData (Some c) a) db
  = (Ok l', set_locations db (locations db ++ [l']))
  /\ ~ In (location_pk l') (map location_pk (locations db))
  /\ by_pk location_pk (location_pk l') (locations db ++ [l']) = Some l'
  /\ (forall k, k <> location_pk l' ->
        by_pk location_pk k (locations db ++ [l'])
        = by_pk location_pk k (locations db)).
Proof.
  intros Hnot l'. split; [|split; [|split]].
  - unfold Location_create, bind, Location_get_or_create. cbn [data_coordinates].
    rewrite objects_get_none.
    + cbn [is_DoesNotExist fst].
      unfold Location_super_update, bind, ret, Location_save, pop_coordinates.
      cbn [data_coordinates data_address location_pk coordinates address
           locations set_locations].
      rewrite (save_row_appended location_pk) by reflexivity. reflexivity.
    + intros r Hr. apply not_true_is_false. intros E.
      apply coordinates_match_true in E. apply Hnot. rewrite <- E.
      apply in_map, Hr.
  - intros Hin. apply in_map_iff in Hin. destruct Hin as (r & E & Hr).
    apply (next_pk_gt location_pk) in Hr. cbn [location_pk l'] in E. lia.
  - apply by_pk_app_new. reflexivity.
  - intros k Hk. apply by_pk_app_old. exact Hk.
Qed.


End LocationCases.

Section LocationMoves.
Context {F : Type} {F_eq : FloatEq F} {schema : Schema}.

(** [update] with coordinates other than the record's own goes to another
    row and leaves the record alone. *)
Lemma Location_update_elsewhere (l : LocationRow F) (d : LocationData F)
  (db : DB F) :
  Location_inv (locations db) -> In l (locations db) ->
  coordinates l <> data_coordinates d ->
  (exists l' db',
      Location_update l d db = (Ok l', db')
      /\ coordinates l' = data_coordinates d
      /\ location_pk l' <> location_pk l
      /\ by_pk location_pk (location_pk l) (locations db') = Some l
      /\ by_pk location_pk (location_pk l') (locations db') = Some l'
      /\ (forall a, data_address d = Some a -> address l' = a)
      /\ (List.length (locations db') <= S (List.length (locations db)))%nat
      /\ profiles db' = profiles db /\ listings db' = listings db)
  \/ (data_coordinates d = None /\ coordinates_null = false
      /\ ~ In None (map coordinates (locations db))
      /\ Location_update l d db = (Raise IntegrityError, db)).
Proof.
  intros [Hpk Hco] Hin Hne.
  rewrite Location_update_other by exact Hne.
  pose proof (by_pk_NoDup location_pk (locations db) l Hpk Hin) as Hold.
  destruct (find_and_assign_rows (data_coordinates d) d db Hco)
    as [(r & Hr & Hc & ->)|[(Hnot & _ & ->)|(Hnot & Hnone & Hnull & ->)]].
  - left.
    assert (Hkey : location_pk r <> location_pk l).
    { intros E. apply Hne. rewrite <- Hc. f_equal. symmetry.
      apply (NoDup_map_In_eq location_pk (locations db)); auto. }
    eexists. eexists. split; [reflexivity|].
    cbn [coordinates location_pk address locations set_locations].
    split; [reflexivity|]. split; [exact Hkey|].
    split; [rewrite by_pk_save_row_other by (cbn; congruence); exact Hold|].
    split; [apply (by_pk_save_row location_pk (locations db) r); auto|].
    split; [intros a ->; reflexivity|].
    split; [|split; reflexivity].
    rewrite (save_row_length location_pk (locations db) r) by auto. lia.
  - left.
    pose proof (next_pk_gt location_pk (locations db) l Hin) as Hlt.
    eexists. eexists. split; [reflexivity|].
    cbn [coordinates location_pk address locations set_locations].
    split; [reflexivity|]. split; [lia|].
    split; [rewrite by_pk_app_old by (cbn; lia); exact Hold|].
    split.
    { apply (by_pk_app_new location_pk (locations db)
               (mkLocation (next_pk location_pk (locations db))
                  (data_coordinates d)
                  (or_current (data_address d) address_default))).
      reflexivity. }
    split; [intros a ->; reflexivity|].
    split; [|split; reflexivity].
    rewrite length_app. cbn. lia.
  - right. rewrite Hnone in *. auto.
Qed.


(** X8. [update] with a payload without coordinates, on a stored record that
    has coordinates, never updates that record: either it raises
    [IntegrityError] and writes nothing (a Location must have coordinates
    and none without is stored), or it returns a record without coordinates
    under another key; in both cases the record keeps its address. *)
Theorem Location_update_without_coordinates_elsewhere (l : LocationRow F)
  (a : option string) (db : DB F) :
  Location_inv (locations db) -> In l (locations db) ->
  coordinates l <> None ->
  (exists l' db',
      Location_update l (mkLocationData None a) db = (Ok l', db')
      /\ coordinates l' = None
      /\ location_pk l' <> location_pk l
      /\ by_pk location_pk (location_pk l) (locations db') = Some l)
  \/ (coordinates_null = false
      /\ ~ In None (map coordinates (locations db))
      /\ Location_update l (mkLocationData None a) db
         = (Raise IntegrityError, db)).
Proof.
  intros Hinv Hin Hne.
  destruct (Location_update_elsewhere l (mkLocationData None a) db Hinv Hin Hne)
    as [(l' & db' & H & Hc & Hk & Hold & _)|(_ & Hnull & Hnot & H)].
  - left. exists l', db'. auto.
  - right. auto.
Qed.


(** X10. [Profile.update] with a non-empty location payload on a Profile
    that has no Location raises [AttributeError] and writes nothing: the
    nested update is handed no record to read the coordinates of. *)
Theorem Profile_update_without_location (profile : ProfileRow)
  (location_data : LocationData F) n ab av (db : DB F) :
  profile_location profile = None ->
  LocationData_truthy location_data = true ->
  Profile_update profile (mkProfileData n ab av (Some location_data)) db
  = (Raise AttributeError, db).
Proof.
  intros Hnone Htrue. unfold Profile_update, bind, Profile_location.
  cbn [data_profile_location]. rewrite Htrue, Hnone. reflexivity.
Qed.

End LocationMoves.

(** *** Listing.create *)

Section ListingCreate.
Context {F : Type} {F_eq : FloatEq F} {schema : Schema}
  {listing_defaults : ListingDefaults}.

(** The Location operations write to the Location table only. *)
Lemma find_and_assign_frame (coords : option (Point F)) (d : LocationData F)
  (db db' : DB F) (r : result (LocationRow F)) :
  find_and_assign coords d db = (r, db') ->
  db' = set_locations db (locations db').
Proof.
  destruct db as [locs profs devs usrs cats lsts chts].
  unfold find_and_assign, bind, Location_get_or_create. cbn [locations].
  destruct (objects_get (coordinates_match coords) locs) as [l|e].
  - cbn [fst]. unfold Location_super_update, bind, ret, Location_save.
    intros H. inversion H. reflexivity.
  - destruct (is_DoesNotExist e).
    + destruct coords as [c|]; [|destruct coordinates_null];
        cbn [fst]; unfold Location_super_update, bind, ret, Location_save;
        intros H; inversion H; reflexivity.
    + intros H. inversion H. reflexivity.
Qed.

Lemma Listing_create_unfold (d : ListingData F) (ld : LocationData F)
  (l : LocationRow F) (db db1 : DB F) :
  data_listing_location d = Some ld ->
  Location_create ld db = (Ok l, db1) ->
  Listing_create d db = Listing_objects_create l d db1.
Proof.
  intros Hd Hl. unfold Listing_create, atomic, bind. rewrite Hd, Hl. reflexivity.
Qed.

(** X11. [Listing.create], in a table of Locations that satisfies the
    invariant: without a location, or without coordinates in it, it raises
    [KeyError] and writes nothing; otherwise it succeeds, appends one Listing
    under a new key, and that Listing refers to the one Location that has the
    submitted coordinates; the invariant still holds afterwards. *)
Theorem Listing_create_cases (d : ListingData F) (db : DB F) :
  Location_inv (locations db) ->
  match data_listing_location d with
  | None => Listing_create d db = (Raise KeyError, db)
  | Some ld =>
      match data_coordinates ld with
      | None => Listing_create d db = (Raise KeyError, db)
      | Some c =>
          exists listing l db',
            Listing_create d db = (Ok listing, db')
            /\ listings db' = listings db ++ [listing]
            /\ listing_pk listing = next_pk listing_pk (listings db)
            /\ title listing = or_current (data_title d) listing_title_default
            /\ price listing = or_current (data_price d) listing_price_default
            /\ Listing_location listing db' = (Ok l, db')
            /\ coordinates l = Some c
            /\ (forall a, data_address ld = Some a -> address l = a)
            /\ Location_inv (locations db')
      end
  end.
Proof.
  intros Hinv.
  destruct (data_listing_location d) as [ld|] eqn:Hd;
    [|unfold Listing_create, atomic; rewrite Hd; reflexivity].
  destruct (data_coordinates ld) as [c|] eqn:Hc.
  - destruct ld as [co ad]. cbn [data_coordinates data_address] in *. subst co.
    destruct (find_and_assign_spec (Some c) (mkLocationData (Some c) ad) db Hinv)
      as [(l & db1 & E & Hlc & Ha & Hin & Hinv1 & _)|[Hnone _]];
      [|discriminate Hnone].
    pose proof (find_and_assign_frame _ _ _ _ _ E) as Hframe.
    assert (Hlist : listings db1 = listings db) by (rewrite Hframe; reflexivity).
    rewrite <- Location_create_unfold in E.
    rewrite (Listing_create_unfold d _ l db db1 Hd E).
    unfold Listing_objects_create. rewrite Hlist.
    eexists. exists l. eexists. split; [reflexivity|].
    cbn [listings set_listings listing_pk title price locations].
    repeat (split; [reflexivity|]).
    split; [|split; [exact Hlc|split; [|exact Hinv1]]].
    + unfold Listing_location. cbn [listing_location locations set_listings].
      rewrite (by_pk_NoDup location_pk (locations db1) l (proj1 Hinv1) Hin).
      reflexivity.
    + intros a Hada. cbn [data_address] in Ha. rewrite Hada in Ha. exact Ha.
  - unfold Listing_create, atomic, bind, Location_create. rewrite Hd, Hc.
    reflexivity.
Qed.

(** X12. Two Listings at the same coordinates share one Location record:
    when some Location already has the submitted coordinates, [Listing.create]
    adds no Location, the new Listing refers to that record, and every
    Listing that referred to it reads the address submitted with the new
    Listing from then on. *)
Theorem Listing_create_shares_location (r : LocationRow F) (c : Point F)
  (a : string) t de pr ca qu co (db : DB F) :
  NoDup (map coordinates (locations db)) ->
  In r (locations db) -> coordinates r = Some c ->
  exists listing db',
    Listing_create
      (mkListingData t de pr ca qu co (Some (mkLocationData (Some c) (Some a))))
      db
    = (Ok listing, db')
    /\ listing_location listing = location_pk r
    /\ List.length (locations db') = List.length (locations db)
    /\ forall other : ListingRow,
         listing_location other = location_pk r ->
         Listing_location other db'
         = (Ok (mkLocation (location_pk r) (Some c) a), db').
Proof.
  intros Hco Hin Hc.
  destruct (find_and_assign_rows (Some c) (mkLocationData (Some c) (Some a)) db Hco)
    as [(r' & Hr' & Hc' & E)|[(Hnot & _)|(Hnot & _)]].
  - assert (r' = r).
    { apply (NoDup_map_In_eq coordinates (locations db)); auto. congruence. }
    subst r'. rewrite <- Location_create_unfold in E.
    rewrite (Listing_create_unfold
               (mkListingData t de pr ca qu co
                  (Some (mkLocationData (Some c) (Some a))))
               (mkLocationData (Some c) (Some a)) _ db _ eq_refl E).
    unfold Listing_objects_create. cbn [data_address or_current].
    eexists. eexists. split; [reflexivity|].
    cbn [listing_location location_pk locations set_listings set_locations].
    split; [reflexivity|].
    split; [apply (save_row_length location_pk (locations db) r); auto|].
    intros other Hother. unfold Listing_location.
    cbn [locations set_listings set_locations]. rewrite Hother.
    rewrite (by_pk_save_row location_pk (locations db) r); auto.
  - exfalso. apply Hnot. rewrite <- Hc. apply in_map, Hin.
  - exfalso. apply Hnot. rewrite <- Hc. apply in_map, Hin.
Qed.

End ListingCreate.

(** *** User.create: rollback, repeated registration, invariant *)

Lemma find_none_all {A} (f : A -> bool) (l : list A) :
  (forall a, In a l -> f a = false) -> find f l = None.
Proof.
  induction l as [|a l IH]; cbn [find]; intros H; [reflexivity|].
  rewrite (H a) by (left; reflexivity). apply IH.
  intros b Hb. apply H. right. exact Hb.
Qed.

Section UserCreateMore.
Context {F : Type} {schema : Schema}.

(** What [create] does when a Device has the token. *)
Lemma User_create_found (validated_data : UserData) (db : DB F) (d : DeviceRow) :
  objects_get (fun d => String.eqb (fcm_id d) (data_fcm_id validated_data))
    (devices db) = Ok d ->
  User_create validated_data db
  = match find (fun u => (user_device u =? device_pk d)%nat) (users db) with
    | Some u =>
        (Ok u, set_devices db
                 (save_row device_pk (mkDevice (device_pk d) (fcm_id d) true 0)
                    (devices db)))
    | None => (Raise RelatedObjectDoesNotExist, db)
    end.
Proof.
  intros Hget. unfold User_create, atomic, bind, Device_get_or_create.
  rewrite Hget. cbn [fst snd negb]. unfold Device_save, Device_owner.
  cbn [users set_devices device_pk].
  destruct (find _ (users db)); reflexivity.
Qed.

(** What [create] does when no Device has the token and every Profile has
    its Account. *)
Lemma User_create_new (validated_data : UserData) (db : DB F) :
  (forall d, In d (devices db) -> fcm_id d <> data_fcm_id validated_data) ->
  (forall p, In p (profiles db) ->
             exists u, In u (users db) /\ user_pk u = profile_user p) ->
  let d := mkDevice (next_pk device_pk (devices db)) (data_fcm_id validated_data)
             device_is_active_default device_fails_count_default in
  let u := mkUser (next_pk user_pk (users db)) (data_email validated_data)
             (make_password (data_password validated_data)) (device_pk d) in
  let p := mkProfile (next_pk profile_pk (profiles db))
             (uuid4 (next_pk profile_pk (profiles db))) (user_pk u)
             (data_user_full_name validated_data) profile_text_default
             profile_text_default None in
  User_create validated_data db
  = (Ok u, mkDB (locations db) (profiles db ++ [p]) (devices db ++ [d])
             (users db ++ [u]) (categories db) (listings db) (chats db)).
Proof.
  intros Hnone Hfk d u p.
  unfold User_create, atomic, bind, Device_get_or_create.
  rewrite objects_get_none
    by (intros d0 Hd; apply String.eqb_neq, Hnone, Hd).
  cbn [is_DoesNotExist fst snd negb].
  unfold create_user, User_profile, Profile_save, ret.
  cbn [users profiles devices set_devices set_users set_profiles user_pk].
  assert (Hold : forall q, In q (profiles db) ->
                   (profile_user q =? next_pk user_pk (users db))%nat = false).
  { intros q Hq. destruct (Hfk q Hq) as (u0 & Hu0 & E).
    apply (next_pk_gt user_pk) in Hu0. apply Nat.eqb_neq. lia. }
  rewrite (find_app_last _ (profiles db) _ Hold) by apply Nat.eqb_refl.
  cbn [profiles set_profiles].
  rewrite (save_row_appended profile_pk) by reflexivity.
  reflexivity.
Qed.

(** X13. A Device that has the token but no owning Account: [create] raises
    [RelatedObjectDoesNotExist] and, the call being one transaction, the
    reactivation of the Device is undone: the database is as it was. *)
Theorem User_create_orphan_device (validated_data : UserData) (db : DB F)
  (d : DeviceRow) :
  objects_get (fun d => String.eqb (fcm_id d) (data_fcm_id validated_data))
    (devices db) = Ok d ->
  (forall u, In u (users db) -> user_device u <> device_pk d) ->
  User_create validated_data db = (Raise RelatedObjectDoesNotExist, db).
Proof.
  intros Hget Hno. rewrite (User_create_found validated_data db d Hget).
  rewrite find_none_all; [reflexivity|].
  intros u Hu. apply Nat.eqb_neq, Hno, Hu.
Qed.

(** X14. Registration is idempotent per device token: after a first
    [create] with a token no Device had, a second [create] with the same
    token, whatever email, password and name it submits, returns the Account
    of the first call and adds no Account, Profile or Device. *)
Theorem User_create_twice (first second : UserData) (db : DB F) :
  (forall d, In d (devices db) -> fcm_id d <> data_fcm_id first) ->
  (forall u, In u (users db) ->
             exists d, In d (devices db) /\ device_pk d = user_device u) ->
  (forall p, In p (profiles db) ->
             exists u, In u (users db) /\ user_pk u = profile_user p) ->
  data_fcm_id second = data_fcm_id first ->
  exists u db1 db2,
    User_create first db = (Ok u, db1)
    /\ User_create second db1 = (Ok u, db2)
    /\ users db1 = users db ++ [u]
    /\ email u = data_email first
    /\ users db2 = users db1
    /\ profiles db2 = profiles db1
    /\ List.length (devices db2) = List.length (devices db1).
Proof.
  intros Hnone Hfku Hfkp Htoken.
  rewrite (User_create_new first db Hnone Hfkp).
  set (d := mkDevice (next_pk device_pk (devices db)) (data_fcm_id first)
              device_is_active_default device_fails_count_default).
  set (u := mkUser (next_pk user_pk (users db)) (data_email first)
              (make_password (data_password first)) (device_pk d)).
  eexists. eexists. eexists. split; [reflexivity|].
  assert (Hget : objects_get
                   (fun d0 => String.eqb (fcm_id d0) (data_fcm_id second))
                   (devices db ++ [d]) = Ok d).
  { unfold objects_get. rewrite filter_app, filter_none.
    - cbn [filter app fcm_id d]. rewrite Htoken, String.eqb_refl. reflexivity.
    - intros d0 Hd0. rewrite Htoken. apply String.eqb_neq, Hnone, Hd0. }
  rewrite (User_create_found second
             (mkDB (locations db) _ (devices db ++ [d]) (users db ++ [u])
                (categories db) (listings db) (chats db)) d Hget).
  cbn [users devices].
  rewrite (find_app_last _ (users db) u).
  - cbn [set_devices users profiles devices].
    rewrite (save_row_appended device_pk) by reflexivity.
    repeat split. cbn [devices set_devices]. rewrite !length_app. reflexivity.
  - intros u0 Hu0. destruct (Hfku u0 Hu0) as (d0 & Hd0 & E).
    apply (next_pk_gt device_pk) in Hd0. apply Nat.eqb_neq. cbn [device_pk d]. lia.
  - apply Nat.eqb_refl.
Qed.

Lemma In_map_pk_exists {R} (pk : R -> nat) (rows : list R) (k : nat) :
  In k (map pk rows) <-> exists r, In r rows /\ pk r = k.
Proof.
  rewrite in_map_iff. split; intros (r & H1 & H2); exists r; auto.
Qed.

(** X15. [create] keeps the tables of Devices, Accounts and Profiles
    consistent, whatever it is given and however it ends: no two Devices
    share a key or a token, every Account has its Device and every Profile
    its Account. *)
Theorem User_create_keeps_invariant (validated_data : UserData) (db : DB F) :
  User_inv db -> User_inv (snd (User_create validated_data db)).
Proof.
  intros Hinv. pose proof Hinv as (Hpk & Htok & Hfku & Hfkp).
  destruct (objects_get
              (fun d => String.eqb (fcm_id d) (data_fcm_id validated_data))
              (devices db)) as [d|e] eqn:Hget.
  - rewrite (User_create_found validated_data db d Hget).
    destruct (find _ (users db)) as [u|]; [|exact Hinv].
    destruct (objects_get_In _ _ _ Hget) as [Hin _].
    cbn [snd]. unfold User_inv. cbn [devices users profiles set_devices].
    set (d' := mkDevice (device_pk d) (fcm_id d) true 0).
    assert (Hkeys : map device_pk (save_row device_pk d' (devices db))
                    = map device_pk (devices db))
      by (apply (save_row_map device_pk device_pk (devices db) d d'); auto).
    assert (Htoks : map fcm_id (save_row device_pk d' (devices db))
                    = map fcm_id (devices db))
      by (apply (save_row_map device_pk fcm_id (devices db) d d'); auto).
    rewrite Hkeys, Htoks. repeat split; auto.
    intros u0 Hu0. apply In_map_pk_exists. rewrite Hkeys.
    apply In_map_pk_exists. apply Hfku, Hu0.
  - destruct (objects_get_raises _ _ _ Hget) as [[-> Hnil]| ->].
    + assert (Hnone : forall d, In d (devices db) ->
                        fcm_id d <> data_fcm_id validated_data).
      { intros d Hd E.
        assert (Hf : In d (filter (fun d => String.eqb (fcm_id d)
                                     (data_fcm_id validated_data)) (devices db)))
          by (apply filter_In; split; [exact Hd | apply String.eqb_eq, E]).
        rewrite Hnil in Hf. destruct Hf. }
      rewrite (User_create_new validated_data db Hnone Hfkp).
      cbn [snd]. unfold User_inv. cbn [devices users profiles].
      rewrite !map_app. cbn [map device_pk fcm_id].
      split; [|split; [|split]].
      * apply NoDup_app; [exact Hpk | repeat constructor; intros [] |].
        intros k Hk [E|[]]. subst k. apply In_map_pk_exists in Hk.
        destruct Hk as (r & Hr & E). apply (next_pk_gt device_pk) in Hr. lia.
      * apply NoDup_app; [exact Htok | repeat constructor; intros [] |].
        intros k Hk [E|[]]. subst k. apply in_map_iff in Hk.
        destruct Hk as (r & E & Hr). apply (Hnone r Hr E).
      * intros u0 Hu0. apply in_app_or in Hu0. destruct Hu0 as [Hu0|[<-|[]]].
        -- destruct (Hfku u0 Hu0) as (d0 & Hd0 & E). exists d0.
           split; [apply in_or_app; left; exact Hd0 | exact E].
        -- eexists. split; [apply in_or_app; right; left; reflexivity|].
           reflexivity.
      * intros p0 Hp0. apply in_app_or in Hp0. destruct Hp0 as [Hp0|[<-|[]]].
        -- destruct (Hfkp p0 Hp0) as (u0 & Hu0 & E). exists u0.
           split; [apply in_or_app; left; exact Hu0 | exact E].
        -- eexists. split; [apply in_or_app; right; left; reflexivity|].
           reflexivity.
    + unfold User_create, atomic, bind, Device_get_or_create.
      rewrite Hget. exact Hinv.
Qed.

End UserCreateMore.

(** *** Chat.create: errors, invariant, direction *)

Section ChatCreateMore.
Context {F : Type} {schema : Schema}.

Lemma Chat_matches_true (a b l : nat) (c : ChatRow) :
  Chat_matches a b l c = true <->
  creator c = a /\ interlocutor c = b /\ chat_listing c = l.
Proof.
  unfold Chat_matches. rewrite !andb_true_iff, !Nat.eqb_eq. tauto.
Qed.

(** The ways [create] can end. *)
Lemma Chat_create_cases (viewer : nat) (val_data : ChatData) (db : DB F) :
  (exists e, Chat_create viewer val_data db = (Raise e, db)
             /\ (e = Http404 \/ e = MultipleObjectsReturned))
  \/ (exists profile listing c,
         get_object_or_404 (fun p => profile_uuid p =? to_uuid val_data)
           (profiles db) = Ok profile
         /\ get_object_or_404
              (fun l => listing_uuid l =? data_listing_uuid val_data)
              (listings db) = Ok listing
         /\ Chat_matches viewer (profile_user profile) (listing_pk listing) c = true
         /\ ((In c (chats db) /\ Chat_create viewer val_data db = (Ok c, db))
             \/ (filter (Chat_matches viewer (profile_user profile)
                           (listing_pk listing)) (chats db) = []
                 /\ chat_pk c = next_pk chat_pk (chats db)
                 /\ subject c = title listing
                 /\ Chat_create viewer val_data db
                    = (Ok c, set_chats db (chats db ++ [c]))))).
Proof.
  unfold Chat_create, bind.
  destruct (get_object_or_404 _ (profiles db)) as [profile|e] eqn:Ep.
  2:{ left. exists e. split; [reflexivity|].
      apply (get_object_or_404_raises _ _ _ Ep). }
  destruct (get_object_or_404 _ (listings db)) as [listing|e] eqn:El.
  2:{ left. exists e. split; [reflexivity|].
      apply (get_object_or_404_raises _ _ _ El). }
  unfold Chat_get_or_create.
  destruct (objects_get _ (chats db)) as [c|e] eqn:Ec.
  - right. exists profile, listing, c.
    destruct (objects_get_In _ _ _ Ec) as [Hin Hm].
    repeat split; auto.
  - destruct (objects_get_raises _ _ _ Ec) as [[-> Hnil]| ->].
    + right. exists profile, listing.
      exists (mkChat (next_pk chat_pk (chats db)) viewer (profile_user profile)
                (listing_pk listing) (title listing)).
      split; [reflexivity|]. split; [reflexivity|].
      cbn [is_DoesNotExist fst snd chat_pk creator interlocutor chat_listing].
      unfold Chat_save, ret. cbn [chats set_chats].
      rewrite (save_row_appended chat_pk) by reflexivity.
      split; [|right; split; [exact Hnil|split; [|split]]; reflexivity].
      apply Chat_matches_true. cbn. auto.
    + left. exists MultipleObjectsReturned. split; [reflexivity|]. auto.
Qed.

(** X16. [Chat.create] fails with a 404 when no Profile has the target
    identifier, and when the target exists but no Listing has the listing
    identifier; and whenever it raises, the error is a 404 or
    [MultipleObjectsReturned] and nothing has been written. *)
Theorem Chat_create_not_found (viewer : nat) (val_data : ChatData) (db : DB F) :
  ((forall p, In p (profiles db) -> profile_uuid p <> to_uuid val_data) ->
   Chat_create viewer val_data db = (Raise Http404, db))
  /\ (forall profile,
        filter (fun p => profile_uuid p =? to_uuid val_data) (profiles db)
        = [profile] ->
        (forall l, In l (listings db) ->
                   listing_uuid l <> data_listing_uuid val_data) ->
        Chat_create viewer val_data db = (Raise Http404, db))
  /\ (forall e db',
        Chat_create viewer val_data db = (Raise e, db') ->
        db' = db /\ (e = Http404 \/ e = MultipleObjectsReturned)).
Proof.
  split; [|split].
  - intros Hnone. unfold Chat_create, bind, get_object_or_404.
    rewrite objects_get_none; [reflexivity|].
    intros p Hp. apply Z.eqb_neq, Hnone, Hp.
  - intros profile Hp Hnone. unfold Chat_create, bind, get_object_or_404.
    unfold objects_get at 1. rewrite Hp. cbn [try_except_raise].
    rewrite objects_get_none; [reflexivity|].
    intros l Hl. apply Z.eqb_neq, Hnone, Hl.
  - intros e db' H.
    destruct (Chat_create_cases viewer val_data db)
      as [(e0 & E & He)|(profile & listing & c & _ & _ & _ & [[_ E]|(_ & _ & _ & E)])];
      rewrite E in H; inversion H; subst; auto.
Qed.

(** One call keeps the invariant of the table of Chats. *)
Lemma Chat_create_inv_step (viewer : nat) (val_data : ChatData)
  (db : DB F) :
  Chat_inv (chats db) ->
  Chat_inv (chats (snd (Chat_create viewer val_data db)))
  /\ (chats (snd (Chat_create viewer val_data db)) = chats db
      \/ exists c, chats (snd (Chat_create viewer val_data db)) = chats db ++ [c]).
Proof.
  intros [Hpk Huniq].
  destruct (Chat_create_cases viewer val_data db)
    as [(e0 & -> & _)|(profile & listing & c & _ & _ & Hm
                      & [[_ ->]|(Hnil & Hkey & _ & ->)])];
    cbn [snd chats set_chats].
  - split; [split; assumption | left; reflexivity].
  - split; [split; assumption | left; reflexivity].
  - split; [|right; exists c; reflexivity]. split.
    + rewrite map_app. cbn [map].
      apply NoDup_app; [exact Hpk | repeat constructor; intros [] |].
      intros k Hk [E|[]]. subst k. apply in_map_iff in Hk.
      destruct Hk as (r & E & Hr). apply (next_pk_gt chat_pk) in Hr. lia.
    + intros a b l. rewrite filter_app, length_app. cbn [filter].
      destruct (Chat_matches a b l c) eqn:E.
      * apply Chat_matches_true in E, Hm.
        destruct E as (<- & <- & <-). destruct Hm as (Ha & Hb & Hl).
        rewrite <- Ha, <- Hb, <- Hl in Hnil. rewrite Hnil. cbn. lia.
      * cbn [List.length]. specialize (Huniq a b l). lia.
Qed.

(** X17. [Chat.create] keeps the table of Chats consistent and never
    touches a Chat that exists: after any call, keys are still unique and no
    triple (creator, interlocutor, listing) has two Chats, and the table is
    the old one with at most one Chat appended. *)
Theorem Chat_create_keeps_invariant (viewer : nat) (val_data : ChatData)
  (db : DB F) :
  Chat_inv (chats db) ->
  Chat_inv (chats (snd (Chat_create viewer val_data db)))
  /\ (chats (snd (Chat_create viewer val_data db)) = chats db
      \/ exists c, chats (snd (Chat_create viewer val_data db)) = chats db ++ [c]).
Proof. apply Chat_create_inv_step. Qed.

(** X18. Chats are keyed by direction: a Chat that one person creates is
    never the Chat that another person created, also when the two write to
    each other about the same Listing.  The two calls return Chats under
    different keys, each with its own creator. *)
Theorem Chat_create_by_direction (u1 u2 : nat) (d1 d2 : ChatData)
  (db db1 db2 : DB F) (c1 c2 : ChatRow) :
  Chat_inv (chats db) -> u1 <> u2 ->
  Chat_create u1 d1 db = (Ok c1, db1) ->
  Chat_create u2 d2 db1 = (Ok c2, db2) ->
  chat_pk c1 <> chat_pk c2
  /\ creator c1 = u1 /\ creator c2 = u2
  /\ In c1 (chats db2) /\ In c2 (chats db2).
Proof.
  intros Hinv Hne H1 H2.
  assert (Hstep : forall u d (s s' : DB F) c,
             Chat_create u d s = (Ok c, s') ->
             creator c = u /\ In c (chats s')
             /\ (forall c0, In c0 (chats s) -> In c0 (chats s'))).
  { intros u d s s' c H.
    destruct (Chat_create_cases u d s)
      as [(e0 & E & _)|(profile & listing & c' & _ & _ & Hm
                        & [[Hin E]|(_ & _ & _ & E)])];
      rewrite E in H; inversion H; subst.
    - apply Chat_matches_true in Hm. tauto.
    - apply Chat_matches_true in Hm. cbn [chats set_chats].
      split; [tauto|]. split; [apply in_or_app; right; left; reflexivity|].
      intros c0 Hc0. apply in_or_app. left. exact Hc0. }
  destruct (Hstep _ _ _ _ _ H1) as (Hc1 & Hin1 & _).
  destruct (Hstep _ _ _ _ _ H2) as (Hc2 & Hin2 & Hkeep).
  pose proof (proj1 (Chat_create_inv_step u1 d1 db Hinv)) as Hinv1.
  rewrite H1 in Hinv1. cbn [snd] in Hinv1.
  pose proof (proj1 (Chat_create_inv_step u2 d2 db1 Hinv1)) as Hinv2.
  rewrite H2 in Hinv2. cbn [snd] in Hinv2.
  repeat split; auto.
  intros E. apply Hne. rewrite <- Hc1, <- Hc2. f_equal.
  apply (NoDup_map_In_eq chat_pk (chats db2)); auto. apply Hinv2.
Qed.

End ChatCreateMore.

Lemma Chat_create_not_found_witness :
  Chat_create (F := Z) (schema := schema_not_null) 1 (mkChatData 7 9)
    (mkDB [] [mkProfile 1 7 2 "Bob" "" "" None] [] [] [] [] [])
  = (Raise Http404, mkDB [] [mkProfile 1 7 2 "Bob" "" "" None] [] [] [] [] []).
Proof.
  apply (proj1 (proj2 (Chat_create_not_found (F := Z) (schema := schema_not_null)
                         1 (mkChatData 7 9)
                         (mkDB [] [mkProfile 1 7 2 "Bob" "" "" None] [] [] [] [] [])))
           (mkProfile 1 7 2 "Bob" "" "" None) eq_refl).
  intros l [].
Defined.

(** *** Chat: the fields computed for the viewer *)

Section ChatReadFields.
Context {F : Type} {schema : Schema}.

(** X19. The interlocutor rendered for a Chat is the other party: when
    [get_interlocutor] returns a Profile, it is the interlocutor's for the
    Chat's creator and the creator's for everybody else, so a party of a Chat
    between two different people never gets the own Profile; the database is
    only read, and a failure is a missing Account or Profile. *)
Theorem Chat_get_interlocutor_other_party (viewer : nat) (chat : ChatRow)
  (db : DB F) :
  match Chat_get_interlocutor viewer chat db with
  | (Ok p, db') =>
      db' = db /\ In p (profiles db)
      /\ profile_user p
         = (if (viewer =? creator chat)%nat then interlocutor chat
            else creator chat)
      /\ (creator chat <> interlocutor chat ->
          viewer = creator chat \/ viewer = interlocutor chat ->
          profile_user p <> viewer)
  | (Raise e, db') =>
      db' = db /\ (e = DoesNotExist \/ e = RelatedObjectDoesNotExist)
  end.
Proof.
  unfold Chat_get_interlocutor.
  assert (Hparty : forall k,
    match (u <- related_user k ;; User_profile u) db with
    | (Ok p, db') => db' = db /\ In p (profiles db) /\ profile_user p = k
    | (Raise e, db') =>
        db' = db /\ (e = DoesNotExist \/ e = RelatedObjectDoesNotExist)
    end).
  { intros k. unfold bind, related_user, User_profile.
    destruct (by_pk user_pk k (users db)) as [u|] eqn:Eu; [|auto].
    apply by_pk_Some_pk in Eu. destruct Eu as [_ Eu].
    destruct (find _ (profiles db)) as [p|] eqn:Ep; [|auto].
    apply find_some in Ep. destruct Ep as [Hin Ep].
    apply Nat.eqb_eq in Ep. split; [reflexivity|]. split; [exact Hin|]. congruence. }
  destruct (Nat.eqb_spec viewer (creator chat)) as [Hv|Hv]; cbn [negb].
  - specialize (Hparty (interlocutor chat)).
    destruct ((u <- related_user (interlocutor chat) ;; User_profile u) db)
      as [[p|e] db']; [|exact Hparty].
    destruct Hparty as (-> & Hin & Hp). repeat split; auto.
    intros Hne _. congruence.
  - specialize (Hparty (creator chat)).
    destruct ((u <- related_user (creator chat) ;; User_profile u) db)
      as [[p|e] db']; [|exact Hparty].
    destruct Hparty as (-> & Hin & Hp). repeat split; auto.
    intros Hne [Hc|Hi]; congruence.
Qed.

End ChatReadFields.

Lemma latest_spec (rows : list MessageRow) :
  match latest rows with
  | Ok m => In m rows /\ forall m', In m' rows -> timestamp m' <= timestamp m
  | Raise e => e = DoesNotExist /\ rows = []
  end.
Proof.
  induction rows as [|m rows IH]; cbn [latest]; [auto|].
  destruct (latest rows) as [m0|e].
  - destruct IH as [Hin Hmax].
    destruct (Z.ltb_spec (timestamp m) (timestamp m0)).
    + split; [right; exact Hin|]. intros m' [<-|Hm']; [lia | apply Hmax, Hm'].
    + split; [left; reflexivity|]. intros m' [<-|Hm']; [lia|].
      specialize (Hmax m' Hm'). lia.
  - destruct IH as [_ ->]. split; [left; reflexivity|].
    intros m' [<-|[]]. lia.
Qed.

(** X20. The latest message of a Chat, as rendered for a viewer: it is
    absent exactly when no message belongs to the Chat; otherwise it is the
    rendering of a message of that Chat that no message of the Chat is later
    than, and its [is_yours] flag is true exactly when the viewer is the
    author.  The method never raises. *)
Theorem Chat_get_latest_message_spec (viewer : nat) (chat : ChatRow)
  (messages : list MessageRow) :
  match Chat_get_latest_message viewer chat messages with
  | Ok None =>
      forall m, In m messages -> message_chat m <> chat_pk chat
  | Ok (Some r) =>
      exists m, In m messages /\ message_chat m = chat_pk chat
                /\ (forall m', In m' messages ->
                               message_chat m' = chat_pk chat ->
                               timestamp m' <= timestamp m)
                /\ r = mkMessageData (viewer =? author m)%nat (text m)
                         (timestamp m) (read m)
                /\ (data_is_yours r = true <-> viewer = author m)
  | Raise _ => False
  end.
Proof.
  unfold Chat_get_latest_message, Chat_messages.
  pose proof (latest_spec
                (filter (fun m => (message_chat m =? chat_pk chat)%nat) messages))
    as H.
  destruct (latest _) as [m|e]; cbn [try_except_return].
  - destruct H as [Hin Hmax]. apply filter_In in Hin. destruct Hin as [Hin Hc].
    apply Nat.eqb_eq in Hc.
    exists m. split; [exact Hin|]. split; [exact Hc|]. split.
    + intros m' Hm' Hc'. apply Hmax. apply filter_In. split; [exact Hm'|].
      apply Nat.eqb_eq, Hc'.
    + split; [reflexivity|]. cbn [data_is_yours Message_to_representation].
      unfold Message_get_is_yours. apply Nat.eqb_eq.
  - destruct H as [-> Hnil]. cbn [is_DoesNotExist].
    intros m Hm E.
    assert (Hf : In m (filter (fun m => (message_chat m =? chat_pk chat)%nat)
                         messages))
      by (apply filter_In; split; [exact Hm | apply Nat.eqb_eq, E]).
    rewrite Hnil in Hf. destruct Hf.
Qed.

(** *** The further properties on concrete data *)

Ltac concrete_NoDup :=
  cbn; repeat (constructor; [cbn; intuition discriminate|]); constructor.

Lemma sample_locations_inv :
  Location_inv (F := Z)
    [mkLocation 1 (Some (mkPoint 59 30)) "Nevsky 1";
     mkLocation 2 (Some (mkPoint 55 37)) "Arbat 2"].
Proof. split; concrete_NoDup. Defined.

Lemma Location_create_fresh_witness :
  Location_create (schema := schema_not_null)
    (mkLocationData (Some (mkPoint 48 2)) (Some "Rivoli 3"%string))
    (set_locations empty_DB
       [mkLocation 1 (Some (mkPoint 59 30)) "Nevsky 1";
        mkLocation 2 (Some (mkPoint 55 37)) "Arbat 2"])
  = (Ok (mkLocation 3 (Some (mkPoint 48 2)) "Rivoli 3"),
     set_locations empty_DB
       [mkLocation 1 (Some (mkPoint 59 30)) "Nevsky 1";
        mkLocation 2 (Some (mkPoint 55 37)) "Arbat 2";
        mkLocation 3 (Some (mkPoint 48 2)) "Rivoli 3"]).
Proof.
  apply (proj1 (Location_create_fresh (schema := schema_not_null)
                  (mkPoint 48 2) (Some "Rivoli 3"%string)
                  (set_locations empty_DB
                     [mkLocation 1 (Some (mkPoint 59 30)) "Nevsky 1";
                      mkLocation 2 (Some (mkPoint 55 37)) "Arbat 2"])
                  ltac:(cbn; intuition discriminate))).
Defined.



Lemma Location_update_without_coordinates_elsewhere_witness :
  Location_update (schema := schema_not_null)
    (mkLocation 1 (Some (mkPoint 59 30)) "Nevsky 1")
    (mkLocationData None (Some "Nevsky 10"%string))
    (set_locations empty_DB
       [mkLocation 1 (Some (mkPoint 59 30)) "Nevsky 1";
        mkLocation 2 (Some (mkPoint 55 37)) "Arbat 2"])
  = (Raise IntegrityError,
     set_locations empty_DB
       [mkLocation 1 (Some (mkPoint 59 30)) "Nevsky 1";
        mkLocation 2 (Some (mkPoint 55 37)) "Arbat 2"]).
Proof.
  destruct (Location_update_without_coordinates_elsewhere
              (schema := schema_not_null)
              (mkLocation 1 (Some (mkPoint 59 30)) "Nevsky 1")
              (Some "Nevsky 10"%string)
              (set_locations empty_DB
                 [mkLocation 1 (Some (mkPoint 59 30)) "Nevsky 1";
                  mkLocation 2 (Some (mkPoint 55 37)) "Arbat 2"])
              sample_locations_inv (or_introl eq_refl)
              ltac:(cbn; discriminate))
    as [(l' & db' & H & _)|(_ & _ & H)].
  - discriminate H.
  - exact H.
Defined.


Lemma Profile_update_without_location_witness :
  Profile_update (schema := schema_not_null)
    (mkProfile 1 7 1 "Ann" "" "" None)
    (mkProfileData None None None
       (Some (mkLocationData (Some (mkPoint 59 30)) (Some "Nevsky 1"%string))))
    (set_profiles (@empty_DB Z) [mkProfile 1 7 1 "Ann" "" "" None])
  = (Raise AttributeError,
     set_profiles (@empty_DB Z) [mkProfile 1 7 1 "Ann" "" "" None]).
Proof.
  exact (Profile_update_without_location (schema := schema_not_null)
           (mkProfile 1 7 1 "Ann" "" "" None)
           (mkLocationData (Some (mkPoint 59 30)) (Some "Nevsky 1"%string))
           None None None
           (set_profiles (@empty_DB Z) [mkProfile 1 7 1 "Ann" "" "" None])
           eq_refl eq_refl).
Defined.

Lemma Listing_create_cases_witness :
  exists listing l db',
    Listing_create (schema := schema_not_null)
      (listing_defaults := sample_listing_defaults)
      (mkListingData (Some "Bike"%string) None (Some 100) (Some 2%nat) None None
         (Some (mkLocationData (Some (mkPoint 48 2)) (Some "Rivoli 3"%string))))
      (set_locations empty_DB
         [mkLocation 1 (Some (mkPoint 59 30)) "Nevsky 1";
          mkLocation 2 (Some (mkPoint 55 37)) "Arbat 2"])
    = (Ok listing, db')
    /\ title listing = "Bike"%string
    /\ Listing_location listing db' = (Ok l, db')
    /\ coordinates l = Some (mkPoint 48 2).
Proof.
  destruct (Listing_create_cases (schema := schema_not_null)
              (listing_defaults := sample_listing_defaults)
              (mkListingData (Some "Bike"%string) None (Some 100) (Some 2%nat)
                 None None
                 (Some (mkLocationData (Some (mkPoint 48 2))
                          (Some "Rivoli 3"%string))))
              (set_locations empty_DB
                 [mkLocation 1 (Some (mkPoint 59 30)) "Nevsky 1";
                  mkLocation 2 (Some (mkPoint 55 37)) "Arbat 2"])
              sample_locations_inv)
    as (listing & l & db' & H & _ & _ & Ht & _ & Hl & Hc & _).
  exists listing, l, db'. auto.
Defined.

Lemma Listing_create_shares_location_witness :
  exists listing db',
    Listing_create (schema := schema_not_null)
      (listing_defaults := sample_listing_defaults)
      (mkListingData (Some "Skis"%string) None (Some 50) (Some 2%nat) None None
         (Some (mkLocationData (Some (mkPoint 59 30)) (Some "Nevsky 10"%string))))
      (set_listings
         (set_locations empty_DB
            [mkLocation 1 (Some (mkPoint 59 30)) "Nevsky 1";
             mkLocation 2 (Some (mkPoint 55 37)) "Arbat 2"])
         [mkListing 1 9 "Bike" "" 100 1 1 true 1 2])
    = (Ok listing, db')
    /\ listing_location listing = 1%nat
    /\ Listing_location (mkListing 1 9 "Bike" "" 100 1 1 true 1 2) db'
       = (Ok (mkLocation 1 (Some (mkPoint 59 30)) "Nevsky 10"), db').
Proof.
  destruct (Listing_create_shares_location (schema := schema_not_null)
              (listing_defaults := sample_listing_defaults)
              (mkLocation 1 (Some (mkPoint 59 30)) "Nevsky 1")
              (mkPoint 59 30) "Nevsky 10"
              (Some "Skis"%string) None (Some 50) (Some 2%nat) None None
              (set_listings
                 (set_locations empty_DB
                    [mkLocation 1 (Some (mkPoint 59 30)) "Nevsky 1";
                     mkLocation 2 (Some (mkPoint 55 37)) "Arbat 2"])
                 [mkListing 1 9 "Bike" "" 100 1 1 true 1 2])
              (proj2 sample_locations_inv) (or_introl eq_refl) eq_refl)
    as (listing & db' & H & Hk & _ & Hother).
  exists listing, db'. split; [exact H|]. split; [exact Hk|].
  apply (Hother (mkListing 1 9 "Bike" "" 100 1 1 true 1 2) eq_refl).
Defined.

Lemma User_create_orphan_device_witness :
  User_create (F := Z) (schema := schema_not_null)
    (mkUserData "Eve" "eve@example.org" "secret" "token-1")
    (mkDB [] [] [mkDevice 1 "token-1" false 3] [] [] [] [])
  = (Raise RelatedObjectDoesNotExist,
     mkDB [] [] [mkDevice 1 "token-1" false 3] [] [] [] []).
Proof.
  apply (User_create_orphan_device (F := Z) (schema := schema_not_null)
           (mkUserData "Eve" "eve@example.org" "secret" "token-1")
           (mkDB [] [] [mkDevice 1 "token-1" false 3] [] [] [] [])
           (mkDevice 1 "token-1" false 3) eq_refl).
  intros u [].
Defined.

Lemma User_create_twice_witness :
  exists u db1 db2,
    User_create (F := Z) (schema := schema_not_null)
      (mkUserData "Eve" "eve@example.org" "secret" "token-2") empty_DB
    = (Ok u, db1)
    /\ User_create (F := Z) (schema := schema_not_null)
         (mkUserData "Mallory" "m@example.org" "other" "token-2") db1
       = (Ok u, db2)
    /\ email u = "eve@example.org"%string
    /\ users db2 = users db1.
Proof.
  destruct (User_create_twice (F := Z) (schema := schema_not_null)
              (mkUserData "Eve" "eve@example.org" "secret" "token-2")
              (mkUserData "Mallory" "m@example.org" "other" "token-2")
              empty_DB
              (fun d (H : In d []) => match H with end)
              (fun u (H : In u []) => match H with end)
              (fun p (H : In p []) => match H with end)
              eq_refl)
    as (u & db1 & db2 & H1 & H2 & _ & He & Hu & _).
  exists u, db1, db2. auto.
Defined.

Lemma sample_user_inv :
  User_inv (F := Z)
    (mkDB [] [mkProfile 1 7 1 "Ann" "" "" None]
       [mkDevice 1 "token-1" false 3] [mkUser 1 "ann@example.org" "h" 1]
       [] [] []).
Proof.
  unfold User_inv. cbn [devices users profiles].
  split; [concrete_NoDup|]. split; [concrete_NoDup|]. split.
  - intros u [<-|[]]. exists (mkDevice 1 "token-1" false 3).
    split; [left|]; reflexivity.
  - intros p [<-|[]]. exists (mkUser 1 "ann@example.org" "h" 1).
    split; [left|]; reflexivity.
Defined.

Lemma User_create_keeps_invariant_witness :
  User_inv (F := Z)
    (snd (User_create (schema := schema_not_null)
            (mkUserData "Eve" "eve@example.org" "secret" "token-2")
            (mkDB [] [mkProfile 1 7 1 "Ann" "" "" None]
               [mkDevice 1 "token-1" false 3]
               [mkUser 1 "ann@example.org" "h" 1] [] [] []))).
Proof.
  exact (User_create_keeps_invariant (F := Z) (schema := schema_not_null)
           (mkUserData "Eve" "eve@example.org" "secret" "token-2")
           _ sample_user_inv).
Defined.

Lemma sample_chat_inv : Chat_inv [mkChat 1 1 2 1 "Bike"].
Proof.
  split; [concrete_NoDup|].
  intros a b l. cbn [filter]. destruct (Chat_matches a b l _); cbn; lia.
Defined.

Lemma Chat_create_keeps_invariant_witness :
  Chat_inv
    (chats (snd (Chat_create (F := Z) (schema := schema_not_null) 2
                   (mkChatData 8 9)
                   (mkDB []
                      [mkProfile 1 7 2 "Bob" "" "" None;
                       mkProfile 2 8 1 "Ann" "" "" None] [] [] []
                      [mkListing 1 9 "Bike" "" 100 1 1 true 1 2]
                      [mkChat 1 1 2 1 "Bike"])))).
Proof.
  exact (proj1 (Chat_create_keeps_invariant (F := Z) (schema := schema_not_null)
                  2 (mkChatData 8 9)
                  (mkDB []
                     [mkProfile 1 7 2 "Bob" "" "" None;
                      mkProfile 2 8 1 "Ann" "" "" None] [] [] []
                     [mkListing 1 9 "Bike" "" 100 1 1 true 1 2]
                     [mkChat 1 1 2 1 "Bike"])
                  sample_chat_inv)).
Defined.

Lemma Chat_create_by_direction_witness :
  Chat_create (F := Z) (schema := schema_not_null) 1 (mkChatData 7 9)
    (mkDB []
       [mkProfile 1 7 2 "Bob" "" "" None; mkProfile 2 8 1 "Ann" "" "" None]
       [] [] [] [mkListing 1 9 "Bike" "" 100 1 1 true 1 2] [])
  = (Ok (mkChat 1 1 2 1 "Bike"),
     mkDB []
       [mkProfile 1 7 2 "Bob" "" "" None; mkProfile 2 8 1 "Ann" "" "" None]
       [] [] [] [mkListing 1 9 "Bike" "" 100 1 1 true 1 2]
       [mkChat 1 1 2 1 "Bike"])
  /\ Chat_create (F := Z) (schema := schema_not_null) 2 (mkChatData 8 9)
       (mkDB []
          [mkProfile 1 7 2 "Bob" "" "" None; mkProfile 2 8 1 "Ann" "" "" None]
          [] [] [] [mkListing 1 9 "Bike" "" 100 1 1 true 1 2]
          [mkChat 1 1 2 1 "Bike"])
     = (Ok (mkChat 2 2 1 1 "Bike"),
        mkDB []
          [mkProfile 1 7 2 "Bob" "" "" None; mkProfile 2 8 1 "Ann" "" "" None]
          [] [] [] [mkListing 1 9 "Bike" "" 100 1 1 true 1 2]
          [mkChat 1 1 2 1 "Bike"; mkChat 2 2 1 1 "Bike"])
  /\ chat_pk (mkChat 1 1 2 1 "Bike") <> chat_pk (mkChat 2 2 1 1 "Bike").
Proof.
  split; [reflexivity|]. split; [reflexivity|].
  apply (proj1 (Chat_create_by_direction (F := Z) (schema := schema_not_null)
                  1 2 (mkChatData 7 9) (mkChatData 8 9)
                  (mkDB []
                     [mkProfile 1 7 2 "Bob" "" "" None;
                      mkProfile 2 8 1 "Ann" "" "" None]
                     [] [] [] [mkListing 1 9 "Bike" "" 100 1 1 true 1 2] [])
                  _ _ (mkChat 1 1 2 1 "Bike") (mkChat 2 2 1 1 "Bike")
                  (conj (NoDup_nil _) (fun _ _ _ => le_S 0 0 (le_n 0)))
                  ltac:(discriminate) eq_refl eq_refl)).
Defined.

(** *** Profile.update with a location *)

Section ProfileLocation.
Context {F : Type} {F_eq : FloatEq F} {schema : Schema}.


End ProfileLocation.

